(** * mac_messages_mcp: recipient resolution and disambiguation

    A shallow embedding of the resolution engine of
    [src/mac_messages_mcp/messages.py]: name cleaning, phone normalisation,
    token-based fuzzy matching, ranking and deduplication of matches, and the
    selector protocol ("contact:N" / "group:N") that [send_message] and
    [get_recent_messages] run over their function-attached match lists.

    Python values are modelled as follows.
    - [str] is a list of Unicode code points ([pystr]).
    - [float] is IEEE binary64, the kernel's primitive [float].
    - [dict] is an association list in insertion order (iteration order and
      the position kept by an overwritten key are observable in the code).
    - Library functions that the repository only calls (Unicode tables,
      [str.lower], [int], [difflib.SequenceMatcher.ratio]) are the fields of
      the class [Python]; [ascii_python] is an instance for ASCII text. *)

From Stdlib Require Import List Bool Arith NArith ZArith Lia.
From Stdlib Require Import Ascii String.
From Stdlib Require Import Permutation Sorted.
From Stdlib Require Import Floats.
Import ListNotations.

Set Implicit Arguments.
Set Warnings "-inexact-float".

(* ================================================================= *)
(** ** Strings *)

(** A Unicode code point. *)
Definition char := N.

(** A Python [str]. *)
Definition pystr := list char.

Definition char_eqb (a b : char) : bool := N.eqb a b.

Fixpoint str_eqb (a b : pystr) : bool :=
  match a, b with
  | [], [] => true
  | x :: a', y :: b' => char_eqb x y && str_eqb a' b'
  | _, _ => false
  end.

(** ASCII literals, for test data and for the constants of the code. *)
Definition lit (s : string) : pystr :=
  List.map N_of_ascii (list_ascii_of_string s).

(** [a.startswith(p)] *)
Fixpoint startswith (a p : pystr) : bool :=
  match p, a with
  | [], _ => true
  | y :: p', x :: a' => char_eqb x y && startswith a' p'
  | _ :: _, [] => false
  end.

(** [c in s] for a one-character [c]. *)
Definition contains (c : char) (s : pystr) : bool := existsb (char_eqb c) s.

Fixpoint dropwhile (p : char -> bool) (s : pystr) : pystr :=
  match s with
  | [] => []
  | c :: r => if p c then dropwhile p r else s
  end.

(** Python's whitespace ([Py_UNICODE_ISSPACE]): what [\s] matches in a [str]
    pattern and what [str.strip] and [str.split] take as separators. *)
Definition is_space (c : char) : bool :=
  ((0x09 <=? c) && (c <=? 0x0D) || (0x1C <=? c) && (c <=? 0x20)
   || (c =? 0x85) || (c =? 0xA0) || (c =? 0x1680)
   || (0x2000 <=? c) && (c <=? 0x200A)
   || (c =? 0x2028) || (c =? 0x2029) || (c =? 0x202F) || (c =? 0x205F)
   || (c =? 0x3000))%N.

Definition SPACE : char := 0x20%N.

Definition lstrip (s : pystr) : pystr := dropwhile is_space s.
Definition rstrip (s : pystr) : pystr := rev (dropwhile is_space (rev s)).

(** [s.strip()] *)
Definition strip (s : pystr) : pystr := rstrip (lstrip s).

(** [s.split()]: the maximal runs of non-whitespace. [cur] is the token
    being read, reversed. *)
Fixpoint split_ws_aux (cur : pystr) (s : pystr) : list pystr :=
  match s with
  | [] => match cur with [] => [] | _ => [rev cur] end
  | c :: r =>
      if is_space c
      then match cur with
           | [] => split_ws_aux [] r
           | _ => rev cur :: split_ws_aux [] r
           end
      else split_ws_aux (c :: cur) r
  end.

Definition split_ws (s : pystr) : list pystr := split_ws_aux [] s.

(** [s.split(":", 1)[1]] when [s] holds a colon: the text after the first. *)
Fixpoint after_colon (s : pystr) : option pystr :=
  match s with
  | [] => None
  | c :: r => if (c =? 0x3A)%N then Some r else after_colon r
  end.

(* ================================================================= *)
(** ** The Python runtime the code calls into *)

Class Python := {
  (** [c.isalnum()] for a one-character string. *)
  isalnum : char -> bool;
  (** [c.isdigit()] for a one-character string. *)
  isdigit : char -> bool;
  (** [s.lower()] *)
  lower : pystr -> pystr;
  (** [int(s)]; [None] stands for [ValueError]. *)
  py_int : pystr -> option Z;
  (** [difflib.SequenceMatcher(None, a, b).ratio()] *)
  ratio : pystr -> pystr -> float;
  (** On ASCII, [isdigit] is true of '0'..'9' only. *)
  isdigit_ascii :
    forall c, (c < 128)%N -> isdigit c = ((0x30 <=? c) && (c <=? 0x39))%N
}.

(* ================================================================= *)
(** ** [clean_name] *)

(** The character class of [emoji_pattern], range by range. *)
Definition emoji_ranges : list (N * N) :=
  [ (0x1F600, 0x1F64F); (0x1F300, 0x1F5FF); (0x1F680, 0x1F6FF);
    (0x1F700, 0x1F77F); (0x1F780, 0x1F7FF); (0x1F800, 0x1F8FF);
    (0x1F900, 0x1F9FF); (0x1FA00, 0x1FA6F); (0x1FA70, 0x1FAFF);
    (0x2702, 0x27B0); (0x24C2, 0x1F251) ]%N.

Definition in_emoji_pattern (c : char) : bool :=
  existsb (fun r => (fst r <=? c) && (c <=? snd r))%N emoji_ranges.

Definition APOSTROPHE : char := 0x27%N.
Definition HYPHEN : char := 0x2D%N.
Definition UNDERSCORE : char := 0x5F%N.

(** [re.sub(r'\s+', ' ', s)]: [in_run] tells that the previous character was
    whitespace, so the run has already produced its one space. *)
Fixpoint sub_space_runs (in_run : bool) (s : pystr) : pystr :=
  match s with
  | [] => []
  | c :: r =>
      if is_space c
      then if in_run then sub_space_runs true r
           else SPACE :: sub_space_runs true r
      else c :: sub_space_runs false r
  end.

Section CleanName.
Context {py : Python}.

(** [\w] in a Unicode pattern: alphanumerics and the underscore. *)
Definition is_word (c : char) : bool := isalnum c || char_eqb c UNDERSCORE.

(** The characters that [re.sub(r'[^\w\s\'\-]', '', name)] leaves. *)
Definition kept (c : char) : bool :=
  is_word c || is_space c || char_eqb c APOSTROPHE || char_eqb c HYPHEN.

Definition clean_name (name : pystr) : pystr :=
  let name := filter (fun c => negb (in_emoji_pattern c)) name in
  let name := filter kept name in
  strip (sub_space_runs false name).

End CleanName.

(* ================================================================= *)
(** ** Scores *)

Section Scores.
Local Open Scope float_scope.

(** [x] is not a NaN. *)
Definition is_number (x : float) : bool := x =? x.

(** [max(a, b)] on two floats: Python keeps [a] unless [b > a]. *)
Definition pymax (a b : float) : float := if a <? b then b else a.

(** [len(s)] as the float operand of a true division. Exact below [2^53],
    which bounds the length of any string the process can hold. *)
Definition len (s : pystr) : float :=
  PrimFloat.of_uint63 (Uint63.of_Z (Z.of_nat (List.length s))).

(** [sorted(l, key=key, reverse=True)]: stable, largest key first. The
    element being inserted stood before all of [l] in the input, so it goes
    in front of the first element whose key is not greater than its own.
    The keys of the code are never NaN (see [fuzzy_match_numbers]). *)
Fixpoint insert_desc (A : Type) (key : A -> float) (x : A) (l : list A)
  : list A :=
  match l with
  | [] => [x]
  | y :: l' => if key x <? key y then y :: insert_desc key x l' else x :: l
  end.

Definition sorted_desc (A : Type) (key : A -> float) (l : list A) : list A :=
  fold_right (insert_desc key) [] l.

End Scores.

(* ================================================================= *)
(** ** [fuzzy_match] *)

Section FuzzyMatch.
Context {py : Python}.
Local Open Scope float_scope.

(** The branch taken for one token of the candidate. *)
Definition token_score (query token : pystr) : float :=
  if str_eqb query token then 0.95
  else if startswith token query then 0.85 * (len query / len token)
  else if startswith query token then 0.80 * (len token / len query)
  else ratio query token.

(** The loop over [tokens], [best_token_score] starting at [0.0]. *)
Definition best_over_tokens (query : pystr) (tokens : list pystr) : float :=
  fold_left (fun best token => pymax best (token_score query token))
            tokens 0.0.

(** [' ' in query or best_token_score < threshold] *)
Definition tries_full_name (query : pystr) (best threshold : float) : bool :=
  contains SPACE query || (best <? threshold).

(** [best_token_score] where the loop body tests it against the threshold;
    [query] and [clean_candidate] are cleaned and lowercased, and differ. *)
Definition best_score (query clean_candidate : pystr) (threshold : float)
  : float :=
  let best := best_over_tokens query (split_ws clean_candidate) in
  if tries_full_name query best threshold
  then pymax best (ratio query clean_candidate)
  else best.

(** The score the loop body gives a candidate, appended or not. *)
Definition candidate_score (query clean_candidate : pystr)
           (threshold : float) : float :=
  if str_eqb query clean_candidate then 1.0
  else best_score query clean_candidate threshold.

(** One iteration of the loop over [candidates]: what it appends. *)
Definition match_candidate (V : Type) (query : pystr) (threshold : float)
           (c : pystr * V) : list (pystr * V * float) :=
  let (name, value) := c in
  let clean_candidate := lower (clean_name name) in
  if str_eqb query clean_candidate then [(name, value, 1.0)]
  else
    let best := best_score query clean_candidate threshold in
    if threshold <=? best then [(name, value, best)] else [].

(** [results] when the loop ends; [query] is cleaned and lowercased. *)
Definition match_results (V : Type) (query : pystr) (threshold : float)
           (candidates : list (pystr * V)) : list (pystr * V * float) :=
  flat_map (match_candidate query threshold) candidates.

Definition fuzzy_match (V : Type) (query : pystr)
           (candidates : list (pystr * V)) (threshold : float)
  : list (pystr * V * float) :=
  let query := lower (clean_name query) in
  match query with
  | [] => []
  | _ => sorted_desc snd (match_results query threshold candidates)
  end.

(** The default of the [threshold] parameter. *)
Definition default_threshold : float := 0.6.

End FuzzyMatch.

(* ================================================================= *)
(** ** Dictionaries *)

Section Dict.
Variable V : Type.

(** A [dict] with [str] keys, in insertion order. *)
Definition dict := list (pystr * V).

(** [d.get(k)] *)
Fixpoint dict_get (d : dict) (k : pystr) : option V :=
  match d with
  | [] => None
  | (k', v) :: r => if str_eqb k' k then Some v else dict_get r k
  end.

(** [k in d] *)
Definition dict_has (d : dict) (k : pystr) : bool :=
  match dict_get d k with Some _ => true | None => false end.

(** [d.get(k, default)] *)
Definition dict_get_default (d : dict) (k : pystr) (default : V) : V :=
  match dict_get d k with Some v => v | None => default end.

(** [d[k] = v]: an existing key keeps its place, a new one goes last. *)
Fixpoint dict_set (d : dict) (k : pystr) (v : V) : dict :=
  match d with
  | [] => [(k, v)]
  | (k', v') :: r =>
      if str_eqb k' k then (k', v) :: r else (k', v') :: dict_set r k v
  end.

(** [d.keys()] and [d.values()] *)
Definition dict_keys (d : dict) : list pystr := List.map fst d.
Definition dict_values (d : dict) : list V := List.map snd d.

End Dict.

(** Truth value of an optional string: [None] and [''] are false. *)
Definition truthy (o : option pystr) : bool :=
  match o with Some (_ :: _) => true | _ => false end.

(** [a or b] *)
Definition py_or (a b : option pystr) : option pystr :=
  if truthy a then a else b.

(** [o == name] for a field that may be [None]. *)
Definition opt_eqb (o : option pystr) (name : pystr) : bool :=
  match o with Some s => str_eqb s name | None => false end.

(* ================================================================= *)
(** ** The contact directory: [find_contact_by_name] *)

(** An entry of the list [find_contact_by_name] returns. *)
Record contact_match := {
  cm_name : pystr;
  cm_phone : pystr;
  cm_score : float;
  cm_matched_on : pystr
}.

Section Contacts.
Context {py : Python}.
Local Open Scope float_scope.

(** [contacts]: the cached map from normalised phone to full name.
    [phone_to_details]: [_PHONE_TO_DETAILS_MAP], of which the code reads the
    nickname only; a phone that is missing has the nickname [""]. *)
Variable contacts : dict pystr.
Variable phone_to_details : dict pystr.

(** The candidates of one phone: the full name, then the nickname if any. *)
Definition contact_candidates_of (entry : pystr * pystr)
  : list (pystr * pystr) :=
  let (phone, contact_name) := entry in
  let nickname := dict_get_default phone_to_details phone [] in
  (contact_name, phone) ::
  match nickname with [] => [] | _ => [(nickname, phone)] end.

Definition contact_candidates : list (pystr * pystr) :=
  flat_map contact_candidates_of contacts.

(** One iteration of the loop that fills [seen_phones]. *)
Definition seen_phones_step (seen : dict contact_match)
           (m : pystr * pystr * float) : dict contact_match :=
  let '(matched_name, phone, score) := m in
  let replaces :=
    match dict_get seen phone with
    | None => true
    | Some old => cm_score old <? score
    end in
  if replaces
  then dict_set seen phone
         {| cm_name := dict_get_default contacts phone matched_name;
            cm_phone := phone;
            cm_score := score;
            cm_matched_on := matched_name |}
  else seen.

Definition find_contact_by_name (name : pystr) : list contact_match :=
  let matches := fuzzy_match name contact_candidates default_threshold in
  let seen_phones := fold_left seen_phones_step matches [] in
  sorted_desc cm_score (dict_values seen_phones).

End Contacts.

(* ================================================================= *)
(** ** The group directory: [find_group_chat_by_name] *)

(** A row of [get_group_chats()]. *)
Record chat := {
  chat_rowid : Z;
  chat_room_name : option pystr;
  chat_display_name : option pystr;
  chat_chat_identifier : option pystr;
  chat_service_name : option pystr;
  chat_applescript_id : pystr;
  chat_applescript_id_alt : pystr
}.

(** What [get_group_chats()] returns: the rows, or the one-element list
    whose dict has the key ["error"]. *)
Inductive group_chats :=
| Chats (rows : list chat)
| ChatsError (error : pystr).

(** An entry of the list [find_group_chat_by_name] returns. *)
Record group_match := {
  gm_name : option pystr;
  gm_room_name : option pystr;
  gm_chat_id : Z;
  gm_applescript_id : pystr;
  gm_applescript_id_alt : pystr;
  gm_score : float
}.

Section Groups.
Context {py : Python}.
Local Open Scope float_scope.

(** The dict built from a chat row, in both places that build one. *)
Definition group_entry (c : chat) (score : float) : group_match :=
  {| gm_name := py_or (chat_display_name c)
                  (py_or (chat_room_name c) (chat_chat_identifier c));
     gm_room_name := chat_room_name c;
     gm_chat_id := chat_rowid c;
     gm_applescript_id := chat_applescript_id c;
     gm_applescript_id_alt := chat_applescript_id_alt c;
     gm_score := score |}.

(** The test of the exact-match loop. *)
Definition is_exact_chat (name : pystr) (c : chat) : bool :=
  opt_eqb (chat_room_name c) name
  || opt_eqb (chat_chat_identifier c) name
  || str_eqb (chat_applescript_id c) name.

(** The candidate a chat contributes: its display name, else its room name,
    else its chat identifier, whichever is the first that is not empty. *)
Definition group_candidate_of (c : chat) : list (pystr * chat) :=
  match chat_display_name c, chat_room_name c, chat_chat_identifier c with
  | Some (x :: s), _, _ => [(x :: s, c)]
  | _, Some (x :: s), _ => [(x :: s, c)]
  | _, _, Some (x :: s) => [(x :: s, c)]
  | _, _, _ => []
  end.

(** One iteration of the loop that fills [seen_chats]. *)
Definition seen_chats_step (seen : dict group_match)
           (m : pystr * chat * float) : dict group_match :=
  let '(matched_name, c, score) := m in
  let applescript_id := chat_applescript_id c in
  let replaces :=
    match dict_get seen applescript_id with
    | None => true
    | Some old => gm_score old <? score
    end in
  if replaces then dict_set seen applescript_id (group_entry c score)
  else seen.

Definition find_group_chat_by_name (chats : group_chats) (name : pystr)
  : list group_match :=
  match chats with
  | ChatsError _ => []
  | Chats rows =>
      match find (is_exact_chat name) rows with
      | Some c => [group_entry c 1.0]
      | None =>
          let candidates := flat_map group_candidate_of rows in
          let matches := fuzzy_match name candidates default_threshold in
          let seen_chats := fold_left seen_chats_step matches [] in
          sorted_desc gm_score (dict_values seen_chats)
      end
  end.

End Groups.

(* ================================================================= *)
(** ** Phone numbers *)

(** A row of the [handle] table as the query of [find_handle_by_phone] sees
    it: its [ROWID], its [id] and the number of chats it takes part in. *)
Record handle_row := {
  h_rowid : Z;
  h_id : pystr;
  h_chat_count : nat
}.

(** What [query_messages_db] returns for that query. *)
Inductive handle_table :=
| Handles (rows : list handle_row)
| HandlesError (error : pystr).

Definition ONE : char := 0x31%N.
Definition PLUS : char := 0x2B%N.

Section Phones.
Context {py : Python}.

Definition normalize_phone_number (phone : pystr) : pystr :=
  filter isdigit phone.

(** [formats_to_try] of [find_handle_by_phone]. *)
Definition formats_to_try (normalized : pystr) : list pystr :=
  if startswith normalized [ONE] && (10 <? List.length normalized)
  then [normalized; tl normalized]
  else if List.length normalized =? 10
       then [normalized; ONE :: normalized]
       else [normalized].

(** [params]: every format, then every format behind a ["+"]. *)
Definition handle_params (formats : list pystr) : list pystr :=
  formats ++ List.map (cons PLUS) formats.

(** [ORDER BY chat_count ASC, h.ROWID ASC]: [a] comes before [b]. *)
Definition handle_before (a b : handle_row) : bool :=
  (h_chat_count a <? h_chat_count b)
  || ((h_chat_count a =? h_chat_count b) && (h_rowid a <? h_rowid b)%Z).

(** The first row in that order. *)
Definition first_handle (rows : list handle_row) : option handle_row :=
  fold_left (fun best r =>
               match best with
               | None => Some r
               | Some b => if handle_before r b then Some r else Some b
               end) rows None.

Definition find_handle_by_phone (table : handle_table) (phone : pystr)
  : option Z :=
  let normalized := normalize_phone_number phone in
  match normalized with
  | [] => None
  | _ =>
      let params := handle_params (formats_to_try normalized) in
      match table with
      | HandlesError _ => None
      | Handles rows =>
          let results :=
            filter (fun r => existsb (str_eqb (h_id r)) params) rows in
          option_map h_rowid (first_handle results)
      end
  end.

(** The address-book part of [get_contact_name]: the name under the
    normalised handle, else under its variant with or without the country
    code; [None] where the code goes on to the chat's display name. *)
Definition addressbook_name (contacts : dict pystr) (handle_id_value : pystr)
  : option pystr :=
  let normalized_handle := normalize_phone_number handle_id_value in
  match dict_get contacts normalized_handle with
  | Some name => Some name
  | None =>
      if startswith normalized_handle [ONE]
         && (10 <? List.length normalized_handle)
      then dict_get contacts (tl normalized_handle)
      else if List.length normalized_handle =? 10
           then dict_get contacts (ONE :: normalized_handle)
           else None
  end.

(** [get_contact_name], with what its two queries return as arguments:
    [handle] is the [id] of the row of [handle_id] ([None] when [handle_id]
    is [None] or the query gives an error or no row), [display_name] is the
    display name of a chat of that handle, if the second query finds one. *)
Definition get_contact_name (handle : option pystr) (contacts : dict pystr)
           (display_name : option pystr) : pystr :=
  match handle with
  | None => lit "Unknown"
  | Some handle_id_value =>
      match addressbook_name contacts handle_id_value with
      | Some name => name
      | None =>
          match display_name with
          | Some (c :: n) => c :: n
          | _ => handle_id_value
          end
      end
  end.

End Phones.

(* ================================================================= *)
(** ** Sessions, directories and the transport *)

(** The two function attributes that hold the latest ambiguous result. *)
Record session := {
  recent_matches : list contact_match;
  recent_group_matches : list group_match
}.

Definition empty_session : session :=
  {| recent_matches := []; recent_group_matches := [] |}.

(** The attributes of [send_message] and those of [get_recent_messages]. *)
Record sessions := {
  send_session : session;
  history_session : session
}.

(** Both pairs of attributes as the module initialises them. *)
Definition initial_sessions : sessions :=
  {| send_session := empty_session; history_session := empty_session |}.

(** What the cached directories hold during one call. *)
Record directories := {
  dir_contacts : dict pystr;
  dir_phone_to_details : dict pystr;
  dir_group_chats : group_chats
}.

(** The delivery of a message, outside the engine: [World] is whatever it
    acts on, and the string it returns starts with ["Error"] on failure. *)
Class Messenger := {
  World : Type;
  _send_message_to_recipient :
    pystr -> pystr -> option pystr -> bool -> World -> pystr * World
}.

Inductive kind := Contact | Group.

(** The ways a selector is turned down, one per message of the code. *)
Inductive selector_error :=
| InvalidFormat        (* "Error: Invalid ... selection format. ..." *)
| NotANumber           (* "Error: ... selection must be a number. ..." *)
| NotPositive          (* "Error: ... must be a positive number ..." *)
| NoRecentMatches      (* "No recent ... matches available. ..." *)
| InvalidSelection (bound : nat).
                       (* "... choose a number between 1 and {bound}." *)

(** What [send_message] returns, one constructor per [return]; the lists of
    an ambiguous report are the entries that the text enumerates. *)
Inductive outcome :=
| ModeConflict (k : kind)
| SelectorError (k : kind) (e : selector_error)
| EmailInGroupMode
| PhoneInGroupMode
| GroupAccessError (error : pystr)
| NotFound (recipient : pystr)
| Delivery (result : pystr)
| AmbiguousBoth (groups : list group_match) (contacts : list contact_match)
| AmbiguousGroups (groups : list group_match)
| AmbiguousContacts (contacts : list contact_match).

(** What the resolution part of [get_recent_messages] yields: an early
    [return], or the filter with which the function goes on to query the
    database ([chat_room_name] and [contact] as they stand after line 1053;
    nothing after that line touches a session). *)
Inductive lookup :=
| HoursNegative
| HoursTooLarge
| LookupSelectorError (k : kind) (e : selector_error)
| LookupNotFound (contact : pystr)
| LookupAmbiguousBoth (groups : list group_match)
                      (contacts : list contact_match)
| LookupAmbiguousGroups (groups : list group_match)
| LookupAmbiguousContacts (contacts : list contact_match)
| Query (chat_room_name : option pystr) (contact : option pystr).

(** The index of a selector, or why it has none. *)
Inductive selector_index :=
| BadIndex (e : selector_error)
| Index (index : nat).

Section Resolver.
Context {py : Python} {ms : Messenger}.

(** The lines shared by the four selector branches: split at the first
    colon, strip, [int(...) - 1], and the test [index < 0]. *)
Definition selector_index_of (recipient : pystr) : selector_index :=
  match after_colon recipient with
  | None => BadIndex InvalidFormat
  | Some part =>
      match strip part with
      | [] => BadIndex InvalidFormat
      | digits =>
          match py_int digits with
          | None => BadIndex NotANumber
          | Some n =>
              if (n - 1 <? 0)%Z then BadIndex NotPositive
              else Index (Z.to_nat (n - 1))
          end
      end
  end.

(** [result.startswith("Error")] *)
Definition is_error (result : pystr) : bool :=
  startswith result (lit "Error").

(** Send to a group: the primary id, then the alternative one if the first
    attempt failed and the entry has an alternative. *)
Definition send_to_group (group : group_match) (message : pystr) (w : World)
  : pystr * World :=
  let (result, w1) :=
    _send_message_to_recipient (gm_applescript_id group) message
                               (gm_name group) true w in
  if is_error result && truthy (Some (gm_applescript_id_alt group))
  then _send_message_to_recipient (gm_applescript_id_alt group) message
                                  (gm_name group) true w1
  else (result, w1).

Definition send_to_contact (contact : contact_match) (message : pystr)
           (w : World) : pystr * World :=
  _send_message_to_recipient (cm_phone contact) message
                             (Some (cm_name contact)) false w.

(** The end of both selector branches: the attributes are emptied when the
    result does not start with ["Error"]. *)
Definition after_selected_send (s : session) (sent : pystr * World)
  : outcome * session * World :=
  let (result, w) := sent in
  if is_error result then (Delivery result, s, w)
  else (Delivery result, empty_session, w).

(** [all(c.isdigit() or c in '+- ()' for c in recipient)] *)
Definition is_phone_literal (recipient : pystr) : bool :=
  forallb (fun c => isdigit c || contains c (lit "+- ()")) recipient.

Definition is_email_literal (recipient : pystr) : bool :=
  contains 0x40%N recipient && contains 0x2E%N recipient.

(** Line 744: [[] if group_chat is False else find_group_chat_by_name(...)] *)
Definition searched_groups (dirs : directories) (group_chat : option bool)
           (recipient : pystr) : list group_match :=
  match group_chat with
  | Some false => []
  | _ => find_group_chat_by_name (dir_group_chats dirs) recipient
  end.

(** Line 745: [[] if group_chat is True else find_contact_by_name(...)] *)
Definition searched_contacts (dirs : directories) (group_chat : option bool)
           (recipient : pystr) : list contact_match :=
  match group_chat with
  | Some true => []
  | _ => find_contact_by_name (dir_contacts dirs)
                              (dir_phone_to_details dirs) recipient
  end.

(** Lines 737-793: the lookup by name. *)
Definition send_by_name (dirs : directories) (recipient message : pystr)
           (group_chat : option bool) (s : session) (w : World)
  : outcome * session * World :=
  match group_chat, dir_group_chats dirs with
  | Some true, ChatsError error => (GroupAccessError error, s, w)
  | _, _ =>
      let group_matches := searched_groups dirs group_chat recipient in
      let contact_matches := searched_contacts dirs group_chat recipient in
      match group_matches, contact_matches with
      | [], [] => (NotFound recipient, s, w)
      | [group], [] =>
          let (result, w') := send_to_group group message w in
          (Delivery result, empty_session, w')
      | [], [contact] =>
          let (result, w') := send_to_contact contact message w in
          (Delivery result, empty_session, w')
      | _, _ =>
          let s' := {| recent_matches := contact_matches;
                       recent_group_matches := group_matches |} in
          match group_matches, contact_matches with
          | _ :: _, _ :: _ =>
              (AmbiguousBoth (firstn 5 group_matches)
                             (firstn 5 contact_matches), s', w)
          | _ :: _, [] => (AmbiguousGroups (firstn 10 group_matches), s', w)
          | [], _ => (AmbiguousContacts (firstn 10 contact_matches), s', w)
          end
      end
  end.

Definition send_message (dirs : directories) (recipient message : pystr)
           (group_chat : option bool) (s : session) (w : World)
  : outcome * session * World :=
  let recipient := strip recipient in
  if startswith (lower recipient) (lit "group:") then
    match group_chat with
    | Some false => (ModeConflict Group, s, w)
    | _ =>
        match selector_index_of recipient with
        | BadIndex e => (SelectorError Group e, s, w)
        | Index index =>
            match recent_group_matches s with
            | [] => (SelectorError Group NoRecentMatches, s, w)
            | _ =>
                match nth_error (recent_group_matches s) index with
                | None =>
                    (SelectorError Group
                       (InvalidSelection (List.length (recent_group_matches s))),
                     s, w)
                | Some group =>
                    after_selected_send s (send_to_group group message w)
                end
            end
        end
    end
  else if startswith (lower recipient) (lit "contact:") then
    match group_chat with
    | Some true => (ModeConflict Contact, s, w)
    | _ =>
        match selector_index_of recipient with
        | BadIndex e => (SelectorError Contact e, s, w)
        | Index index =>
            match recent_matches s with
            | [] => (SelectorError Contact NoRecentMatches, s, w)
            | _ =>
                match nth_error (recent_matches s) index with
                | None =>
                    (SelectorError Contact
                       (InvalidSelection (List.length (recent_matches s))),
                     s, w)
                | Some contact =>
                    after_selected_send s (send_to_contact contact message w)
                end
            end
        end
    end
  else if is_email_literal recipient then
    match group_chat with
    | Some true => (EmailInGroupMode, s, w)
    | _ =>
        let (result, w') :=
          _send_message_to_recipient recipient message None false w in
        (Delivery result, s, w')
    end
  else if is_phone_literal recipient then
    match group_chat with
    | Some true => (PhoneInGroupMode, s, w)
    | _ =>
        let clean_number := filter isdigit recipient in
        let (result, w') :=
          _send_message_to_recipient clean_number message None false w in
        (Delivery result, s, w')
    end
  else send_by_name dirs recipient message group_chat s w.

End Resolver.

(* ================================================================= *)
(** ** The resolution part of [get_recent_messages] *)

Definition MAX_HOURS : Z := 10 * 365 * 24.

Section History.
Context {py : Python}.

(** [all(c.isdigit() or c in '+- ()@.' for c in contact)] *)
Definition is_address_literal (contact : pystr) : bool :=
  forallb (fun c => isdigit c || contains c (lit "+- ()@.")) contact.

(** Lines 1007-1053: the lookup by name. *)
Definition lookup_by_name (dirs : directories) (contact : pystr) (s : session)
  : lookup * session :=
  let group_matches :=
    find_group_chat_by_name (dir_group_chats dirs) contact in
  match group_matches with
  | [] =>
      let matches := find_contact_by_name (dir_contacts dirs)
                       (dir_phone_to_details dirs) contact in
      match matches with
      | [] => (LookupNotFound contact, s)
      | [m] => (Query None (Some (cm_phone m)), s)
      | _ =>
          (LookupAmbiguousContacts (firstn 10 matches),
           {| recent_matches := matches;
              recent_group_matches := recent_group_matches s |})
      end
  | [group] => (Query (gm_room_name group) (Some contact), s)
  | _ =>
      let contact_matches := find_contact_by_name (dir_contacts dirs)
                               (dir_phone_to_details dirs) contact in
      match contact_matches with
      | [] =>
          (LookupAmbiguousGroups (firstn 10 group_matches),
           {| recent_matches := [];
              recent_group_matches := group_matches |})
      | _ =>
          (LookupAmbiguousBoth (firstn 5 group_matches)
                               (firstn 5 contact_matches),
           {| recent_matches := contact_matches;
              recent_group_matches := group_matches |})
      end
  end.

(** Line 1006 on: a contact that is not a selected group is looked up by
    name unless it is empty or reads as a phone number or an email. *)
Definition lookup_contact (dirs : directories) (contact : pystr) (s : session)
  : lookup * session :=
  match contact with
  | [] => (Query None (Some contact), s)
  | _ =>
      if is_address_literal contact then (Query None (Some contact), s)
      else lookup_by_name dirs contact s
  end.

Definition get_recent_messages (dirs : directories) (hours : Z)
           (contact : option pystr) (s : session) : lookup * session :=
  if (hours <? 0)%Z then (HoursNegative, s)
  else if (MAX_HOURS <? hours)%Z then (HoursTooLarge, s)
  else
    match contact with
    | None | Some [] => (Query None None, s)
    | Some given =>
        let contact := strip given in
        if startswith (lower contact) (lit "group:") then
          match selector_index_of contact with
          | BadIndex e => (LookupSelectorError Group e, s)
          | Index index =>
              match recent_group_matches s with
              | [] => (LookupSelectorError Group NoRecentMatches, s)
              | _ =>
                  match nth_error (recent_group_matches s) index with
                  | None =>
                      (LookupSelectorError Group
                         (InvalidSelection
                            (List.length (recent_group_matches s))), s)
                  | Some group => (Query (gm_room_name group) None, s)
                  end
              end
          end
        else if startswith (lower contact) (lit "contact:") then
          match selector_index_of contact with
          | BadIndex e => (LookupSelectorError Contact e, s)
          | Index index =>
              match recent_matches s with
              | [] => (LookupSelectorError Contact NoRecentMatches, s)
              | _ =>
                  match nth_error (recent_matches s) index with
                  | None =>
                      (LookupSelectorError Contact
                         (InvalidSelection (List.length (recent_matches s))),
                       s)
                  | Some m => lookup_contact dirs (cm_phone m) s
                  end
              end
          end
        else lookup_contact dirs contact s
    end.

End History.

(* ================================================================= *)
(** ** The process: calls on the two pairs of attributes *)

Section Process.
Context {py : Python} {ms : Messenger}.

(** A call of one of the two entry points, with the directories as the
    caches hold them during the call. *)
Inductive call :=
| CallSend (dirs : directories) (recipient message : pystr)
           (group_chat : option bool)
| CallHistory (dirs : directories) (hours : Z) (contact : option pystr).

(** The attributes and the world after a call. *)
Definition run_call (c : call) (st : sessions * World) : sessions * World :=
  let (ss, w) := st in
  match c with
  | CallSend dirs recipient message group_chat =>
      let '(_, s', w') :=
        send_message dirs recipient message group_chat (send_session ss) w in
      ({| send_session := s'; history_session := history_session ss |}, w')
  | CallHistory dirs hours contact =>
      let (_, s') :=
        get_recent_messages dirs hours contact (history_session ss) in
      ({| send_session := send_session ss; history_session := s' |}, w)
  end.

(** The state after a sequence of calls, started with empty attributes. *)
Definition run_calls (calls : list call) (w : World) : sessions * World :=
  fold_left (fun st c => run_call c st) calls (initial_sessions, w).

End Process.

(* ================================================================= *)
(** ** Instances for examples: ASCII text, a logging transport *)

(** The matching blocks of [difflib.SequenceMatcher] without junk: strings
    shorter than 200 characters, for which the [autojunk] heuristic is off. *)

Fixpoint common_prefix (a b : pystr) : nat :=
  match a, b with
  | x :: a', y :: b' => if char_eqb x y then S (common_prefix a' b') else 0
  | _, _ => 0
  end.

(** The longest block of [b] that matches a prefix of [a]: [(j, k)], the
    leftmost [j] among the longest; [best] is the best found so far. *)
Fixpoint longest_at (a b : pystr) (j : nat) (best : nat * nat) : nat * nat :=
  match b with
  | [] => best
  | _ :: b' =>
      let k := common_prefix a b in
      longest_at a b' (S j) (if snd best <? k then (j, k) else best)
  end.

(** [find_longest_match]: [(i, j, k)] with [a[i:i+k] == b[j:j+k]], [k]
    maximal, then [i] minimal, then [j] minimal. *)
Fixpoint find_longest_match_from (a b : pystr) (i : nat)
         (best : nat * nat * nat) : nat * nat * nat :=
  match a with
  | [] => best
  | _ :: a' =>
      let '(j, k) := longest_at a b 0 (0, 0) in
      find_longest_match_from a' b (S i)
        (if snd best <? k then (i, j, k) else best)
  end.

Definition find_longest_match (a b : pystr) : nat * nat * nat :=
  find_longest_match_from a b 0 (0, 0, 0).

(** The total size of [get_matching_blocks()]: the longest block, then the
    same to its left and to its right. *)
Fixpoint matching_chars (fuel : nat) (a b : pystr) : nat :=
  match fuel with
  | O => 0
  | S fuel' =>
      let '(i, j, k) := find_longest_match a b in
      if k =? 0 then 0
      else k + matching_chars fuel' (firstn i a) (firstn j b)
             + matching_chars fuel' (skipn (i + k) a) (skipn (j + k) b)
  end.

Definition float_of_nat (n : nat) : float :=
  PrimFloat.of_uint63 (Uint63.of_Z (Z.of_nat n)).

(** [_calculate_ratio(matches, len(a) + len(b))] *)
Definition difflib_ratio (a b : pystr) : float :=
  let matches := matching_chars (S (List.length a)) a b in
  let total := List.length a + List.length b in
  if total =? 0 then 1.0%float
  else (2.0 * float_of_nat matches / float_of_nat total)%float.

Definition ascii_isdigit (c : char) : bool := ((0x30 <=? c) && (c <=? 0x39))%N.

Definition ascii_isalnum (c : char) : bool :=
  (ascii_isdigit c || (0x41 <=? c) && (c <=? 0x5A)
   || (0x61 <=? c) && (c <=? 0x7A))%N.

Definition ascii_lower (s : pystr) : pystr :=
  List.map (fun c => if ((0x41 <=? c) && (c <=? 0x5A))%N then (c + 32)%N else c) s.

(** Decimal digits read left to right. *)
Fixpoint digits_value (acc : Z) (s : pystr) : option Z :=
  match s with
  | [] => Some acc
  | c :: r =>
      if ascii_isdigit c
      then digits_value (10 * acc + Z.of_N (c - 0x30)) r
      else None
  end.

(** [int(s)] for an optional sign and ASCII digits between whitespace. *)
Definition ascii_int (s : pystr) : option Z :=
  match strip s with
  | [] => None
  | c :: r =>
      if (c =? 0x2D)%N then
        match r with [] => None | _ => option_map Z.opp (digits_value 0 r) end
      else if (c =? 0x2B)%N then
        match r with [] => None | _ => digits_value 0 r end
      else digits_value 0 (c :: r)
  end.

#[export] Instance ascii_python : Python := {|
  isalnum := ascii_isalnum;
  isdigit := ascii_isdigit;
  lower := ascii_lower;
  py_int := ascii_int;
  ratio := difflib_ratio;
  isdigit_ascii := fun c _ => eq_refl
|}.

(** A transport that records the recipients it was given and fails for the
    recipient ["unreachable"]. *)
#[export] Instance logging_messenger : Messenger := {|
  World := list pystr;
  _send_message_to_recipient := fun recipient message contact_name group_chat w =>
    if str_eqb recipient (lit "unreachable")
    then (lit "Error: no such participant", w ++ [recipient])
    else (lit "Message sent successfully to "
            ++ match contact_name with
               | Some (c :: n) => c :: n
               | _ => recipient
               end,
          w ++ [recipient])
|}.

(* ================================================================= *)
(** ** Sample directories *)

Definition sample_contacts : dict pystr :=
  [ (lit "14155550101", lit "Sam Adams");
    (lit "14155550102", lit "Sam Baker");
    (lit "14155550103", lit "Sam Clark");
    (lit "14155550104", lit "Sam Drake");
    (lit "14155550105", lit "Sam Evans");
    (lit "14155550106", lit "Sam Flynn");
    (lit "14155550107", lit "Alex Smith") ].

(** Sam Adams goes by "Sammy". *)
Definition sample_details : dict pystr :=
  [ (lit "14155550101", lit "Sammy") ].

Definition sample_chat (rowid : Z) (room display : string) : chat :=
  {| chat_rowid := rowid;
     chat_room_name := Some (lit room);
     chat_display_name := Some (lit display);
     chat_chat_identifier := Some (lit room);
     chat_service_name := Some (lit "iMessage");
     chat_applescript_id := lit "iMessage;+;" ++ lit room;
     chat_applescript_id_alt := lit "any;+;" ++ lit room |}.

Definition sample_dirs : directories :=
  {| dir_contacts := sample_contacts;
     dir_phone_to_details := sample_details;
     dir_group_chats :=
       Chats [ sample_chat 1 "chat100" "Sam fans";
               sample_chat 2 "chat200" "Book club" ] |}.

(** The attributes after the search for "sam" in the sample directories. *)
Definition sample_session : session :=
  {| recent_matches := find_contact_by_name sample_contacts sample_details
                                            (lit "sam");
     recent_group_matches :=
       find_group_chat_by_name (dir_group_chats sample_dirs) (lit "sam") |}.

(** An empty outbox. *)
Definition no_messages : @World logging_messenger := [].

(* ================================================================= *)
(** ** Definitions used in the statements *)

(** The string does not begin with whitespace. *)
Definition no_lead (s : pystr) : Prop :=
  match s with [] => True | c :: _ => is_space c = false end.

(** Every whitespace character is a plain space and none follows another;
    [prev] tells that the string comes right after a space. *)
Fixpoint single_spaced (prev : bool) (s : pystr) : bool :=
  match s with
  | [] => true
  | c :: r =>
      if is_space c
      then char_eqb c SPACE && negb prev && single_spaced true r
      else single_spaced false r
  end.


Section Statements.
Local Open Scope float_scope.

(** Largest key first: every element's key is at least the key of each
    element after it. *)
Definition descending (A : Type) (key : A -> float) (l : list A) : Prop :=
  StronglySorted (fun a b => (key b <=? key a) = true) l.

(** [l1] is [l2] with some elements left out, the others in their order. *)
Inductive subseq (A : Type) : list A -> list A -> Prop :=
| subseq_nil : subseq [] []
| subseq_skip x l1 l2 : subseq l1 l2 -> subseq l1 (x :: l2)
| subseq_take x l1 l2 : subseq l1 l2 -> subseq (x :: l1) (x :: l2).

(** [m] is the greatest of [0.0] and the values [xs]. *)
Definition is_max_of (m : float) (xs : list float) : Prop :=
  In m (0.0 :: xs) /\ forall x, In x xs -> (m <? x) = false.

End Statements.

Section FuzzyStatements.
Context {py : Python}.
Local Open Scope float_scope.

(** The values of the rules that apply to a cleaned, lowercased query and
    label, as the specification lists them: [1.0] alone when the two are
    equal; otherwise the rule of each token of the label and, when the query
    holds a space or the best token value is below the threshold, the ratio
    of the query and the whole label. *)
Definition match_rules (query label : pystr) (threshold : float)
  : list float :=
  if str_eqb query label then [1.0]
  else
    let per_token := List.map (token_score query) (split_ws label) in
    let best := fold_left pymax per_token 0.0 in
    per_token ++
    (if contains SPACE query || (best <? threshold)
     then [ratio query label] else []).

(** The loop body appends candidate [c] with the score [s]. *)
Definition scores_as (V : Type) (query : pystr) (threshold s : float)
           (c : pystr * V) : bool :=
  existsb (fun e => snd e =? s) (match_candidate query threshold c).

End FuzzyStatements.

Section FirstPerKey.
Variable M : Type.
Variable mkey : M -> pystr.

(** The elements of [l] whose key occurs neither in [seen_keys] nor earlier
    in [l]: the first element of every new key, in the order of [l]. *)
Fixpoint first_per_key (seen_keys : list pystr) (l : list M) : list M :=
  match l with
  | [] => []
  | m :: r =>
      if existsb (str_eqb (mkey m)) seen_keys
      then first_per_key seen_keys r
      else m :: first_per_key (seen_keys ++ [mkey m]) r
  end.

End FirstPerKey.

(** The fields of a contact entry that come from the match it was made of. *)
Definition contact_match_of (e : contact_match) : pystr * pystr * float :=
  (cm_matched_on e, cm_phone e, cm_score e).

(** The entry that [find_contact_by_name] makes of a match. *)
Definition contact_entry (contacts : dict pystr) (m : pystr * pystr * float)
  : contact_match :=
  let '(matched_name, phone, score) := m in
  {| cm_name := dict_get_default contacts phone matched_name;
     cm_phone := phone;
     cm_score := score;
     cm_matched_on := matched_name |}.

(** The address and score of a group entry, and of a match on a chat. *)
Definition group_match_of (e : group_match) : pystr * float :=
  (gm_applescript_id e, gm_score e).

Definition chat_match_of (m : pystr * chat * float) : pystr * float :=
  (chat_applescript_id (snd (fst m)), snd m).

(** The matches that [find_contact_by_name] and [find_group_chat_by_name]
    deduplicate: [matches] in their bodies. *)
Definition contact_matches_of {py : Python} (contacts details : dict pystr)
           (name : pystr) : list (pystr * pystr * float) :=
  fuzzy_match name (contact_candidates contacts details) default_threshold.

Definition chat_matches_of {py : Python} (rows : list chat) (name : pystr)
  : list (pystr * chat * float) :=
  fuzzy_match name (flat_map group_candidate_of rows) default_threshold.

(** The deduplication keys of the two kinds of match, and the entry that
    [find_group_chat_by_name] makes of a match. *)
Definition match_phone (m : pystr * pystr * float) : pystr := snd (fst m).

Definition match_chat_id (m : pystr * chat * float) : pystr :=
  chat_applescript_id (snd (fst m)).

Definition chat_entry (m : pystr * chat * float) : group_match :=
  group_entry (snd (fst m)) (snd m).

(** The two lists an ambiguous report enumerates. *)
Definition report_of (o : outcome)
  : option (list group_match * list contact_match) :=
  match o with
  | AmbiguousBoth groups contacts => Some (groups, contacts)
  | AmbiguousGroups groups => Some (groups, [])
  | AmbiguousContacts contacts => Some ([], contacts)
  | _ => None
  end.

Definition lookup_report_of (o : lookup)
  : option (list group_match * list contact_match) :=
  match o with
  | LookupAmbiguousBoth groups contacts => Some (groups, contacts)
  | LookupAmbiguousGroups groups => Some (groups, [])
  | LookupAmbiguousContacts contacts => Some ([], contacts)
  | _ => None
  end.

(** The number of entries a report shows of each list. *)
Definition display_cap (groups : list group_match)
           (contacts : list contact_match) : nat :=
  match groups, contacts with
  | _ :: _, _ :: _ => 5
  | _, _ => 10
  end.

(** No two entries of a list share their address. *)
Definition session_deduplicated (s : session) : Prop :=
  NoDup (List.map cm_phone (recent_matches s))
  /\ NoDup (List.map gm_applescript_id (recent_group_matches s)).

(** The group directory can be searched: not the case in which
    [send_message] returns the access error of lines 739-742. *)
Definition group_search_allowed (dirs : directories)
           (group_chat : option bool) : Prop :=
  match group_chat, dir_group_chats dirs with
  | Some true, ChatsError _ => False
  | _, _ => True
  end.

Section DedupLoop.
Variables M R : Type.
Variable mkey : M -> pystr.
Variable mscore : M -> float.
Variable entry : M -> R.
Variable escore : R -> float.

(** The body shared by the loops over [matches] that fill [seen_phones]
    and [seen_chats]: a match goes in when its key is new or its score is
    greater than the score stored under the key. *)
Definition dedup_step (seen : dict R) (m : M) : dict R :=
  if match dict_get seen (mkey m) with
     | None => true
     | Some old => (escore old <? mscore m)%float
     end
  then dict_set seen (mkey m) (entry m)
  else seen.

End DedupLoop.

(* ================================================================= *)
(** * The functions around the resolution engine *)

(* ================================================================= *)
(** ** Cleaned labels and deliveries *)

(** A candidate with its label cleaned beforehand, and a result with the
    label of its candidate cleaned. *)
Definition clean_label {py : Python} (V : Type) (c : pystr * V) : pystr * V :=
  (clean_name (fst c), snd c).

Definition clean_result {py : Python} (V : Type) (e : pystr * V * float)
  : pystr * V * float :=
  (clean_label (fst e), snd e).

(** The outcome is the result of a send. *)
Definition is_delivery (o : outcome) : bool :=
  match o with Delivery _ => true | _ => false end.

(* ================================================================= *)
(** ** The address book: [process_contacts] *)

(** A row of the address-book query; a column that is NULL, and a key that
    the row lacks, is [None]. *)
Record contact_row := {
  row_first_name : option pystr;
  row_last_name : option pystr;
  row_nickname : option pystr;
  row_phone : option pystr
}.

(** The values of [_PHONE_TO_DETAILS_MAP]. *)
Record contact_details := {
  d_first_name : pystr;
  d_last_name : pystr;
  d_nickname : pystr;
  d_full_name : pystr
}.

(** The three dictionaries [process_contacts] fills: the one it returns,
    [_NAME_TO_NUMBERS_MAP] and [_PHONE_TO_DETAILS_MAP]. *)
Record address_book := {
  contacts_map : dict pystr;
  name_to_numbers : dict (list pystr);
  phone_to_details : dict contact_details
}.

Definition empty_book : address_book :=
  {| contacts_map := []; name_to_numbers := []; phone_to_details := [] |}.

(** [x or ''] *)
Definition or_empty (o : option pystr) : pystr :=
  match o with Some s => s | None => [] end.

(** [sub in s] *)
Fixpoint has_sub (s sub : pystr) : bool :=
  startswith s sub
  || match s with [] => false | _ :: r => has_sub r sub end.

(** [s.split(sep)[0]], for a separator that is not empty: the text before
    the first [sep], all of [s] if it holds none. *)
Fixpoint before_sep (s sep : pystr) : pystr :=
  match s with
  | [] => []
  | c :: r => if startswith s sep then [] else c :: before_sep r sep
  end.

(** [sep.join(parts)] *)
Definition join (sep : pystr) (parts : list pystr) : pystr :=
  match parts with
  | [] => []
  | p :: ps => p ++ flat_map (fun q => sep ++ q) ps
  end.

(** The truth value of a [str]. *)
Definition nonempty (s : pystr) : bool :=
  match s with [] => false | _ :: _ => true end.

Definition X_IMAGETYPE : pystr := lit "X-IMAGETYPE".

Section AddressBook.
Context {py : Python}.

(** The body of the loop of [process_contacts]; [book] is returned as it is
    where the code says [continue]. *)
Definition process_contact (book : address_book) (contact : contact_row)
  : address_book :=
  let first_name := or_empty (row_first_name contact) in
  let last_name := or_empty (row_last_name contact) in
  let nickname := or_empty (row_nickname contact) in
  match row_phone contact with
  | None | Some [] => book
  | Some phone =>
      let phone :=
        if has_sub phone X_IMAGETYPE then before_sep phone X_IMAGETYPE
        else phone in
      let full_name := join [SPACE] (filter nonempty [first_name; last_name]) in
      match strip full_name with
      | [] => book
      | _ =>
          let normalized_phone := normalize_phone_number phone in
          match normalized_phone with
          | [] => book
          | _ =>
              {| contacts_map :=
                   dict_set (contacts_map book) normalized_phone full_name;
                 phone_to_details :=
                   dict_set (phone_to_details book) normalized_phone
                     {| d_first_name := strip first_name;
                        d_last_name := strip last_name;
                        d_nickname := strip nickname;
                        d_full_name := full_name |};
                 name_to_numbers :=
                   dict_set (name_to_numbers book) full_name
                     (dict_get_default (name_to_numbers book) full_name []
                      ++ [normalized_phone]) |}
          end
      end
  end.

Definition process_contacts (contacts : list contact_row) : address_book :=
  fold_left process_contact contacts empty_book.

(** What [find_contact_by_name] reads of [_PHONE_TO_DETAILS_MAP]:
    [details.get("nickname", '')]. *)
Definition nicknames (book : address_book) : dict pystr :=
  List.map (fun e => (fst e, d_nickname (snd e))) (phone_to_details book).

End AddressBook.

(** What holds of the three dictionaries whatever the rows were: the
    details are kept under the same numbers, in the same order and with the
    same full name, as the names; no number is listed twice; a number is a
    non-empty string of digits and a name is not blank; and the reverse
    lookup lists every number under the name it is stored with. *)
Definition book_consistent {py : Python} (book : address_book) : Prop :=
  List.map (fun e => (fst e, d_full_name (snd e))) (phone_to_details book)
  = contacts_map book
  /\ NoDup (dict_keys (contacts_map book))
  /\ (forall p name : pystr,
         In (p, name) (contacts_map book) ->
         p <> [] /\ forallb isdigit p = true /\ strip name <> [])
  /\ (forall p name : pystr,
         dict_get (contacts_map book) p = Some name ->
         exists numbers,
           dict_get (name_to_numbers book) name = Some numbers
           /\ In p numbers).

(** Two rows of an address book: a nickname to be stripped, a number with
    punctuation, and a number followed by image metadata. *)
Definition sample_rows : list contact_row :=
  [ {| row_first_name := Some (lit "Sam");
       row_last_name := Some (lit "Adams");
       row_nickname := Some (lit " Sammy ");
       row_phone := Some (lit "+1 (415) 555-0101") |};
    {| row_first_name := Some (lit "Alex");
       row_last_name := None;
       row_nickname := None;
       row_phone := Some (lit "415-555-0102X-IMAGETYPE99") |} ].

(** The number and the name under which a row is stored, if it is: the
    digits of the phone before the image metadata, and the first and last
    name put together. *)
Definition row_number {py : Python} (c : contact_row) : pystr :=
  normalize_phone_number (before_sep (or_empty (row_phone c)) X_IMAGETYPE).

Definition row_full_name (c : contact_row) : pystr :=
  join [SPACE] (filter nonempty [or_empty (row_first_name c);
                                 or_empty (row_last_name c)]).

(** The row is stored under the number [p]. *)
Definition stored_under {py : Python} (p : pystr) (c : contact_row) : bool :=
  str_eqb (row_number c) p && nonempty (strip (row_full_name c)).

(* ================================================================= *)
(** ** The group directory: the rows of [get_group_chats] *)

(** A row of the query of [get_group_chats]. *)
Record chat_row := {
  cr_rowid : Z;
  cr_room_name : option pystr;
  cr_display_name : option pystr;
  cr_chat_identifier : option pystr;
  cr_service_name : option pystr
}.

(** [f"{x}"] for an [x] that is a [str] or [None]. *)
Definition format_opt (o : option pystr) : pystr :=
  match o with Some s => s | None => lit "None" end.

(** The body of the loop over [cursor.fetchall()]: the row with its two
    AppleScript ids. *)
Definition chat_of_row (row : chat_row) : chat :=
  let service :=
    format_opt (py_or (cr_service_name row) (Some (lit "iMessage"))) in
  let chat_id := py_or (cr_chat_identifier row) (cr_room_name row) in
  {| chat_rowid := cr_rowid row;
     chat_room_name := cr_room_name row;
     chat_display_name := cr_display_name row;
     chat_chat_identifier := cr_chat_identifier row;
     chat_service_name := cr_service_name row;
     chat_applescript_id := service ++ lit ";+;" ++ format_opt chat_id;
     chat_applescript_id_alt := lit "any;+;" ++ format_opt chat_id |}.

(** [results] of [get_group_chats] for the rows fetched. *)
Definition group_chats_of_rows (rows : list chat_row) : group_chats :=
  Chats (List.map chat_of_row rows).

(** [WHERE room_name IS NOT NULL AND room_name != ''] *)
Definition has_room_name (row : chat_row) : bool := truthy (cr_room_name row).

(** A directory of two rows, the second without a display name, a chat
    identifier or a service. *)
Definition sample_chat_rows : list chat_row :=
  [ {| cr_rowid := 1; cr_room_name := Some (lit "chat100");
       cr_display_name := Some (lit "Book club");
       cr_chat_identifier := Some (lit "chat100");
       cr_service_name := Some (lit "iMessage") |};
    {| cr_rowid := 2; cr_room_name := Some (lit "chat200");
       cr_display_name := None;
       cr_chat_identifier := None;
       cr_service_name := None |} ].

(* ================================================================= *)
(** ** Message bodies: [extract_body_from_attributed] *)

(** The text after the first [sep] of [s]; with [before_sep], the first
    two elements of [s.split(sep)] are [before_sep s sep] and
    [before_sep (after_sep s sep) sep]. *)
Fixpoint after_sep (s sep : pystr) : pystr :=
  match s with
  | [] => []
  | _ :: r => if startswith s sep then skipn (List.length sep) s
              else after_sep r sep
  end.

(** [s[6:-12]] *)
Definition slice_6_12 (s : pystr) : pystr :=
  skipn 6 (firstn (List.length s - 12) s).

Definition NSNumber : pystr := lit "NSNumber".
Definition NSString : pystr := lit "NSString".
Definition NSDictionary : pystr := lit "NSDictionary".

(** The lines after [decode]. *)
Definition extract_body_from_decoded (decoded : pystr) : option pystr :=
  if has_sub decoded NSNumber then
    let decoded := before_sep decoded NSNumber in
    if has_sub decoded NSString then
      let decoded := before_sep (after_sep decoded NSString) NSString in
      if has_sub decoded NSDictionary then
        let decoded := before_sep decoded NSDictionary in
        Some (slice_6_12 decoded)
      else None
    else None
  else None.

Section AttributedBody.

(** [attributed_body.decode('utf-8', errors='replace')], which does not
    raise. *)
Variable decode : list Byte.byte -> pystr.

Definition extract_body_from_attributed
           (attributed_body : option (list Byte.byte)) : option pystr :=
  match attributed_body with
  | None => None
  | Some data => extract_body_from_decoded (decode data)
  end.

End AttributedBody.

(** [sep] does not occur in [s ++ sep] before the end: after [s] comes the
    first [sep] of [s ++ sep ++ t]. *)
Definition first_after (s sep : pystr) : Prop :=
  has_sub (s ++ removelast sep) sep = false.

(* ================================================================= *)
(** ** The transport: AppleScript through [osascript] *)

Definition QUOTE : char := 0x22%N.
Definition BACKSLASH : char := 0x5C%N.
Definition NEWLINE : char := 0x0A%N.

(** [s.replace(old, new)] for a one-character [old]. *)
Definition str_replace (old : char) (new s : pystr) : pystr :=
  flat_map (fun c => if char_eqb c old then new else [c]) s.

(** [s.replace('\\', '\\\\').replace('"', '\\"')], the escaping of
    [_send_message_to_recipient] and [_send_message_direct]. *)
Definition escape_backslash_quote (s : pystr) : pystr :=
  str_replace QUOTE [BACKSLASH; QUOTE]
              (str_replace BACKSLASH [BACKSLASH; BACKSLASH] s).

(** [s.replace('"', '\\"').replace('\\', '\\\\')], the escaping of the
    message in [_send_message_sms]. *)
Definition escape_quote_backslash (s : pystr) : pystr :=
  str_replace BACKSLASH [BACKSLASH; BACKSLASH]
              (str_replace QUOTE [BACKSLASH; QUOTE] s).

(** [s.replace('"', '\\"')], the escaping of the recipient in
    [_send_message_sms] and [_check_imessage_availability]. *)
Definition escape_quote (s : pystr) : pystr :=
  str_replace QUOTE [BACKSLASH; QUOTE] s.

(** The [command] of [_send_message_to_recipient] for one recipient. *)
Definition file_command (file_path safe_recipient : pystr) : pystr :=
  List.concat
    [ lit "tell application "; [QUOTE]; lit "Messages"; [QUOTE];
      lit " to send (read (POSIX file "; [QUOTE]; file_path; [QUOTE];
      lit ") as "; [0xAB%N]; lit "class utf8"; [0xBB%N];
      lit ") to participant "; [QUOTE]; safe_recipient; [QUOTE];
      lit " of (1st service whose service type = iMessage)" ].

(** The [command] of [_send_message_to_recipient] for a group chat. *)
Definition file_command_group (file_path safe_recipient : pystr) : pystr :=
  List.concat
    [ lit "tell application "; [QUOTE]; lit "Messages"; [QUOTE];
      lit " to send (read (POSIX file "; [QUOTE]; file_path; [QUOTE];
      lit ") as "; [0xAB%N]; lit "class utf8"; [0xBB%N]; lit ") to chat id ";
      [QUOTE]; safe_recipient; [QUOTE] ].

(** The [script] of [_check_imessage_availability]. *)
Definition availability_script (safe_recipient : pystr) : pystr :=
  List.concat
    [ [NEWLINE];
      lit "    tell application "; [QUOTE]; lit "Messages"; [QUOTE];
      [NEWLINE];
      lit "        try"; [NEWLINE];
      lit "            set targetService to 1st service whose ";
      lit "service type = iMessage"; [NEWLINE];
      lit "            set targetBuddy to buddy "; [QUOTE]; safe_recipient;
      [QUOTE]; lit " of targetService"; [NEWLINE];
      lit "            "; [NEWLINE];
      lit "            -- Check if buddy exists and has iMessage ";
      lit "capability"; [NEWLINE];
      lit "            if targetBuddy exists then"; [NEWLINE];
      lit "                return "; [QUOTE]; lit "true"; [QUOTE]; [NEWLINE];
      lit "            else"; [NEWLINE];
      lit "                return "; [QUOTE]; lit "false"; [QUOTE];
      [NEWLINE];
      lit "            end if"; [NEWLINE];
      lit "        on error"; [NEWLINE];
      lit "            return "; [QUOTE]; lit "false"; [QUOTE]; [NEWLINE];
      lit "        end try"; [NEWLINE];
      lit "    end tell"; [NEWLINE];
      lit "    " ].

(** The [script] of [_send_message_sms]. *)
Definition sms_script (safe_recipient safe_message : pystr) : pystr :=
  List.concat
    [ [NEWLINE];
      lit "    tell application "; [QUOTE]; lit "Messages"; [QUOTE];
      [NEWLINE];
      lit "        try"; [NEWLINE];
      lit "            -- Try to find SMS service"; [NEWLINE];
      lit "            set smsService to first account whose ";
      lit "service type = SMS and enabled is true"; [NEWLINE];
      lit "            "; [NEWLINE];
      lit "            -- Send message via SMS"; [NEWLINE];
      lit "            send "; [QUOTE]; safe_message; [QUOTE];
      lit " to participant "; [QUOTE]; safe_recipient; [QUOTE];
      lit " of smsService"; [NEWLINE];
      lit "            "; [NEWLINE];
      lit "            -- Wait briefly to check for immediate ";
      lit "errors"; [NEWLINE];
      lit "            delay 1"; [NEWLINE];
      lit "            "; [NEWLINE];
      lit "            return "; [QUOTE]; lit "success"; [QUOTE]; [NEWLINE];
      lit "        on error errMsg"; [NEWLINE];
      lit "            return "; [QUOTE]; lit "error:"; [QUOTE];
      lit " & errMsg"; [NEWLINE];
      lit "        end try"; [NEWLINE];
      lit "    end tell"; [NEWLINE];
      lit "    " ].

(** The [script] of [_send_message_direct] for a group chat. *)
Definition direct_group_script (safe_recipient safe_message : pystr) : pystr :=
  List.concat
    [ [NEWLINE];
      lit "        tell application "; [QUOTE]; lit "Messages"; [QUOTE];
      [NEWLINE];
      lit "            try"; [NEWLINE];
      lit "                -- Get the chat using full chat ID ";
      lit "format"; [NEWLINE];
      lit "                set targetChat to chat id "; [QUOTE];
      safe_recipient; [QUOTE]; [NEWLINE];
      [NEWLINE];
      lit "                -- Send the message"; [NEWLINE];
      lit "                send "; [QUOTE]; safe_message; [QUOTE];
      lit " to targetChat"; [NEWLINE];
      [NEWLINE];
      lit "                -- Wait briefly to check for immediate ";
      lit "errors"; [NEWLINE];
      lit "                delay 1"; [NEWLINE];
      [NEWLINE];
      lit "                -- Return success"; [NEWLINE];
      lit "                return "; [QUOTE]; lit "success"; [QUOTE];
      [NEWLINE];
      lit "            on error errMsg"; [NEWLINE];
      lit "                -- Chat method failed"; [NEWLINE];
      lit "                return "; [QUOTE]; lit "error:"; [QUOTE];
      lit " & errMsg"; [NEWLINE];
      lit "            end try"; [NEWLINE];
      lit "        end tell"; [NEWLINE];
      lit "        " ].

(** The [script] of [_send_message_direct] for one recipient. *)
Definition direct_script (safe_recipient safe_message : pystr) : pystr :=
  List.concat
    [ [NEWLINE];
      lit "    tell application "; [QUOTE]; lit "Messages"; [QUOTE];
      [NEWLINE];
      lit "        try"; [NEWLINE];
      lit "            -- First, try iMessage"; [NEWLINE];
      lit "            set targetService to 1st service whose ";
      lit "service type = iMessage"; [NEWLINE];
      lit "            "; [NEWLINE];
      lit "            try"; [NEWLINE];
      lit "                -- Try to get the existing participant ";
      lit "if possible"; [NEWLINE];
      lit "                set targetBuddy to participant "; [QUOTE];
      safe_recipient; [QUOTE]; lit " of targetService"; [NEWLINE];
      lit "                "; [NEWLINE];
      lit "                -- Send the message via iMessage"; [NEWLINE];
      lit "                send "; [QUOTE]; safe_message; [QUOTE];
      lit " to targetBuddy"; [NEWLINE];
      lit "                "; [NEWLINE];
      lit "                -- Wait briefly to check for immediate ";
      lit "errors"; [NEWLINE];
      lit "                delay 2"; [NEWLINE];
      lit "                "; [NEWLINE];
      lit "                -- Return success with service type"; [NEWLINE];
      lit "                return "; [QUOTE]; lit "success:iMessage";
      [QUOTE]; [NEWLINE];
      lit "            on error iMessageErr"; [NEWLINE];
      lit "                -- iMessage failed, try SMS fallback if ";
      lit "recipient looks like a phone number"; [NEWLINE];
      lit "                try"; [NEWLINE];
      lit "                    -- Check if recipient looks like a ";
      lit "phone number (contains digits)"; [NEWLINE];
      lit "                    if "; [QUOTE]; safe_recipient; [QUOTE];
      lit " contains "; [QUOTE]; lit "0"; [QUOTE]; lit " or "; [QUOTE];
      safe_recipient; [QUOTE]; lit " contains "; [QUOTE]; lit "1"; [QUOTE];
      lit " or "; [QUOTE]; safe_recipient; [QUOTE]; lit " contains ";
      [QUOTE]; lit "2"; [QUOTE]; lit " or "; [QUOTE]; safe_recipient;
      [QUOTE]; lit " contains "; [QUOTE]; lit "3"; [QUOTE]; lit " or ";
      [QUOTE]; safe_recipient; [QUOTE]; lit " contains "; [QUOTE]; lit "4";
      [QUOTE]; lit " or "; [QUOTE]; safe_recipient; [QUOTE];
      lit " contains "; [QUOTE]; lit "5"; [QUOTE]; lit " or "; [QUOTE];
      safe_recipient; [QUOTE]; lit " contains "; [QUOTE]; lit "6"; [QUOTE];
      lit " or "; [QUOTE]; safe_recipient; [QUOTE]; lit " contains ";
      [QUOTE]; lit "7"; [QUOTE]; lit " or "; [QUOTE]; safe_recipient;
      [QUOTE]; lit " contains "; [QUOTE]; lit "8"; [QUOTE]; lit " or ";
      [QUOTE]; safe_recipient; [QUOTE]; lit " contains "; [QUOTE]; lit "9";
      [QUOTE]; lit " then"; [NEWLINE];
      lit "                        -- Try SMS service"; [NEWLINE];
      lit "                        set smsService to first account ";
      lit "whose service type = SMS and enabled is true"; [NEWLINE];
      lit "                        send "; [QUOTE]; safe_message; [QUOTE];
      lit " to participant "; [QUOTE]; safe_recipient; [QUOTE];
      lit " of smsService"; [NEWLINE];
      lit "                        "; [NEWLINE];
      lit "                        -- Wait briefly to check for ";
      lit "immediate errors"; [NEWLINE];
      lit "                        delay 2"; [NEWLINE];
      lit "                        "; [NEWLINE];
      lit "                        return "; [QUOTE]; lit "success:SMS";
      [QUOTE]; [NEWLINE];
      lit "                    else"; [NEWLINE];
      lit "                        -- Not a phone number, can't ";
      lit "use SMS"; [NEWLINE];
      lit "                        return "; [QUOTE];
      lit "error:iMessage failed and SMS not available for email ";
      lit "addresses - "; [QUOTE]; lit " & iMessageErr"; [NEWLINE];
      lit "                    end if"; [NEWLINE];
      lit "                on error smsErr"; [NEWLINE];
      lit "                    -- Both iMessage and SMS failed"; [NEWLINE];
      lit "                    return "; [QUOTE];
      lit "error:Both iMessage and SMS failed - iMessage: "; [QUOTE];
      lit " & iMessageErr & "; [QUOTE]; lit " SMS: "; [QUOTE];
      lit " & smsErr"; [NEWLINE];
      lit "                end try"; [NEWLINE];
      lit "            end try"; [NEWLINE];
      lit "        on error generalErr"; [NEWLINE];
      lit "            return "; [QUOTE]; lit "error:"; [QUOTE];
      lit " & generalErr"; [NEWLINE];
      lit "        end try"; [NEWLINE];
      lit "    end tell"; [NEWLINE];
      lit "    " ].

(** What running [osascript] comes to: an exception, with its text, or the
    return code of the process with its decoded output and error output. *)
Inductive ran :=
| Raised (e : pystr)
| Exited (returncode : Z) (out err : pystr).

(** What a call of [run_applescript] comes to. *)
Inductive reply :=
| Raises (e : pystr)
| Returns (result : pystr).

(** The machine the transport runs on: [mkstemp] is
    [tempfile.mkstemp(suffix='.txt', prefix='imessage_')], [None] where it
    raises; [write_text] opens the descriptor and writes, [false] where that
    raises; [remove] is [os.remove], whose errors the code ignores;
    [osascript] runs [osascript -e script]. *)
Class Host := {
  Machine : Type;
  mkstemp : Machine -> option pystr * Machine;
  write_text : pystr -> pystr -> Machine -> bool * Machine;
  remove : pystr -> Machine -> Machine;
  osascript : pystr -> Machine -> ran * Machine
}.

(** [contact_name if contact_name else recipient] *)
Definition display_name_of (contact_name : option pystr) (recipient : pystr)
  : pystr :=
  if truthy contact_name then or_empty contact_name else recipient.

Module Transport.

Section Transport.
Context {py : Python} {host : Host}.

Definition run_applescript (script : pystr) (m : Machine) : reply * Machine :=
  match osascript script m with
  | (Raised e, m') => (Raises e, m')
  | (Exited returncode out err, m') =>
      if negb (returncode =? 0)%Z then (Returns (lit "Error: " ++ err), m')
      else (Returns (strip out), m')
  end.

Definition _check_imessage_availability (recipient : pystr) (m : Machine)
  : bool * Machine :=
  let safe_recipient := escape_quote recipient in
  let script := availability_script safe_recipient in
  match run_applescript script m with
  | (Raises _, m') => (false, m')
  | (Returns result, m') => (str_eqb (lower (strip result)) (lit "true"), m')
  end.

Definition _send_message_sms (recipient message : pystr)
           (contact_name : option pystr) (m : Machine) : pystr * Machine :=
  let safe_message := escape_quote_backslash message in
  let safe_recipient := escape_quote recipient in
  let script := sms_script safe_recipient safe_message in
  match run_applescript script m with
  | (Raises e, m') => (lit "Error sending SMS: " ++ e, m')
  | (Returns result, m') =>
      if startswith result (lit "error:")
      then (lit "Error sending SMS: " ++ skipn 6 result, m')
      else if str_eqb (strip result) (lit "success")
      then (lit "SMS sent successfully to "
              ++ display_name_of contact_name recipient, m')
      else (lit "Unknown SMS result: " ++ result, m')
  end.

Definition _send_message_direct (recipient message : pystr)
           (contact_name : option pystr) (group_chat : bool) (m : Machine)
  : pystr * Machine :=
  let safe_message := escape_backslash_quote message in
  let safe_recipient := escape_backslash_quote recipient in
  if group_chat then
    let script := direct_group_script safe_recipient safe_message in
    match run_applescript script m with
    | (Raises e, m') => (lit "Error sending group message: " ++ e, m')
    | (Returns result, m') =>
        if startswith result (lit "error:")
        then (lit "Error sending group message: " ++ skipn 6 result, m')
        else if str_eqb (strip result) (lit "success")
        then (lit "Group message sent successfully to "
                ++ display_name_of contact_name recipient, m')
        else (lit "Unknown group message result: " ++ result, m')
    end
  else
    let script := direct_script safe_recipient safe_message in
    match run_applescript script m with
    | (Raises e, m') => (lit "Error sending message: " ++ e, m')
    | (Returns result, m') =>
        let display_name := display_name_of contact_name recipient in
        if startswith result (lit "error:")
        then (lit "Error sending message: " ++ skipn 6 result, m')
        else if str_eqb (strip result) (lit "success:iMessage")
        then (lit "Message sent successfully via iMessage to "
                ++ display_name, m')
        else if str_eqb (strip result) (lit "success:SMS")
        then (lit "Message sent successfully via SMS to " ++ display_name
                ++ lit " (iMessage not available)", m')
        else if str_eqb (strip result) (lit "success")
        then (lit "Message sent successfully to " ++ display_name, m')
        else (lit "Unknown result: " ++ result, m')
    end.

Definition _send_message_to_recipient (recipient message : pystr)
           (contact_name : option pystr) (group_chat : bool) (m : Machine)
  : pystr * Machine :=
  match mkstemp m with
  | (None, m1) =>
      _send_message_direct recipient message contact_name group_chat m1
  | (Some file_path, m1) =>
      let (written, m2) := write_text file_path message m1 in
      if written then
        let safe_recipient := escape_backslash_quote recipient in
        let command :=
          if negb group_chat then file_command file_path safe_recipient
          else file_command_group file_path safe_recipient in
        let (result, m3) := run_applescript command m2 in
        let m4 := remove file_path m3 in
        match result with
        | Raises _ =>
            _send_message_direct recipient message contact_name group_chat m4
        | Returns result =>
            if startswith result (lit "Error:")
            then _send_message_direct recipient message contact_name
                                      group_chat m4
            else (lit "Message sent successfully to "
                    ++ display_name_of contact_name recipient, m4)
        end
      else
        _send_message_direct recipient message contact_name group_chat
                             (remove file_path m2)
  end.

End Transport.

End Transport.

(** The engine over this transport. *)
Definition host_messenger (host : Host) : Messenger :=
  {| World := Machine;
     _send_message_to_recipient := Transport._send_message_to_recipient |}.

(** A machine that replays a list of outcomes of [osascript], one per run,
    and keeps the scripts it was given. *)
Definition replaying_host : Host :=
  {| Machine := list ran * list pystr;
     mkstemp := fun m => (Some (lit "/tmp/imessage_k3x.txt"), m);
     write_text := fun file_path message m => (true, m);
     remove := fun file_path m => m;
     osascript := fun script m =>
       match fst m with
       | [] => (Raised (lit "no more runs"), (fst m, snd m ++ [script]))
       | r :: rest => (r, (rest, snd m ++ [script]))
       end |}.

(* ================================================================= *)
(** ** How a script is read: string literals and comments *)

(** Where the reader is: in the code, after one hyphen in the code, in a
    comment (from two hyphens to the end of the line), in a string literal,
    after a backslash in a string literal, or past a backslash that
    escapes nothing. The scripts of the code hold no other comment. *)
Inductive lex_mode :=
| InCode | AfterHyphen | InComment | InText | AfterBackslash | Broken.

(** The reader: the code read so far, in reverse, with the quotes but
    without what is between them; the literal being read; and the literals
    read, the last one first. *)
Record lexer := {
  lx_mode : lex_mode;
  lx_code : pystr;
  lx_current : pystr;
  lx_texts : list pystr
}.

(** The character a backslash and [c] stand for in a string literal. *)
Definition unescape (c : char) : option char :=
  if char_eqb c QUOTE then Some QUOTE
  else if char_eqb c BACKSLASH then Some BACKSLASH
  else if char_eqb c 0x6E%N then Some 0x0A%N
  else if char_eqb c 0x72%N then Some 0x0D%N
  else if char_eqb c 0x74%N then Some 0x09%N
  else None.

Definition lex_step (st : lexer) (c : char) : lexer :=
  match lx_mode st with
  | InCode | AfterHyphen =>
      {| lx_mode :=
           if char_eqb c QUOTE then InText
           else if char_eqb c HYPHEN
                then match lx_mode st with
                     | AfterHyphen => InComment
                     | _ => AfterHyphen
                     end
                else InCode;
         lx_code := c :: lx_code st;
         lx_current := [];
         lx_texts := lx_texts st |}
  | InComment =>
      {| lx_mode := if char_eqb c 0x0A%N || char_eqb c 0x0D%N then InCode
                    else InComment;
         lx_code := c :: lx_code st;
         lx_current := [];
         lx_texts := lx_texts st |}
  | InText =>
      if char_eqb c QUOTE
      then {| lx_mode := InCode;
              lx_code := c :: lx_code st;
              lx_current := [];
              lx_texts := lx_current st :: lx_texts st |}
      else if char_eqb c BACKSLASH
      then {| lx_mode := AfterBackslash;
              lx_code := lx_code st;
              lx_current := lx_current st;
              lx_texts := lx_texts st |}
      else {| lx_mode := InText;
              lx_code := lx_code st;
              lx_current := lx_current st ++ [c];
              lx_texts := lx_texts st |}
  | AfterBackslash =>
      match unescape c with
      | Some d => {| lx_mode := InText;
                     lx_code := lx_code st;
                     lx_current := lx_current st ++ [d];
                     lx_texts := lx_texts st |}
      | None => {| lx_mode := Broken;
                   lx_code := lx_code st;
                   lx_current := lx_current st;
                   lx_texts := lx_texts st |}
      end
  | Broken => st
  end.

Definition lex_start : lexer :=
  {| lx_mode := InCode; lx_code := []; lx_current := []; lx_texts := [] |}.

(** The code and the string literals of a script; [None] when the script
    ends inside a literal or an escape is wrong. *)
Definition lex (script : pystr) : option (pystr * list pystr) :=
  let st := fold_left lex_step script lex_start in
  match lx_mode st with
  | InCode | AfterHyphen | InComment =>
      Some (rev (lx_code st), rev (lx_texts st))
  | _ => None
  end.

(** The code of a script, without its string literals. *)
Definition skeleton (script : pystr) : pystr :=
  match lex script with Some (code, _) => code | None => [] end.

(** The string literals of the script of [_send_message_direct] for one
    recipient, in the order of the script. *)
Definition direct_texts (recipient message : pystr) : list pystr :=
  [lit "Messages"; recipient; message; lit "success:iMessage"]
  ++ flat_map (fun digit => [recipient; [digit]]) (lit "0123456789")
  ++ [message; recipient; lit "success:SMS";
      lit "error:iMessage failed and SMS not available for email addresses - ";
      lit "error:Both iMessage and SMS failed - iMessage: ";
      lit " SMS: "; lit "error:"].

(** A script as the pieces of its template: fixed text, and text that is
    escaped before it goes in. *)
Inductive part :=
| Fixed (text : pystr)
| Data (d : pystr).

Definition part_text (p : part) : pystr :=
  match p with
  | Fixed text => text
  | Data d => escape_backslash_quote d
  end.

(** The reader over the pieces: escaped text is taken in one step, and
    only inside a literal. *)
Fixpoint run_parts (parts : list part) (st : lexer) : option lexer :=
  match parts with
  | [] => Some st
  | Fixed text :: rest => run_parts rest (fold_left lex_step text st)
  | Data d :: rest =>
      match lx_mode st with
      | InText =>
          run_parts rest {| lx_mode := InText;
                            lx_code := lx_code st;
                            lx_current := lx_current st ++ d;
                            lx_texts := lx_texts st |}
      | _ => None
      end
  end.

(** The script [_send_message_direct] runs. *)
Definition direct_script_of (recipient message : pystr) (group_chat : bool)
  : pystr :=
  if group_chat
  then direct_group_script (escape_backslash_quote recipient)
                           (escape_backslash_quote message)
  else direct_script (escape_backslash_quote recipient)
                     (escape_backslash_quote message).

(** A machine on which every run of [osascript] fails, and which keeps the
    scripts it was given. *)
Definition failing_host : Host :=
  {| Machine := list pystr;
     mkstemp := fun m => (Some (lit "/tmp/imessage_k3x.txt"), m);
     write_text := fun file_path message m => (true, m);
     remove := fun file_path m => m;
     osascript := fun script m =>
       (Exited 1 [] (lit "execution error"), m ++ [script]) |}.

(** A message and a recipient that leave their string literal. *)
Definition breaking_message : pystr :=
  [QUOTE] ++ lit " --" ++ [NEWLINE] ++ lit "on error" ++ [NEWLINE]
  ++ lit "end try" ++ [NEWLINE] ++ lit "do shell script (the clipboard)"
  ++ [NEWLINE] ++ lit "try --".

Definition breaking_recipient : pystr := BACKSLASH :: breaking_message.

(* ================================================================= *)
(** ** [fuzzy_search_messages] *)

(** [thefuzz]: [WRatio] is an [int] from 0 to 100. *)
Class Fuzz := {
  WRatio : pystr -> pystr -> Z;
  WRatio_range :
    forall a b, ((0 <=? WRatio a b) && (WRatio a b <=? 100))%Z = true
}.

(** A row of the query of [fuzzy_search_messages], with the columns the
    search reads. *)
Record message_row := {
  m_rowid : Z;
  m_text : option pystr;
  m_attributedBody : option (list Byte.byte)
}.

(** What [query_messages_db] returns: the rows, or the one-element list
    whose dict has the key ["error"]. *)
Inductive messages_read :=
| MessageRows (rows : list message_row)
| MessagesError (error : pystr).

(** The ends of [fuzzy_search_messages], one per [return]; [Found] stands
    for the last one, which formats the matches it is given. *)
Inductive search_result :=
| TermEmpty
| SearchHoursNegative
| SearchHoursTooLarge
| ThresholdOutOfRange
| NoMessagesToSearch
| AccessError (error : pystr)
| NoContent
| NoMatch
| Found (matches : list (pystr * message_row * float)).

(** An [int] as the operand of a comparison with a [float] or of a true
    division; exact below [2^53]. *)
Definition float_of_int (z : Z) : float :=
  PrimFloat.of_uint63 (Uint63.of_Z z).

Section FuzzySearch.
Context {py : Python} {fz : Fuzz}.
Variable decode : list Byte.byte -> pystr.
Local Open Scope float_scope.

(** [msg_dict.get("text") or extract_body_from_attributed(...)] *)
Definition message_body (msg : message_row) : option pystr :=
  py_or (m_text msg)
        (extract_body_from_attributed decode (m_attributedBody msg)).

(** The loop that fills [message_candidates]. *)
Definition message_candidates (raw_messages : list message_row)
  : list (pystr * message_row) :=
  flat_map (fun msg_dict =>
              match message_body msg_dict with
              | Some body =>
                  if nonempty body && nonempty (strip body)
                  then [(body, msg_dict)] else []
              | None => []
              end) raw_messages.

(** [fuzz.WRatio(cleaned_search_term, cleaned_candidate_text)] *)
Definition message_score (search_term body : pystr) : Z :=
  WRatio (lower (clean_name search_term)) (lower (clean_name body)).

(** The loop that fills [matched_messages_with_scores]. *)
Definition matched_messages (search_term : pystr) (threshold : float)
           (candidates : list (pystr * message_row))
  : list (pystr * message_row * float) :=
  let scaled_threshold := threshold * 100 in
  flat_map (fun c =>
              let score_from_thefuzz := message_score search_term (fst c) in
              if scaled_threshold <=? float_of_int score_from_thefuzz
              then [(fst c, snd c, float_of_int score_from_thefuzz / 100.0)]
              else []) candidates.

Definition fuzzy_search_messages (search_term : pystr) (hours : Z)
           (threshold : float) (raw_messages : messages_read)
  : search_result :=
  if negb (nonempty search_term) || negb (nonempty (strip search_term))
  then TermEmpty
  else if (hours <? 0)%Z then SearchHoursNegative
  else if (MAX_HOURS <? hours)%Z then SearchHoursTooLarge
  else if negb ((0.0 <=? threshold) && (threshold <=? 1.0))
  then ThresholdOutOfRange
  else
    match raw_messages with
    | MessageRows [] => NoMessagesToSearch
    | MessagesError error => AccessError error
    | MessageRows raw_messages =>
        match message_candidates raw_messages with
        | [] => NoContent
        | candidates =>
            match sorted_desc snd
                    (matched_messages search_term threshold candidates) with
            | [] => NoMatch
            | matched => Found matched
            end
        end
    end.

End FuzzySearch.

(** A scorer for examples: 100 for equal texts, 55 for a text that holds
    the term, 0 otherwise. *)
#[export] Instance sample_fuzz : Fuzz := {|
  WRatio := fun a b =>
    if str_eqb a b then 100%Z else if has_sub b a then 55%Z else 0%Z;
  WRatio_range := fun a b =>
    match str_eqb a b as x
          return ((0 <=? (if x then 100 else if has_sub b a then 55 else 0))
                  && ((if x then 100 else if has_sub b a then 55 else 0)
                      <=? 100))%Z = true
    with
    | true => eq_refl
    | false =>
        match has_sub b a as y
              return ((0 <=? (if y then 55 else 0))
                      && ((if y then 55 else 0) <=? 100))%Z = true
        with
        | true => eq_refl
        | false => eq_refl
        end
    end
|}.

(** Three messages: one that holds the term, one without text, and one
    that is the term. *)
Definition sample_messages : list message_row :=
  [ {| m_rowid := 1; m_text := Some (lit "see you at lunch");
       m_attributedBody := None |};
    {| m_rowid := 2; m_text := None; m_attributedBody := None |};
    {| m_rowid := 3; m_text := Some (lit "Lunch");
       m_attributedBody := None |} ].

(** The value under the first of [keys] that [contacts] holds. *)
Fixpoint first_found (contacts : dict pystr) (keys : list pystr)
  : option pystr :=
  match keys with
  | [] => None
  | k :: rest =>
      match dict_get contacts k with
      | Some name => Some name
      | None => first_found contacts rest
      end
  end.

(* ================================================================= *)
(** * Proofs *)

(* ================================================================= *)
(** ** Facts about strings *)

Lemma str_eqb_eq (a b : pystr) : str_eqb a b = true <-> a = b.
Proof.
  revert b; induction a as [|x a IH]; intros [|y b]; simpl; split;
    try congruence; try reflexivity.
  - intros H. apply andb_true_iff in H as [Hx Hr].
    apply N.eqb_eq in Hx. apply IH in Hr. congruence.
  - intros H. injection H as -> ->. apply andb_true_iff. split.
    + apply N.eqb_refl.
    + now apply IH.
Qed.

Lemma str_eqb_refl (a : pystr) : str_eqb a a = true.
Proof. now apply str_eqb_eq. Qed.

Lemma str_eqb_neq (a b : pystr) : str_eqb a b = false <-> a <> b.
Proof.
  split.
  - intros H E. apply str_eqb_eq in E. congruence.
  - intros H. destruct (str_eqb a b) eqn:E; [|reflexivity].
    apply str_eqb_eq in E. contradiction.
Qed.


Lemma filter_id (A : Type) (p : A -> bool) (l : list A) :
  (forall x, In x l -> p x = true) -> filter p l = l.
Proof.
  induction l as [|x l IH]; simpl; intros H; [reflexivity|].
  rewrite (H x (or_introl eq_refl)). f_equal. apply IH. auto.
Qed.

Lemma dropwhile_suffix (p : char -> bool) (s : pystr) :
  exists t, s = t ++ dropwhile p s.
Proof.
  induction s as [|c r [t Ht]]; simpl.
  - now exists [].
  - destruct (p c).
    + exists (c :: t). simpl. now f_equal.
    + now exists [].
Qed.

Lemma dropwhile_app_stop (p : char -> bool) (l m : pystr) (c : char) :
  p c = false -> dropwhile p (l ++ c :: m) = dropwhile p l ++ c :: m.
Proof.
  intros Hc. induction l as [|x l IH]; simpl.
  - now rewrite Hc.
  - destruct (p x); auto.
Qed.

Lemma dropwhile_no_lead (s : pystr) : no_lead (dropwhile is_space s).
Proof.
  induction s as [|c r IH]; simpl; [exact I|].
  destruct (is_space c) eqn:E; simpl; auto.
Qed.

Lemma dropwhile_fix (s : pystr) : no_lead s -> dropwhile is_space s = s.
Proof. destruct s as [|c r]; simpl; [reflexivity|]. now intros ->. Qed.

Lemma rstrip_prefix (s : pystr) : exists t, s = rstrip s ++ t.
Proof.
  unfold rstrip. destruct (dropwhile_suffix is_space (rev s)) as [t Ht].
  exists (rev t). rewrite <- rev_app_distr, <- Ht. now rewrite rev_involutive.
Qed.

Lemma rstrip_no_lead (s : pystr) : no_lead s -> no_lead (rstrip s).
Proof.
  destruct s as [|c r]; simpl; [intros _; exact I|].
  intros Hc. unfold rstrip. simpl rev.
  rewrite dropwhile_app_stop by assumption.
  rewrite rev_app_distr. simpl. exact Hc.
Qed.

Lemma rstrip_fix (s : pystr) : no_lead (rev s) -> rstrip s = s.
Proof.
  intros H. unfold rstrip. rewrite dropwhile_fix by assumption.
  apply rev_involutive.
Qed.

Lemma strip_no_lead (s : pystr) : no_lead (strip s).
Proof. apply rstrip_no_lead, dropwhile_no_lead. Qed.

Lemma strip_no_trail (s : pystr) : no_lead (rev (strip s)).
Proof.
  unfold strip, rstrip. rewrite rev_involutive. apply dropwhile_no_lead.
Qed.

Lemma strip_fix (s : pystr) : no_lead s -> no_lead (rev s) -> strip s = s.
Proof.
  intros H1 H2. unfold strip, lstrip. rewrite dropwhile_fix by assumption.
  now apply rstrip_fix.
Qed.

Lemma strip_idempotent (s : pystr) : strip (strip s) = strip s.
Proof. apply strip_fix; [apply strip_no_lead | apply strip_no_trail]. Qed.

Lemma In_strip (c : char) (s : pystr) : In c (strip s) -> In c s.
Proof.
  unfold strip, lstrip. intros H.
  destruct (dropwhile_suffix is_space s) as [t Ht].
  destruct (rstrip_prefix (dropwhile is_space s)) as [u Hu].
  rewrite Ht, Hu. apply in_or_app. right. apply in_or_app. now left.
Qed.

Lemma sub_space_runs_single_spaced (b : bool) (s : pystr) :
  single_spaced b (sub_space_runs b s) = true.
Proof.
  revert b. induction s as [|c r IH]; intros b; simpl; [reflexivity|].
  destruct (is_space c) eqn:E.
  - destruct b; [apply IH|]. simpl. apply IH.
  - simpl. rewrite E. apply IH.
Qed.

Lemma single_spaced_fix (b : bool) (s : pystr) :
  single_spaced b s = true -> sub_space_runs b s = s.
Proof.
  revert b. induction s as [|c r IH]; intros b; simpl; [reflexivity|].
  destruct (is_space c) eqn:E.
  - intros H. apply andb_true_iff in H as [H Hr].
    apply andb_true_iff in H as [Hc Hb].
    apply N.eqb_eq in Hc. destruct b; [discriminate|].
    rewrite (IH true Hr). now subst c.
  - intros H. now rewrite (IH false H).
Qed.

Lemma single_spaced_weaken (s : pystr) :
  single_spaced true s = true -> single_spaced false s = true.
Proof.
  destruct s as [|c r]; simpl; [reflexivity|].
  destruct (is_space c); [|auto].
  rewrite andb_false_r. discriminate.
Qed.

Lemma single_spaced_prefix (b : bool) (l m : pystr) :
  single_spaced b (l ++ m) = true -> single_spaced b l = true.
Proof.
  revert b. induction l as [|c r IH]; intros b; simpl; [reflexivity|].
  destruct (is_space c).
  - intros H. apply andb_true_iff in H as [H Hr]. rewrite H. simpl.
    now apply IH.
  - apply IH.
Qed.

Lemma single_spaced_lstrip (b : bool) (s : pystr) :
  single_spaced b s = true -> single_spaced false (lstrip s) = true.
Proof.
  unfold lstrip. destruct s as [|c r]; simpl; [reflexivity|].
  destruct (is_space c) eqn:E.
  - intros H. apply andb_true_iff in H as [_ Hr].
    destruct r as [|d r']; simpl in *; [reflexivity|].
    destruct (is_space d) eqn:Ed.
    + rewrite andb_false_r in Hr. discriminate.
    + simpl. now rewrite Ed.
  - intros H. simpl. now rewrite E.
Qed.

Lemma single_spaced_strip (s : pystr) :
  single_spaced false s = true -> single_spaced false (strip s) = true.
Proof.
  intros H. unfold strip.
  destruct (rstrip_prefix (lstrip s)) as [t Ht].
  apply single_spaced_prefix with (m := t). rewrite <- Ht.
  now apply single_spaced_lstrip with (b := false).
Qed.

Lemma In_sub_space_runs (b : bool) (c : char) (s : pystr) :
  In c (sub_space_runs b s) -> c = SPACE \/ In c s.
Proof.
  revert b. induction s as [|d r IH]; intros b; simpl; [tauto|].
  destruct (is_space d).
  - destruct b; simpl.
    + intros H. destruct (IH _ H); auto.
    + intros [H|H]; [now left|]. destruct (IH _ H); auto.
  - simpl. intros [H|H]; [auto|]. destruct (IH _ H); auto.
Qed.

(* ================================================================= *)
(** ** The order of binary64 *)

Section FloatOrder.
Local Open Scope float_scope.

Ltac cmp_cases :=
  repeat match goal with
  | |- context [Z.compare ?a ?b] => destruct (Z.compare_spec a b)
  | H : context [Z.compare ?a ?b] |- _ => destruct (Z.compare_spec a b)
  | |- context [Pos.compare_cont Eq ?a ?b] =>
      change (Pos.compare_cont Eq a b) with (Pos.compare a b);
      destruct (Pos.compare_spec a b)
  | H : context [Pos.compare_cont Eq ?a ?b] |- _ =>
      change (Pos.compare_cont Eq a b) with (Pos.compare a b) in H;
      destruct (Pos.compare_spec a b)
  end.

Ltac sf_cases :=
  intros; unfold SFltb, SFleb, SFeqb, SFcompare in *;
  repeat match goal with
  | x : spec_float |- _ => destruct x
  | b : bool |- _ => destruct b
  end;
  simpl in *; try congruence; try reflexivity;
  cmp_cases; simpl in *; subst; try congruence; try reflexivity; try lia.

Lemma SFltb_irrefl (x : spec_float) : SFltb x x = false.
Proof. sf_cases. Qed.

Lemma SFltb_trans (x y z : spec_float) :
  SFltb x y = true -> SFltb y z = true -> SFltb x z = true.
Proof. sf_cases. Qed.

Lemma SFltb_negtrans (x y z : spec_float) :
  y <> S754_nan ->
  SFltb x y = false -> SFltb y z = false -> SFltb x z = false.
Proof. sf_cases. Qed.

Lemma SFleb_ltb (x y : spec_float) :
  x <> S754_nan -> y <> S754_nan -> SFleb x y = negb (SFltb y x).
Proof. sf_cases. Qed.

Lemma SFeqb_ltb (x y : spec_float) :
  x <> S754_nan -> y <> S754_nan ->
  SFeqb x y = negb (SFltb x y) && negb (SFltb y x).
Proof. sf_cases. Qed.

Lemma SFeqb_refl_iff (x : spec_float) : SFeqb x x = true <-> x <> S754_nan.
Proof.
  split.
  - intros H E. subst x. discriminate.
  - revert x. sf_cases.
Qed.

Lemma SFltb_not_nan_l (x y : spec_float) : SFltb x y = true -> x <> S754_nan.
Proof. sf_cases. Qed.

Lemma SFltb_not_nan_r (x y : spec_float) : SFltb x y = true -> y <> S754_nan.
Proof. sf_cases. Qed.

Lemma SFleb_not_nan_l (x y : spec_float) : SFleb x y = true -> x <> S754_nan.
Proof. sf_cases. Qed.

Lemma SFleb_not_nan_r (x y : spec_float) : SFleb x y = true -> y <> S754_nan.
Proof. sf_cases. Qed.

Lemma is_number_spec (x : float) :
  is_number x = true <-> Prim2SF x <> S754_nan.
Proof. unfold is_number. rewrite eqb_spec. apply SFeqb_refl_iff. Qed.

Lemma ltb_irrefl (x : float) : (x <? x) = false.
Proof. rewrite ltb_spec. apply SFltb_irrefl. Qed.

Lemma ltb_trans (x y z : float) :
  (x <? y) = true -> (y <? z) = true -> (x <? z) = true.
Proof. rewrite !ltb_spec. apply SFltb_trans. Qed.

Lemma ltb_negtrans (x y z : float) :
  is_number y = true ->
  (x <? y) = false -> (y <? z) = false -> (x <? z) = false.
Proof.
  rewrite is_number_spec, !ltb_spec. apply SFltb_negtrans.
Qed.

Lemma leb_ltb (x y : float) :
  is_number x = true -> is_number y = true -> (x <=? y) = negb (y <? x).
Proof.
  rewrite !is_number_spec, leb_spec, ltb_spec. apply SFleb_ltb.
Qed.

Lemma eqb_ltb (x y : float) :
  is_number x = true -> is_number y = true ->
  (x =? y) = negb (x <? y) && negb (y <? x).
Proof.
  rewrite !is_number_spec, eqb_spec, !ltb_spec. apply SFeqb_ltb.
Qed.

Lemma ltb_number_l (x y : float) : (x <? y) = true -> is_number x = true.
Proof. rewrite is_number_spec, ltb_spec. apply SFltb_not_nan_l. Qed.

Lemma ltb_number_r (x y : float) : (x <? y) = true -> is_number y = true.
Proof. rewrite is_number_spec, ltb_spec. apply SFltb_not_nan_r. Qed.

Lemma leb_number_l (x y : float) : (x <=? y) = true -> is_number x = true.
Proof. rewrite is_number_spec, leb_spec. apply SFleb_not_nan_l. Qed.

Lemma leb_number_r (x y : float) : (x <=? y) = true -> is_number y = true.
Proof. rewrite is_number_spec, leb_spec. apply SFleb_not_nan_r. Qed.

(** [pymax] never turns a number into a NaN. *)
Lemma pymax_number (a b : float) :
  is_number a = true -> is_number (pymax a b) = true.
Proof.
  intros Ha. unfold pymax. destruct (a <? b) eqn:E; [|exact Ha].
  now apply ltb_number_r in E.
Qed.

Lemma pymax_not_below_l (a b : float) : (pymax a b <? a) = false.
Proof.
  unfold pymax. destruct (a <? b) eqn:E; [|apply ltb_irrefl].
  destruct (b <? a) eqn:E'; [|reflexivity].
  pose proof (ltb_trans E E') as H. rewrite ltb_irrefl in H.
  discriminate.
Qed.

Lemma pymax_not_below_r (a b : float) : (pymax a b <? b) = false.
Proof.
  unfold pymax. destruct (a <? b) eqn:E; [apply ltb_irrefl | exact E].
Qed.

Lemma eqb_tie (x y s : float) :
  (x =? s) = true -> (y =? s) = true -> (x <? y) = false.
Proof.
  rewrite !eqb_spec, ltb_spec.
  generalize (Prim2SF x) (Prim2SF y) (Prim2SF s). clear.
  intros a b c; unfold SFltb, SFeqb, SFcompare;
    destruct a as [| [|] | | [|] ? ?], b as [| [|] | | [|] ? ?],
             c as [| [|] | | [|] ? ?];
    simpl; try congruence; try reflexivity;
    repeat match goal with
    | |- context [Z.compare ?a ?b] => destruct (Z.compare_spec a b)
    | |- context [Pos.compare_cont Eq ?a ?b] =>
        change (Pos.compare_cont Eq a b) with (Pos.compare a b);
        destruct (Pos.compare_spec a b)
    end; simpl; subst; try congruence; try reflexivity; try lia.
Qed.

Lemma leb_true_ltb (x y : float) : (x <=? y) = true -> (y <? x) = false.
Proof.
  intros H. pose proof (leb_number_l H) as Hx.
  pose proof (leb_number_r H) as Hy.
  rewrite (leb_ltb Hx Hy) in H. now apply negb_true_iff in H.
Qed.

Lemma ltb_false_leb (x y : float) :
  is_number x = true -> is_number y = true ->
  (y <? x) = false -> (x <=? y) = true.
Proof. intros Hx Hy H. rewrite (leb_ltb Hx Hy), H. reflexivity. Qed.

Lemma ltb_true_leb (x y : float) : (x <? y) = true -> (x <=? y) = true.
Proof.
  intros H. apply ltb_false_leb.
  - exact (ltb_number_l H).
  - exact (ltb_number_r H).
  - destruct (y <? x) eqn:E; [|reflexivity].
    pose proof (ltb_trans H E) as F. rewrite ltb_irrefl in F. discriminate.
Qed.

Lemma leb_trans (x y z : float) :
  (x <=? y) = true -> (y <=? z) = true -> (x <=? z) = true.
Proof.
  intros H1 H2. apply ltb_false_leb.
  - exact (leb_number_l H1).
  - exact (leb_number_r H2).
  - apply ltb_negtrans with (y := y).
    + exact (leb_number_r H1).
    + now apply leb_true_ltb.
    + now apply leb_true_ltb.
Qed.

End FloatOrder.

(* ================================================================= *)
(** ** [clean_name] *)

Section CleanNameFacts.
Context {py : Python}.

Lemma space_kept : kept SPACE = true.
Proof. unfold kept. now rewrite orb_true_r. Qed.

(** Every character of a cleaned name passed both substitutions. *)
Lemma clean_name_chars (x : pystr) (c : char) :
  In c (clean_name x) -> kept c = true /\ in_emoji_pattern c = false.
Proof.
  unfold clean_name. intros H. apply In_strip in H.
  apply In_sub_space_runs in H as [->|H].
  - split; [apply space_kept | reflexivity].
  - apply filter_In in H as [H Hk]. apply filter_In in H as [_ He].
    split; [exact Hk | now apply negb_true_iff].
Qed.

Lemma clean_name_single_spaced (x : pystr) :
  single_spaced false (clean_name x) = true.
Proof. apply single_spaced_strip, sub_space_runs_single_spaced. Qed.

(** A string in the shape [clean_name] produces is left as it is. *)
Lemma clean_name_fix (y : pystr) :
  (forall c, In c y -> kept c = true /\ in_emoji_pattern c = false) ->
  single_spaced false y = true -> no_lead y -> no_lead (rev y) ->
  clean_name y = y.
Proof.
  intros Hc Hs Hl Ht. unfold clean_name.
  rewrite (filter_id (fun c => negb (in_emoji_pattern c)) y).
  - rewrite (filter_id kept y) by (intros c Hin; now apply Hc).
    rewrite single_spaced_fix by assumption. now apply strip_fix.
  - intros c Hin. apply negb_true_iff. now apply Hc.
Qed.

Lemma clean_name_idempotent (x : pystr) :
  clean_name (clean_name x) = clean_name x.
Proof.
  apply clean_name_fix.
  - apply clean_name_chars.
  - apply clean_name_single_spaced.
  - apply strip_no_lead.
  - apply strip_no_trail.
Qed.

End CleanNameFacts.

(* ================================================================= *)
(** ** Sorting by score *)

Section Sorting.
Local Open Scope float_scope.
Variable A : Type.
Variable key : A -> float.

Lemma insert_desc_perm (x : A) (l : list A) :
  Permutation (x :: l) (insert_desc key x l).
Proof.
  induction l as [|y l IH]; simpl; [reflexivity|].
  destruct (key x <? key y); [|reflexivity].
  rewrite perm_swap. now apply perm_skip.
Qed.

Lemma sorted_desc_perm (l : list A) : Permutation l (sorted_desc key l).
Proof.
  induction l as [|x l IH]; simpl; [reflexivity|].
  rewrite <- insert_desc_perm. now apply perm_skip.
Qed.

Lemma In_sorted_desc (x : A) (l : list A) :
  In x (sorted_desc key l) <-> In x l.
Proof.
  split; apply Permutation_in;
    [symmetry|]; apply sorted_desc_perm.
Qed.

Lemma insert_desc_descending (x : A) (l : list A) :
  is_number (key x) = true ->
  Forall (fun y => is_number (key y) = true) l ->
  descending key l -> descending key (insert_desc key x l).
Proof.
  intros Hx Hn Hd. induction Hd as [|y l Hd IH Hy]; simpl.
  - repeat constructor.
  - inversion Hn as [|? ? Hny Hnl]; subst.
    destruct (key x <? key y) eqn:E.
    + constructor; [now apply IH|].
      apply Forall_forall. intros b Hb.
      apply (Permutation_in _ (Permutation_sym (insert_desc_perm x l))) in Hb.
      destruct Hb as [<-|Hb].
      * now apply ltb_true_leb.
      * rewrite Forall_forall in Hy. now apply Hy.
    + constructor; [now constructor|].
      assert (Hyx : (key y <=? key x) = true) by now apply ltb_false_leb.
      constructor; [exact Hyx|].
      apply Forall_forall. intros b Hb. rewrite Forall_forall in Hy.
      apply leb_trans with (y := key y); auto.
Qed.

Lemma sorted_desc_descending (l : list A) :
  Forall (fun y => is_number (key y) = true) l ->
  descending key (sorted_desc key l).
Proof.
  induction l as [|x l IH]; simpl; intros Hn.
  - constructor.
  - inversion Hn as [|? ? Hx Hl]; subst. apply insert_desc_descending.
    + exact Hx.
    + apply Forall_forall. intros y Hy.
      apply (proj1 (In_sorted_desc y l)) in Hy.
      rewrite Forall_forall in Hl. auto.
    + now apply IH.
Qed.

(** The sort is stable: the elements of one tie class keep their order. *)
Lemma sorted_desc_stable (p : A -> bool) (l : list A) :
  (forall x y, p x = true -> p y = true -> (key x <? key y) = false) ->
  filter p (sorted_desc key l) = filter p l.
Proof.
  intros Hp. induction l as [|x l IH]; simpl; [reflexivity|].
  rewrite <- IH. generalize (sorted_desc key l). clear IH.
  intros m. induction m as [|y m IHm]; simpl; [reflexivity|].
  destruct (key x <? key y) eqn:E; [|reflexivity].
  simpl. rewrite IHm. simpl.
  destruct (p x) eqn:Px, (p y) eqn:Py; try reflexivity.
  rewrite (Hp x y Px Py) in E. discriminate.
Qed.

Lemma sorted_desc_fix (l : list A) :
  descending key l -> sorted_desc key l = l.
Proof.
  induction 1 as [|x l Hd IH Hx]; simpl; [reflexivity|].
  rewrite IH. destruct l as [|y l']; simpl; [reflexivity|].
  inversion Hx as [|? ? Hyx _]; subst.
  now rewrite (leb_true_ltb Hyx).
Qed.

Lemma subseq_In (l1 l2 : list A) (x : A) :
  subseq l1 l2 -> In x l1 -> In x l2.
Proof.
  induction 1; simpl; intros Hin; auto.
  destruct Hin; auto.
Qed.

Lemma subseq_descending (l1 l2 : list A) :
  subseq l1 l2 -> descending key l2 -> descending key l1.
Proof.
  induction 1 as [|x l1 l2 Hs IH|x l1 l2 Hs IH]; intros Hd.
  - constructor.
  - inversion Hd; subst. auto.
  - inversion Hd as [|? ? Hd' Hx]; subst.
    constructor; [apply IH; exact Hd'|].
    apply Forall_forall. intros y Hy. rewrite Forall_forall in Hx.
    apply Hx. eapply subseq_In; eauto.
Qed.

Lemma subseq_refl (l : list A) : subseq l l.
Proof. induction l; [apply subseq_nil | now apply subseq_take]. Qed.

End Sorting.

Lemma subseq_map (A B : Type) (f : A -> B) (l1 l2 : list A) :
  subseq l1 l2 -> subseq (List.map f l1) (List.map f l2).
Proof.
  induction 1; simpl;
    [apply subseq_nil | now apply subseq_skip | now apply subseq_take].
Qed.

(* ================================================================= *)
(** ** [fuzzy_match] *)

Section FuzzyFacts.
Context {py : Python}.
Local Open Scope float_scope.

(** The running maximum never goes down. *)
Lemma fold_pymax_from (xs : list float) (b : float) :
  fold_left pymax xs b = b \/ (b <? fold_left pymax xs b) = true.
Proof.
  revert b. induction xs as [|x xs IH]; intros b; simpl; [now left|].
  destruct (IH (pymax b x)) as [E|L].
  - rewrite E. unfold pymax. destruct (b <? x) eqn:Ebx; auto.
  - unfold pymax in *. destruct (b <? x) eqn:Ebx; auto.
    right. eapply ltb_trans; eauto.
Qed.

Lemma not_below_from (a m x : float) :
  m = a \/ (a <? m) = true -> (a <? x) = false -> (m <? x) = false.
Proof.
  intros [->|L] H; [exact H|].
  destruct (m <? x) eqn:E; [|reflexivity].
  rewrite (ltb_trans L E) in H. discriminate.
Qed.

Lemma fold_pymax_in (xs : list float) (b : float) :
  In (fold_left pymax xs b) (b :: xs).
Proof.
  revert b. induction xs as [|x xs IH]; intros b; simpl; [now left|].
  destruct (IH (pymax b x)) as [E|H].
  - rewrite <- E. unfold pymax. destruct (b <? x); auto.
  - auto.
Qed.

Lemma fold_pymax_upper (xs : list float) (b x : float) :
  In x xs -> (fold_left pymax xs b <? x) = false.
Proof.
  revert b. induction xs as [|y xs IH]; intros b; simpl; [tauto|].
  intros [->|Hin]; [|now apply IH].
  apply not_below_from with (a := pymax b x).
  - apply fold_pymax_from.
  - apply pymax_not_below_r.
Qed.

Lemma fold_pymax_number (xs : list float) (b : float) :
  is_number b = true -> is_number (fold_left pymax xs b) = true.
Proof.
  revert b. induction xs as [|x xs IH]; intros b Hb; simpl; [exact Hb|].
  apply IH. now apply pymax_number.
Qed.

Lemma best_over_tokens_fold (query : pystr) (tokens : list pystr) :
  best_over_tokens query tokens
  = fold_left pymax (List.map (token_score query) tokens) 0.0.
Proof.
  unfold best_over_tokens. generalize 0.0.
  induction tokens as [|t ts IH]; intros b; simpl; [reflexivity|].
  apply IH.
Qed.

(** The four rules of a token, first that applies. *)
Lemma token_score_rules (query token : pystr) :
  (query = token -> token_score query token = 0.95)
  /\ (query <> token -> startswith token query = true ->
      token_score query token = 0.85 * (len query / len token))
  /\ (query <> token -> startswith token query = false ->
      startswith query token = true ->
      token_score query token = 0.80 * (len token / len query))
  /\ (query <> token -> startswith token query = false ->
      startswith query token = false ->
      token_score query token = ratio query token).
Proof.
  unfold token_score. repeat split.
  - intros ->. now rewrite str_eqb_refl.
  - intros Hn H. apply str_eqb_neq in Hn. now rewrite Hn, H.
  - intros Hn H1 H2. apply str_eqb_neq in Hn. now rewrite Hn, H1, H2.
  - intros Hn H1 H2. apply str_eqb_neq in Hn. now rewrite Hn, H1, H2.
Qed.

Lemma candidate_score_max (query label : pystr) (threshold : float) :
  is_max_of (candidate_score query label threshold)
            (match_rules query label threshold).
Proof.
  unfold candidate_score, match_rules, best_score, tries_full_name.
  destruct (str_eqb query label).
  - split; [right; now left|].
    intros x [<-|[]]. apply ltb_irrefl.
  - rewrite best_over_tokens_fold.
    set (per_token := List.map (token_score query) (split_ws label)).
    set (best := fold_left pymax per_token 0.0).
    destruct (contains SPACE query || (best <? threshold)).
    + split.
      * unfold pymax. destruct (best <? ratio query label).
        -- right. apply in_or_app. right. now left.
        -- destruct (fold_pymax_in per_token 0.0) as [E|H].
           ++ left. exact E.
           ++ right. apply in_or_app. now left.
      * intros x Hx. apply in_app_or in Hx as [Hx|[<-|[]]].
        -- apply not_below_from with (a := best).
           ++ unfold pymax. destruct (best <? ratio query label) eqn:E; auto.
           ++ now apply fold_pymax_upper.
        -- apply pymax_not_below_r.
    + rewrite app_nil_r. split.
      * apply fold_pymax_in.
      * intros x Hx. now apply fold_pymax_upper.
Qed.

Lemma best_score_number (query label : pystr) (threshold : float) :
  is_number (best_score query label threshold) = true.
Proof.
  unfold best_score. rewrite best_over_tokens_fold.
  assert (H : is_number
                (fold_left pymax
                   (List.map (token_score query) (split_ws label)) 0.0) = true)
    by (apply fold_pymax_number; reflexivity).
  destruct (tries_full_name _ _ _); [now apply pymax_number | exact H].
Qed.

Lemma candidate_score_number (query label : pystr) (threshold : float) :
  is_number (candidate_score query label threshold) = true.
Proof.
  unfold candidate_score. destruct (str_eqb query label);
    [reflexivity | apply best_score_number].
Qed.

Section Values.
Variable V : Type.

(** What one iteration appends, and when. *)
Lemma In_match_candidate (query : pystr) (threshold : float)
      (c : pystr * V) (e : pystr * V * float) :
  In e (match_candidate query threshold c) <->
  e = (fst c, snd c,
       candidate_score query (lower (clean_name (fst c))) threshold)
  /\ (query = lower (clean_name (fst c))
      \/ (threshold <=? snd e) = true).
Proof.
  destruct c as [name value]. unfold match_candidate, candidate_score.
  simpl fst; simpl snd.
  destruct (str_eqb query (lower (clean_name name))) eqn:E.
  - apply str_eqb_eq in E. simpl. split.
    + intros [<-|[]]. auto.
    + intros [-> _]. now left.
  - apply str_eqb_neq in E.
    destruct (threshold <=? best_score query (lower (clean_name name))
                                       threshold) eqn:T; simpl.
    + split.
      * intros [<-|[]]. simpl. auto.
      * intros [-> _]. now left.
    + split; [tauto|]. intros [-> [H|H]]; [contradiction|].
      simpl in H. congruence.
Qed.

Lemma In_match_results (query : pystr) (threshold : float)
      (candidates : list (pystr * V)) (name : pystr) (value : V) (s : float) :
  In (name, value, s) (match_results query threshold candidates) <->
  In (name, value) candidates
  /\ s = candidate_score query (lower (clean_name name)) threshold
  /\ (query = lower (clean_name name) \/ (threshold <=? s) = true).
Proof.
  unfold match_results. rewrite in_flat_map. split.
  - intros [[n v] [Hc He]]. apply In_match_candidate in He as [He Ht].
    simpl in He. injection He as -> -> ->. auto.
  - intros (Hc & -> & Ht). exists (name, value). split; [exact Hc|].
    apply In_match_candidate. auto.
Qed.

Lemma match_results_numbers (query : pystr) (threshold : float)
      (candidates : list (pystr * V)) :
  Forall (fun e => is_number (snd e) = true)
         (match_results query threshold candidates).
Proof.
  apply Forall_forall. intros [[n v] s] H.
  apply In_match_results in H as (_ & -> & _).
  apply candidate_score_number.
Qed.

Lemma fuzzy_match_numbers (query : pystr) (candidates : list (pystr * V))
      (threshold : float) :
  Forall (fun e => is_number (snd e) = true)
         (fuzzy_match query candidates threshold).
Proof.
  unfold fuzzy_match. destruct (lower (clean_name query)); [constructor|].
  apply Forall_forall. intros e He. apply In_sorted_desc in He.
  pose proof (match_results_numbers (c :: p) threshold candidates) as H.
  rewrite Forall_forall in H. auto.
Qed.

Lemma fuzzy_match_descending (query : pystr) (candidates : list (pystr * V))
      (threshold : float) :
  descending snd (fuzzy_match query candidates threshold).
Proof.
  unfold fuzzy_match. destruct (lower (clean_name query)); [constructor|].
  apply sorted_desc_descending, match_results_numbers.
Qed.

(** Among the results of one score, the order is that of the candidates. *)
Lemma match_results_filter (query : pystr) (threshold s : float)
      (candidates : list (pystr * V)) :
  List.map fst (filter (fun e => snd e =? s)
                       (match_results query threshold candidates))
  = filter (scores_as query threshold s) candidates.
Proof.
  unfold match_results, scores_as.
  induction candidates as [|[name value] cs IH]; simpl; [reflexivity|].
  rewrite filter_app, map_app, IH. f_equal.
  unfold match_candidate.
  destruct (str_eqb query (lower (clean_name name))); simpl.
  - destruct (1.0 =? s); reflexivity.
  - destruct (threshold <=? best_score query (lower (clean_name name))
                                       threshold); simpl; [|reflexivity].
    destruct (best_score query (lower (clean_name name)) threshold =? s);
      reflexivity.
Qed.

Lemma fuzzy_match_stable (query : pystr) (candidates : list (pystr * V))
      (threshold s : float) :
  List.map fst (filter (fun e => snd e =? s)
                       (fuzzy_match query candidates threshold))
  = match lower (clean_name query) with
    | [] => []
    | q => filter (scores_as q threshold s) candidates
    end.
Proof.
  unfold fuzzy_match. destruct (lower (clean_name query)) as [|c q];
    [reflexivity|].
  rewrite sorted_desc_stable; [apply match_results_filter|].
  intros x y Hx Hy. exact (eqb_tie Hx Hy).
Qed.

End Values.

End FuzzyFacts.

(* ================================================================= *)
(** ** Dictionaries and deduplication *)

Section DictFacts.
Variable V : Type.

Lemma existsb_str_eqb (k : pystr) (ks : list pystr) :
  existsb (str_eqb k) ks = true <-> In k ks.
Proof.
  rewrite existsb_exists. split.
  - intros (x & Hx & E). apply str_eqb_eq in E. now subst.
  - intros H. exists k. split; [exact H | apply str_eqb_refl].
Qed.

Lemma dict_get_None (d : dict V) (k : pystr) :
  dict_get d k = None <-> ~ In k (dict_keys d).
Proof.
  induction d as [|[k' v] d IH]; simpl; [tauto|].
  destruct (str_eqb k' k) eqn:E.
  - apply str_eqb_eq in E. split; [discriminate | intros H; tauto].
  - apply str_eqb_neq in E. rewrite IH. tauto.
Qed.

Lemma dict_get_Some (d : dict V) (k : pystr) (v : V) :
  dict_get d k = Some v -> In (k, v) d.
Proof.
  induction d as [|[k' v'] d IH]; simpl; [discriminate|].
  destruct (str_eqb k' k) eqn:E.
  - apply str_eqb_eq in E. intros H. injection H as <-. left. now subst.
  - auto.
Qed.

Lemma dict_set_absent (d : dict V) (k : pystr) (v : V) :
  dict_get d k = None -> dict_set d k v = d ++ [(k, v)].
Proof.
  induction d as [|[k' v'] d IH]; simpl; [reflexivity|].
  destruct (str_eqb k' k); [discriminate|].
  intros H. now rewrite IH.
Qed.

End DictFacts.

Section Dedup.
Local Open Scope float_scope.
Variables M R : Type.
Variable mkey : M -> pystr.
Variable mscore : M -> float.
Variable entry : M -> R.
Variable escore : R -> float.
Hypothesis entry_score : forall m, escore (entry m) = mscore m.

Local Abbreviation dedup_step := (dedup_step mkey mscore entry escore).

Lemma first_per_key_subseq (ks : list pystr) (l : list M) :
  subseq (first_per_key mkey ks l) l.
Proof.
  revert ks. induction l as [|m r IH]; intros ks; simpl.
  - apply subseq_nil.
  - destruct (existsb (str_eqb (mkey m)) ks).
    + apply subseq_skip, IH.
    + apply subseq_take, IH.
Qed.

Lemma first_per_key_fresh (ks : list pystr) (l : list M) (m : M) :
  In m (first_per_key mkey ks l) -> ~ In (mkey m) ks.
Proof.
  revert ks. induction l as [|x r IH]; intros ks; simpl; [tauto|].
  destruct (existsb (str_eqb (mkey x)) ks) eqn:E.
  - apply IH.
  - intros [<-|H].
    + intros Hin. apply existsb_str_eqb in Hin. congruence.
    + intros Hin. apply (IH _ H). apply in_or_app. now left.
Qed.

Lemma first_per_key_NoDup (ks : list pystr) (l : list M) :
  NoDup (List.map mkey (first_per_key mkey ks l)).
Proof.
  revert ks. induction l as [|x r IH]; intros ks; simpl; [constructor|].
  destruct (existsb (str_eqb (mkey x)) ks); [apply IH|].
  simpl. constructor; [|apply IH].
  intros Hin. apply in_map_iff in Hin as (m & Hk & Hm).
  apply first_per_key_fresh in Hm. apply Hm.
  apply in_or_app. right. rewrite Hk. now left.
Qed.

(** In a descending list, the first element of a key has its best score. *)
Lemma first_per_key_best (ks : list pystr) (l : list M) (m m' : M) :
  descending mscore l ->
  In m (first_per_key mkey ks l) -> In m' l -> mkey m' = mkey m ->
  (mscore m <? mscore m') = false.
Proof.
  intros Hd. revert ks. induction Hd as [|x r Hd IH Hx]; intros ks; simpl;
    [tauto|].
  rewrite Forall_forall in Hx.
  destruct (existsb (str_eqb (mkey x)) ks) eqn:E.
  - intros Hm [<-|Hm'] Hk.
    + apply first_per_key_fresh in Hm. apply existsb_str_eqb in E.
      rewrite Hk in E. contradiction.
    + eapply IH; eauto.
  - intros [<-|Hm] [<-|Hm'] Hk.
    + apply ltb_irrefl.
    + apply leb_true_ltb. now apply Hx.
    + apply first_per_key_fresh in Hm. exfalso. apply Hm.
      apply in_or_app. right. rewrite Hk. now left.
    + eapply IH; eauto.
Qed.

(** Over a descending list the loop never overwrites: it appends the first
    match of every key that is new. *)
Lemma fold_dedup_step (l : list M) (seen : dict R) :
  descending mscore l ->
  (forall e m, In e (dict_values seen) -> In m l ->
               (escore e <? mscore m) = false) ->
  fold_left dedup_step l seen
  = seen ++ List.map (fun m => (mkey m, entry m))
                     (first_per_key mkey (dict_keys seen) l).
Proof.
  intros Hd. revert seen.
  induction Hd as [|x r Hd IH Hx]; intros seen Hseen; simpl.
  - now rewrite app_nil_r.
  - rewrite Forall_forall in Hx. unfold dedup_step at 2.
    destruct (dict_get seen (mkey x)) as [old|] eqn:G.
    + assert (Hin : In (mkey x) (dict_keys seen)).
      { apply dict_get_Some in G. unfold dict_keys.
        change (mkey x) with (fst (mkey x, old)). now apply in_map. }
      assert (Hold : (escore old <? mscore x) = false).
      { apply Hseen; [|now left]. apply dict_get_Some in G.
        unfold dict_values. change old with (snd (mkey x, old)).
        now apply in_map. }
      rewrite Hold. apply existsb_str_eqb in Hin. rewrite Hin.
      apply IH. intros e m He Hm. apply Hseen; [exact He | now right].
    + assert (Hnin : existsb (str_eqb (mkey x)) (dict_keys seen) = false).
      { destruct (existsb (str_eqb (mkey x)) (dict_keys seen)) eqn:Ex;
          [|reflexivity].
        apply existsb_str_eqb in Ex. apply dict_get_None in G.
        contradiction. }
      rewrite Hnin, (@dict_set_absent _ _ _ (entry x) G). rewrite IH.
      * unfold dict_keys. rewrite map_app, <- app_assoc. reflexivity.
      * intros e m He Hm. unfold dict_values in He. rewrite map_app in He.
        apply in_app_or in He as [He|[<-|[]]].
        -- apply Hseen; [exact He | now right].
        -- simpl. rewrite entry_score. apply leb_true_ltb. now apply Hx.
Qed.

Lemma descending_map_entry (l : list M) :
  descending mscore l -> descending escore (List.map entry l).
Proof.
  induction 1 as [|x r Hd IH Hx]; simpl; constructor; [exact IH|].
  apply Forall_forall. intros e He. apply in_map_iff in He as (m & <- & Hm).
  rewrite !entry_score. rewrite Forall_forall in Hx. now apply Hx.
Qed.

(** The sorted values of the dictionary that the loop builds from nothing. *)
Lemma sorted_dedup (l : list M) :
  descending mscore l ->
  sorted_desc escore (dict_values (fold_left dedup_step l []))
  = List.map entry (first_per_key mkey [] l).
Proof.
  intros Hd. rewrite fold_dedup_step; [|exact Hd|intros e m []].
  simpl. unfold dict_values. rewrite map_map. simpl.
  apply sorted_desc_fix. apply descending_map_entry.
  eapply subseq_descending; [apply first_per_key_subseq | exact Hd].
Qed.

End Dedup.

Lemma fold_left_ext (A B : Type) (f g : A -> B -> A) (l : list B) (a : A) :
  (forall x y, f x y = g x y) -> fold_left f l a = fold_left g l a.
Proof.
  intros H. revert a. induction l as [|b l IH]; intros a; simpl;
    [reflexivity|].
  rewrite H. apply IH.
Qed.

(* ================================================================= *)
(** ** [find_contact_by_name] and [find_group_chat_by_name] *)

Section DirectoryFacts.
Context {py : Python}.
Local Open Scope float_scope.

(** The result is the first match of every phone, in the matcher's order. *)
Lemma find_contact_by_name_first (contacts details : dict pystr)
      (name : pystr) :
  find_contact_by_name contacts details name
  = List.map (contact_entry contacts)
             (first_per_key match_phone []
                (contact_matches_of contacts details name)).
Proof.
  unfold find_contact_by_name, contact_matches_of.
  rewrite <- (@sorted_dedup _ _ match_phone snd (contact_entry contacts)
                            cm_score).
  - f_equal. f_equal. apply fold_left_ext.
    intros seen [[n p] s]. reflexivity.
  - intros [[n p] s]. reflexivity.
  - apply fuzzy_match_descending.
Qed.

Lemma find_group_chat_by_name_first (rows : list chat) (name : pystr) :
  find (is_exact_chat name) rows = None ->
  find_group_chat_by_name (Chats rows) name
  = List.map chat_entry
             (first_per_key match_chat_id [] (chat_matches_of rows name)).
Proof.
  intros Hf. unfold find_group_chat_by_name, chat_matches_of. rewrite Hf.
  rewrite <- (@sorted_dedup _ _ match_chat_id snd chat_entry gm_score).
  - f_equal. f_equal. apply fold_left_ext.
    intros seen [[n c] s]. reflexivity.
  - intros [[n c] s]. reflexivity.
  - apply fuzzy_match_descending.
Qed.

Lemma find_contact_by_name_NoDup (contacts details : dict pystr)
      (name : pystr) :
  NoDup (List.map cm_phone (find_contact_by_name contacts details name)).
Proof.
  rewrite find_contact_by_name_first, map_map.
  rewrite (map_ext _ match_phone) by (intros [[n p] s]; reflexivity).
  apply first_per_key_NoDup.
Qed.

Lemma find_group_chat_by_name_NoDup (chats : group_chats) (name : pystr) :
  NoDup (List.map gm_applescript_id (find_group_chat_by_name chats name)).
Proof.
  destruct chats as [rows|error]; [|constructor].
  destruct (find (is_exact_chat name) rows) as [c|] eqn:Hf.
  - unfold find_group_chat_by_name. rewrite Hf. simpl.
    constructor; [tauto | constructor].
  - rewrite (find_group_chat_by_name_first _ _ Hf), map_map.
    rewrite (map_ext _ match_chat_id) by (intros [[n c] s]; reflexivity).
    apply first_per_key_NoDup.
Qed.

Lemma find_contact_by_name_descending (contacts details : dict pystr)
      (name : pystr) :
  descending cm_score (find_contact_by_name contacts details name).
Proof.
  rewrite find_contact_by_name_first.
  apply descending_map_entry with (mscore := snd).
  - intros [[n p] s]. reflexivity.
  - eapply subseq_descending; [apply first_per_key_subseq|].
    apply fuzzy_match_descending.
Qed.

Lemma find_group_chat_by_name_descending (chats : group_chats)
      (name : pystr) :
  descending gm_score (find_group_chat_by_name chats name).
Proof.
  destruct chats as [rows|error]; [|constructor].
  destruct (find (is_exact_chat name) rows) as [c|] eqn:Hf.
  - unfold find_group_chat_by_name. rewrite Hf. repeat constructor.
  - rewrite (find_group_chat_by_name_first _ _ Hf).
    apply descending_map_entry with (mscore := snd).
    + intros [[n c] s]. reflexivity.
    + eapply subseq_descending; [apply first_per_key_subseq|].
      apply fuzzy_match_descending.
Qed.

Lemma find_contact_by_name_subseq (contacts details : dict pystr)
      (name : pystr) :
  subseq (List.map contact_match_of
                   (find_contact_by_name contacts details name))
         (contact_matches_of contacts details name).
Proof.
  rewrite find_contact_by_name_first, map_map.
  rewrite (map_ext _ (fun m => m)) by (intros [[n p] s]; reflexivity).
  rewrite map_id. apply first_per_key_subseq.
Qed.

Lemma find_group_chat_by_name_subseq (rows : list chat) (name : pystr) :
  find (is_exact_chat name) rows = None ->
  subseq (List.map group_match_of
                   (find_group_chat_by_name (Chats rows) name))
         (List.map chat_match_of (chat_matches_of rows name)).
Proof.
  intros Hf. rewrite (find_group_chat_by_name_first _ _ Hf), map_map.
  rewrite (map_ext _ chat_match_of) by (intros [[n c] s]; reflexivity).
  apply subseq_map, first_per_key_subseq.
Qed.

(** No match of the same phone scores higher than the entry kept. *)
Lemma find_contact_by_name_best (contacts details : dict pystr)
      (name : pystr) (e : contact_match) (n p : pystr) (s : float) :
  In e (find_contact_by_name contacts details name) ->
  In (n, p, s) (contact_matches_of contacts details name) ->
  p = cm_phone e ->
  In (contact_match_of e) (contact_matches_of contacts details name)
  /\ (cm_score e <? s) = false.
Proof.
  rewrite find_contact_by_name_first. intros He Hm Hp.
  apply in_map_iff in He as ([[n' p'] s'] & <- & He). simpl in *. split.
  - eapply subseq_In; [apply first_per_key_subseq | exact He].
  - apply (first_per_key_best match_phone _ (n', p', s') (n, p, s)
             (fuzzy_match_descending _ _ _) He Hm Hp).
Qed.

Lemma find_group_chat_by_name_best (rows : list chat) (name : pystr)
      (e : group_match) (n : pystr) (c : chat) (s : float) :
  find (is_exact_chat name) rows = None ->
  In e (find_group_chat_by_name (Chats rows) name) ->
  In (n, c, s) (chat_matches_of rows name) ->
  chat_applescript_id c = gm_applescript_id e ->
  In (group_match_of e) (List.map chat_match_of (chat_matches_of rows name))
  /\ (gm_score e <? s) = false.
Proof.
  intros Hf. rewrite (find_group_chat_by_name_first _ _ Hf).
  intros He Hm Hp.
  apply in_map_iff in He as ([[n' c'] s'] & <- & He). simpl in *. split.
  - change (group_match_of (chat_entry (n', c', s')))
      with (chat_match_of (n', c', s')).
    apply in_map.
    eapply subseq_In; [apply first_per_key_subseq | exact He].
  - apply (first_per_key_best match_chat_id _ (n', c', s') (n, c, s)
             (fuzzy_match_descending _ _ _) He Hm Hp).
Qed.

End DirectoryFacts.

(* ================================================================= *)
(** ** [send_message] and [get_recent_messages] *)

Section ResolverFacts.
Context {py : Python} {ms : Messenger}.

Lemma group_prefix_not_contact (s : pystr) :
  startswith s (lit "group:") = true ->
  startswith s (lit "contact:") = false.
Proof.
  destruct s as [|c s]; [discriminate|].
  let g := eval vm_compute in (lit "group:") in
    change (lit "group:") with g.
  let k := eval vm_compute in (lit "contact:") in
    change (lit "contact:") with k.
  simpl. unfold char_eqb. destruct (N.eqb_spec c 103) as [->|_];
    [reflexivity | discriminate].
Qed.

Lemma contact_prefix_not_group (s : pystr) :
  startswith s (lit "contact:") = true ->
  startswith s (lit "group:") = false.
Proof.
  intros H. destruct (startswith s (lit "group:")) eqn:E; [|reflexivity].
  apply group_prefix_not_contact in E. congruence.
Qed.

(** A recipient that is no selector, email or phone number is looked up by
    name. *)
Lemma send_message_by_name (dirs : directories) (recipient message : pystr)
      (group_chat : option bool) (s : session) (w : World) :
  startswith (lower (strip recipient)) (lit "group:") = false ->
  startswith (lower (strip recipient)) (lit "contact:") = false ->
  is_email_literal (strip recipient) = false ->
  is_phone_literal (strip recipient) = false ->
  send_message dirs recipient message group_chat s w
  = send_by_name dirs (strip recipient) message group_chat s w.
Proof.
  intros H1 H2 H3 H4. unfold send_message. now rewrite H1, H2, H3, H4.
Qed.

(** The three ways a lookup by name ends, by the number of matches. *)
Lemma send_by_name_cases (dirs : directories) (recipient message : pystr)
      (group_chat : option bool) (s : session) (w : World) :
  group_search_allowed dirs group_chat ->
  send_by_name dirs recipient message group_chat s w
  = let G := searched_groups dirs group_chat recipient in
    let C := searched_contacts dirs group_chat recipient in
    match G, C with
    | [], [] => (NotFound recipient, s, w)
    | [group], [] =>
        (Delivery (fst (send_to_group group message w)), empty_session,
         snd (send_to_group group message w))
    | [], [contact] =>
        (Delivery (fst (send_to_contact contact message w)), empty_session,
         snd (send_to_contact contact message w))
    | _, _ =>
        (match G, C with
         | _ :: _, _ :: _ => AmbiguousBoth (firstn 5 G) (firstn 5 C)
         | _ :: _, [] => AmbiguousGroups (firstn 10 G)
         | [], _ => AmbiguousContacts (firstn 10 C)
         end,
         {| recent_matches := C; recent_group_matches := G |}, w)
    end.
Proof.
  intros Hok. unfold send_by_name, group_search_allowed in *.
  destruct group_chat as [[|]|], (dir_group_chats dirs) eqn:D;
    try contradiction; cbv zeta;
    destruct (searched_groups dirs _ recipient) as [|g [|g' G]];
    destruct (searched_contacts dirs _ recipient) as [|c [|c' C]];
    try reflexivity;
    try (destruct (send_to_group g message w); reflexivity);
    try (destruct (send_to_contact c message w); reflexivity).
Qed.

Lemma firstn_cap (A : Type) (n : nat) (l : list A) :
  List.length (firstn n l) <= n.
Proof. rewrite length_firstn. apply Nat.le_min_l. Qed.

(** An ambiguous lookup by name: what is reported and what is stored. *)
Lemma send_by_name_ambiguous (dirs : directories) (recipient message : pystr)
      (group_chat : option bool) (s : session) (w : World) :
  group_search_allowed dirs group_chat ->
  let G := searched_groups dirs group_chat recipient in
  let C := searched_contacts dirs group_chat recipient in
  2 <= List.length G + List.length C ->
  exists o,
    send_by_name dirs recipient message group_chat s w
    = (o, {| recent_matches := C; recent_group_matches := G |}, w)
    /\ report_of o
       = Some (firstn (display_cap G C) G, firstn (display_cap G C) C).
Proof.
  intros Hok G C Hlen. rewrite send_by_name_cases by exact Hok.
  fold G C. destruct G as [|g [|g' G']], C as [|c [|c' C']];
    simpl in Hlen; try lia; eexists; split; reflexivity.
Qed.

End ResolverFacts.

(** Case analysis on every [match] of the goal. *)
Ltac break_match :=
  repeat match goal with
  | |- context [match ?x with _ => _ end] => destruct x eqn:?
  end.

Section SelectorFacts.
Context {py : Python} {ms : Messenger}.

Lemma nth_error_nonempty (A : Type) (l : list A) (i : nat) (x : A) :
  nth_error l i = Some x -> l <> [].
Proof. intros H ->. destruct i; discriminate. Qed.

Lemma after_selected_send_eq (s : session) (result : pystr) (w : World) :
  after_selected_send s (result, w)
  = (Delivery result, if is_error result then s else empty_session, w).
Proof. unfold after_selected_send. now destruct (is_error result). Qed.

Lemma send_message_group_selector
      (dirs : directories) (recipient message : pystr)
      (group_chat : option bool) (s : session) (w : World)
      (index : nat) :
  startswith (lower (strip recipient)) (lit "group:") = true ->
  group_chat <> Some false ->
  selector_index_of (strip recipient) = Index index ->
  recent_group_matches s <> [] ->
  send_message dirs recipient message group_chat s w
  = match nth_error (recent_group_matches s) index with
    | Some group => after_selected_send s (send_to_group group message w)
    | None =>
        (SelectorError Group
           (InvalidSelection (List.length (recent_group_matches s))), s, w)
    end.
Proof.
  intros Hp Hm Hi Hne. unfold send_message. rewrite Hp, Hi.
  destruct group_chat as [[|]|]; try congruence;
    destruct (recent_group_matches s); congruence.
Qed.

Lemma send_message_contact_selector
      (dirs : directories) (recipient message : pystr)
      (group_chat : option bool) (s : session) (w : World)
      (index : nat) :
  startswith (lower (strip recipient)) (lit "contact:") = true ->
  group_chat <> Some true ->
  selector_index_of (strip recipient) = Index index ->
  recent_matches s <> [] ->
  send_message dirs recipient message group_chat s w
  = match nth_error (recent_matches s) index with
    | Some contact =>
        after_selected_send s (send_to_contact contact message w)
    | None =>
        (SelectorError Contact
           (InvalidSelection (List.length (recent_matches s))), s, w)
    end.
Proof.
  intros Hp Hm Hi Hne. unfold send_message.
  rewrite (contact_prefix_not_group _ Hp), Hp, Hi.
  destruct group_chat as [[|]|]; try congruence;
    destruct (recent_matches s); congruence.
Qed.

Lemma selector_index_nonempty (r : pystr) (index : nat) :
  selector_index_of r = Index index -> r <> [].
Proof. intros H ->. discriminate. Qed.

Lemma strip_nonempty (r : pystr) : strip r <> [] -> r <> [].
Proof. intros H ->. now apply H. Qed.

Lemma get_recent_messages_group_selector
      (dirs : directories) (hours : Z) (given : pystr) (s : session)
      (index : nat) (group : group_match) :
  (0 <= hours <= MAX_HOURS)%Z ->
  startswith (lower (strip given)) (lit "group:") = true ->
  selector_index_of (strip given) = Index index ->
  nth_error (recent_group_matches s) index = Some group ->
  get_recent_messages dirs hours (Some given) s
  = (Query (gm_room_name group) None, s).
Proof.
  intros Hh Hp Hi Hn. unfold get_recent_messages.
  destruct (Z.ltb_spec hours 0); [lia|].
  destruct (Z.ltb_spec MAX_HOURS hours); [lia|].
  pose proof (strip_nonempty (selector_index_nonempty Hi)) as Hg.
  destruct given as [|c g]; [congruence|].
  rewrite Hp, Hi, Hn.
  pose proof (@nth_error_nonempty _ _ _ _ Hn) as Hne.
  destruct (recent_group_matches s); congruence.
Qed.

Lemma get_recent_messages_contact_selector
      (dirs : directories) (hours : Z) (given : pystr) (s : session)
      (index : nat) (m : contact_match) :
  (0 <= hours <= MAX_HOURS)%Z ->
  startswith (lower (strip given)) (lit "contact:") = true ->
  selector_index_of (strip given) = Index index ->
  nth_error (recent_matches s) index = Some m ->
  is_address_literal (cm_phone m) = true ->
  get_recent_messages dirs hours (Some given) s
  = (Query None (Some (cm_phone m)), s).
Proof.
  intros Hh Hp Hi Hn Hl. unfold get_recent_messages.
  destruct (Z.ltb_spec hours 0); [lia|].
  destruct (Z.ltb_spec MAX_HOURS hours); [lia|].
  pose proof (strip_nonempty (selector_index_nonempty Hi)) as Hg.
  destruct given as [|c g]; [congruence|].
  rewrite (contact_prefix_not_group _ Hp), Hp, Hi, Hn.
  pose proof (@nth_error_nonempty _ _ _ _ Hn) as Hne.
  destruct (recent_matches s); [congruence|].
  unfold lookup_contact. rewrite Hl. now destruct (cm_phone m).
Qed.

(** ** The attributes stay deduplicated *)

Lemma empty_session_deduplicated : session_deduplicated empty_session.
Proof. split; constructor. Qed.

Lemma searched_deduplicated (dirs : directories) (group_chat : option bool)
      (recipient : pystr) :
  session_deduplicated
    {| recent_matches := searched_contacts dirs group_chat recipient;
       recent_group_matches := searched_groups dirs group_chat recipient |}.
Proof.
  split; simpl.
  - unfold searched_contacts. destruct group_chat as [[|]|];
      try apply find_contact_by_name_NoDup. constructor.
  - unfold searched_groups. destruct group_chat as [[|]|];
      try apply find_group_chat_by_name_NoDup. constructor.
Qed.

Lemma send_message_session (dirs : directories) (recipient message : pystr)
      (group_chat : option bool) (s : session) (w : World) :
  let s' := snd (fst (send_message dirs recipient message group_chat s w)) in
  s' = s \/ s' = empty_session
  \/ s' = {| recent_matches :=
               searched_contacts dirs group_chat (strip recipient);
             recent_group_matches :=
               searched_groups dirs group_chat (strip recipient) |}.
Proof.
  unfold send_message, send_by_name, after_selected_send.
  break_match; simpl; auto;
    repeat match goal with
    | H : searched_contacts _ _ _ = _ |- _ => rewrite <- H; clear H
    | H : searched_groups _ _ _ = _ |- _ => rewrite <- H; clear H
    end; auto.
Qed.

Lemma send_message_deduplicated (dirs : directories)
      (recipient message : pystr) (group_chat : option bool) (s : session)
      (w : World) :
  session_deduplicated s ->
  session_deduplicated
    (snd (fst (send_message dirs recipient message group_chat s w))).
Proof.
  intros Hs.
  destruct (send_message_session dirs recipient message group_chat s w)
    as [->|[->| ->]].
  - exact Hs.
  - apply empty_session_deduplicated.
  - apply searched_deduplicated.
Qed.

Lemma get_recent_messages_deduplicated (dirs : directories) (hours : Z)
      (contact : option pystr) (s : session) :
  session_deduplicated s ->
  session_deduplicated (snd (get_recent_messages dirs hours contact s)).
Proof.
  intros Hs. pose proof Hs as [Hc Hg].
  assert (L : forall c, session_deduplicated (snd (lookup_by_name dirs c s))).
  { intros c. unfold lookup_by_name.
    pose proof (find_group_chat_by_name_NoDup (dir_group_chats dirs) c) as HG.
    pose proof (find_contact_by_name_NoDup (dir_contacts dirs)
                  (dir_phone_to_details dirs) c) as HC.
    destruct (find_group_chat_by_name (dir_group_chats dirs) c)
      as [|g [|g' G]];
      destruct (find_contact_by_name (dir_contacts dirs)
                  (dir_phone_to_details dirs) c) as [|m [|m' C]];
      split; simpl; auto; constructor. }
  assert (K : forall c, session_deduplicated (snd (lookup_contact dirs c s))).
  { intros c. unfold lookup_contact. destruct c; [now split|].
    destruct (is_address_literal _); [now split | apply L]. }
  clear Hc Hg. unfold get_recent_messages.
  break_match; try exact Hs; apply K.
Qed.

Lemma run_calls_deduplicated (calls : list call) (w : World) :
  session_deduplicated (send_session (fst (run_calls calls w)))
  /\ session_deduplicated (history_session (fst (run_calls calls w))).
Proof.
  unfold run_calls.
  assert (G : forall st,
             session_deduplicated (send_session (fst st)) /\
             session_deduplicated (history_session (fst st)) ->
             session_deduplicated
               (send_session
                  (fst (fold_left (fun st c => run_call c st) calls st))) /\
             session_deduplicated
               (history_session
                  (fst (fold_left (fun st c => run_call c st) calls st)))).
  { induction calls as [|c calls IH]; intros st Hst; simpl; [exact Hst|].
    apply IH. destruct st as [ss w0], Hst as [H1 H2]. simpl in *.
    destruct c as [dirs recipient message group_chat|dirs hours contact];
      simpl.
    - pose proof (send_message_deduplicated dirs recipient message
                    group_chat w0 H1) as H.
      destruct (send_message dirs recipient message group_chat
                             (send_session ss) w0) as [[o s'] w'].
      simpl in *. auto.
    - pose proof (get_recent_messages_deduplicated dirs hours contact H2)
        as H.
      destruct (get_recent_messages dirs hours contact (history_session ss))
        as [o s'].
      simpl in *. auto. }
  apply G. split; apply empty_session_deduplicated.
Qed.

End SelectorFacts.

(* ================================================================= *)
(** ** Phone numbers *)

Section PhoneFacts.
Context {py : Python}.

Lemma filter_isdigit_ascii (s : pystr) :
  Forall (fun c => (c < 128)%N) s -> filter isdigit s = filter ascii_isdigit s.
Proof.
  induction 1 as [|c s Hc Hs IH]; simpl; [reflexivity|].
  rewrite (isdigit_ascii Hc). fold (ascii_isdigit c). now rewrite IH.
Qed.

Lemma formats_to_try_In (n f : pystr) :
  In f (formats_to_try n) <->
  f = n
  \/ (startswith n [ONE] = true /\ 10 < List.length n /\ f = tl n)
  \/ (List.length n = 10 /\ f = ONE :: n).
Proof.
  unfold formats_to_try.
  destruct (startswith n [ONE]) eqn:S1; simpl.
  - destruct (Nat.ltb_spec 10 (List.length n)) as [L|L]; simpl.
    + intuition (try lia; auto).
    + destruct (Nat.eqb_spec (List.length n) 10) as [E|E]; simpl;
        intuition (try lia; auto).
  - destruct (Nat.eqb_spec (List.length n) 10) as [E|E]; simpl;
      intuition (try lia; try congruence; auto).
Qed.

Lemma first_handle_from (rows : list handle_row) (b : handle_row) :
  exists r,
    fold_left (fun best r =>
                 match best with
                 | None => Some r
                 | Some b => if handle_before r b then Some r else Some b
                 end) rows (Some b) = Some r
    /\ In r (b :: rows).
Proof.
  revert b. induction rows as [|x rows IH]; intros b; simpl.
  - exists b. auto.
  - destruct (handle_before x b).
    + destruct (IH x) as (r & E & [->|H]); exists r; auto.
    + destruct (IH b) as (r & E & [->|H]); exists r; auto.
Qed.

Lemma first_handle_Some (rows : list handle_row) :
  rows <> [] -> exists r, first_handle rows = Some r /\ In r rows.
Proof.
  destruct rows as [|b rows]; [congruence|]. intros _.
  unfold first_handle. simpl. apply first_handle_from.
Qed.

(** A handle stored under one of the formats tried is found. *)
Lemma find_handle_by_phone_found (rows : list handle_row) (phone : pystr)
      (stored : handle_row) :
  normalize_phone_number phone <> [] ->
  In stored rows ->
  In (h_id stored)
     (handle_params (formats_to_try (normalize_phone_number phone))) ->
  exists r,
    find_handle_by_phone (Handles rows) phone = Some (h_rowid r)
    /\ In r rows
    /\ In (h_id r)
          (handle_params (formats_to_try (normalize_phone_number phone))).
Proof.
  intros Hn Hin Hid. unfold find_handle_by_phone.
  destruct (normalize_phone_number phone) as [|c n] eqn:E; [congruence|].
  set (params := handle_params (formats_to_try (c :: n))) in *.
  set (results := filter (fun r => existsb (str_eqb (h_id r)) params) rows).
  assert (Hs : In stored results).
  { apply filter_In. split; [exact Hin|]. now apply existsb_str_eqb. }
  destruct (@first_handle_Some results) as (r & Hr & Hrin).
  - intros Z. rewrite Z in Hs. contradiction.
  - exists r. rewrite Hr. simpl. apply filter_In in Hrin as [H1 H2].
    apply existsb_str_eqb in H2. auto.
Qed.

End PhoneFacts.

(* ================================================================= *)
(** ** The lists of a report *)

Section Reports.
Context {py : Python} {ms : Messenger}.

Lemma NoDup_firstn_map (A B : Type) (f : A -> B) (n : nat) (l : list A) :
  NoDup (List.map f l) -> NoDup (List.map f (firstn n l)).
Proof.
  intros H. rewrite <- firstn_map.
  rewrite <- (firstn_skipn n (List.map f l)) in H.
  now apply NoDup_app_remove_r in H.
Qed.

Local Opaque firstn.

Lemma send_message_report (dirs : directories) (recipient message : pystr)
      (group_chat : option bool) (s : session) (w : World)
      (gs : list group_match) (cs : list contact_match) :
  report_of (fst (fst (send_message dirs recipient message group_chat s w)))
  = Some (gs, cs) ->
  NoDup (List.map gm_applescript_id gs) /\ NoDup (List.map cm_phone cs).
Proof.
  destruct (searched_deduplicated dirs group_chat (strip recipient))
    as [HC HG]. simpl in HC, HG. revert HC HG.
  unfold send_message, send_by_name, after_selected_send.
  generalize (searched_contacts dirs group_chat (strip recipient)).
  generalize (searched_groups dirs group_chat (strip recipient)).
  intros G C HC HG.
  break_match; cbn [fst snd report_of]; try discriminate;
    intros H; injection H as <- <-; split;
    try apply NoDup_firstn_map; try assumption; constructor.
Qed.

Lemma get_recent_messages_report (dirs : directories) (hours : Z)
      (contact : option pystr) (s : session)
      (gs : list group_match) (cs : list contact_match) :
  lookup_report_of (fst (get_recent_messages dirs hours contact s))
  = Some (gs, cs) ->
  NoDup (List.map gm_applescript_id gs) /\ NoDup (List.map cm_phone cs).
Proof.
  assert (L : forall c,
             lookup_report_of (fst (lookup_by_name dirs c s)) = Some (gs, cs)
             -> NoDup (List.map gm_applescript_id gs)
                /\ NoDup (List.map cm_phone cs)).
  { intros c. unfold lookup_by_name.
    pose proof (find_group_chat_by_name_NoDup (dir_group_chats dirs) c) as HG.
    pose proof (find_contact_by_name_NoDup (dir_contacts dirs)
                  (dir_phone_to_details dirs) c) as HC.
    revert HG HC.
    generalize (find_group_chat_by_name (dir_group_chats dirs) c).
    generalize (find_contact_by_name (dir_contacts dirs)
                  (dir_phone_to_details dirs) c).
    intros C G HG HC.
    break_match; cbn [fst snd lookup_report_of]; try discriminate;
      intros H; injection H as <- <-; split;
      try apply NoDup_firstn_map; try assumption; constructor. }
  assert (K : forall c,
             lookup_report_of (fst (lookup_contact dirs c s)) = Some (gs, cs)
             -> NoDup (List.map gm_applescript_id gs)
                /\ NoDup (List.map cm_phone cs)).
  { intros c. unfold lookup_contact.
    break_match; simpl; try discriminate. apply L. }
  unfold get_recent_messages.
  break_match; simpl; try discriminate; apply K.
Qed.

Local Transparent firstn.

End Reports.

(* ================================================================= *)
(** * The properties of the specification *)

Section NormalizerClaims.

(** C8, at the inputs where the code departs from it: [clean_name] keeps the
    underscore, which is neither a letter, a digit, an apostrophe, a hyphen
    nor whitespace ([\w] matches it), whatever the Unicode tables say; and
    the last range of [emoji_pattern], U+24C2 to U+1F251, takes out the CJK
    ideographs U+7530 and U+4E2D with everything else in between. *)
Theorem clean_name_keeps_underscore {py : Python} :
  clean_name [UNDERSCORE] = [UNDERSCORE]
  /\ @clean_name ascii_python (lit "john_doe") = lit "john_doe"
  /\ clean_name [0x7530; 0x4E2D]%N = [].
Proof.
  split; [|split; reflexivity].
  unfold clean_name. simpl. unfold kept, is_word.
  replace (char_eqb UNDERSCORE UNDERSCORE) with true by reflexivity.
  rewrite orb_true_r. reflexivity.
Qed.

(** [clean_name] is idempotent, and what it returns holds only characters
    that both substitutions let through, has single plain spaces for
    whitespace, and neither starts nor ends with whitespace. *)
Theorem clean_name_normal_form {py : Python} :
  forall x : pystr,
    clean_name (clean_name x) = clean_name x
    /\ (forall c, In c (clean_name x) ->
                  kept c = true /\ in_emoji_pattern c = false)
    /\ single_spaced false (clean_name x) = true
    /\ no_lead (clean_name x)
    /\ no_lead (rev (clean_name x)).
Proof.
  intros x. split; [|split; [|split; [|split]]].
  - apply clean_name_idempotent.
  - apply clean_name_chars.
  - apply clean_name_single_spaced.
  - apply strip_no_lead.
  - apply strip_no_trail.
Qed.

(** [normalize_phone_number] is idempotent: what it returns holds digits
    only, and removing the non-digits from it again changes nothing. *)
Theorem normalize_phone_number_idempotent {py : Python} :
  forall phone : pystr,
    normalize_phone_number (normalize_phone_number phone)
    = normalize_phone_number phone
    /\ forall c, In c (normalize_phone_number phone) -> isdigit c = true.
Proof.
  intros phone. unfold normalize_phone_number. split.
  - apply filter_id. intros c Hc. now apply filter_In in Hc.
  - intros c Hc. now apply filter_In in Hc.
Qed.

End NormalizerClaims.

Section MatcherClaims.
Local Open Scope float_scope.

(** C1: for every query and candidate label, the score of the fuzzy match
    is the maximum over the rules: [1.0] when the cleaned, lowercased query
    equals the cleaned, lowercased label; otherwise, over the whitespace
    tokens of the cleaned label, [0.95] for a token equal to the query,
    [0.85 * (len(query) / len(token))] for a token that starts with the
    query, [0.80 * (len(token) / len(query))] for a token the query starts
    with, else the similarity ratio of query and token; and, when the query
    holds a space or the best token score is below the threshold, also the
    ratio of the query and the whole cleaned label. The first part gives
    the rule of a token, the second says that the score of the loop body is
    the greatest value of [match_rules], the third that this score is the
    one each returned entry carries. *)
Theorem fuzzy_score_is_max_of_rules {py : Python} :
  (forall query token : pystr,
      (query = token -> token_score query token = 0.95)
      /\ (query <> token -> startswith token query = true ->
          token_score query token = 0.85 * (len query / len token))
      /\ (query <> token -> startswith token query = false ->
          startswith query token = true ->
          token_score query token = 0.80 * (len token / len query))
      /\ (query <> token -> startswith token query = false ->
          startswith query token = false ->
          token_score query token = ratio query token))
  /\ (forall (query label : pystr) (threshold : float),
         is_max_of (candidate_score query label threshold)
                   (match_rules query label threshold))
  /\ (forall (V : Type) (query : pystr) (candidates : list (pystr * V))
             (threshold : float) (name : pystr) (value : V) (s : float),
         In (name, value, s) (fuzzy_match query candidates threshold) ->
         s = candidate_score (lower (clean_name query))
                             (lower (clean_name name)) threshold).
Proof.
  split; [apply token_score_rules|].
  split; [apply candidate_score_max|].
  intros V query candidates threshold name value s H.
  unfold fuzzy_match in H.
  destruct (lower (clean_name query)) as [|c q]; [contradiction|].
  apply In_sorted_desc in H. now apply In_match_results in H.
Qed.

Lemma fuzzy_score_is_max_of_rules_witness :
  In (lit "Alex Smith", 7%nat, 0.95)
     (fuzzy_match (lit "Alex") [(lit "Alex Smith", 7%nat)] 0.6)
  /\ 0.95 = candidate_score (lit "alex") (lit "alex smith") 0.6.
Proof.
  assert (H : In (lit "Alex Smith", 7%nat, 0.95)
                 (fuzzy_match (lit "Alex") [(lit "Alex Smith", 7%nat)] 0.6))
    by (vm_compute; left; reflexivity).
  split; [exact H|].
  exact (proj2 (proj2 (@fuzzy_score_is_max_of_rules ascii_python))
               nat _ _ _ _ _ _ H).
Defined.

(** C5, as the code has it: [fuzzy_match] itself leaves out the candidates
    whose best score is below the threshold. An entry is returned exactly
    when the cleaned query is not empty, the candidate is in the list, the
    score is the maximum that the rules give the candidate, and either the
    cleaned names are equal or the score reaches the threshold. *)
Theorem fuzzy_match_returns_exactly {py : Python} :
  forall (V : Type) (query : pystr) (candidates : list (pystr * V))
         (threshold : float) (name : pystr) (value : V) (s : float),
    In (name, value, s) (fuzzy_match query candidates threshold) <->
    lower (clean_name query) <> []
    /\ In (name, value) candidates
    /\ s = candidate_score (lower (clean_name query))
                           (lower (clean_name name)) threshold
    /\ (lower (clean_name query) = lower (clean_name name)
        \/ (threshold <=? s) = true).
Proof.
  intros V query candidates threshold name value s. unfold fuzzy_match.
  destruct (lower (clean_name query)) as [|c q] eqn:Q.
  - split; [contradiction|]. intros [H _]. congruence.
  - rewrite In_sorted_desc, In_match_results. split.
    + intros H. split; [discriminate | exact H].
    + intros [_ H]. exact H.
Qed.

Lemma fuzzy_match_returns_exactly_witness :
  In (lit "Alex Smith", tt, 0.625)
     (fuzzy_match (lit "Alexis") [(lit "Alex Smith", tt)] default_threshold)
  /\ (default_threshold <=? 0.625) = true.
Proof.
  assert (H : In (lit "Alex Smith", tt, 0.625)
                 (fuzzy_match (lit "Alexis") [(lit "Alex Smith", tt)]
                              default_threshold))
    by (vm_compute; left; reflexivity).
  split; [exact H|].
  destruct (proj1 (@fuzzy_match_returns_exactly ascii_python unit _ _ _ _ _ _)
                  H) as (_ & _ & _ & [E|T]).
  - vm_compute in E. discriminate E.
  - exact T.
Defined.

(** C5 as stated fails: the candidate "Alex Smith" scores below the default
    threshold for the query "zzz", and it is [fuzzy_match], not its caller,
    that leaves it out of the list it returns. *)
Lemma fuzzy_match_drops_below_threshold :
  (candidate_score (lit "zzz") (lit "alex smith") default_threshold
   <? default_threshold) = true
  /\ fuzzy_match (lit "zzz") [(lit "Alex Smith", tt)] default_threshold = [].
Proof. vm_compute. split; reflexivity. Qed.

(** C6: the list that the fuzzy matcher returns is sorted by score, largest
    first, and the entries of one score are in the order of the candidates;
    the lists that [find_contact_by_name] and [find_group_chat_by_name]
    derive from it by deduplication are sorted the same way and keep the
    matcher's order (they are its list with entries left out, or the one
    entry of an exact hit). *)
Theorem ranked_lists_sorted_and_stable {py : Python} :
  (forall (V : Type) (query : pystr) (candidates : list (pystr * V))
          (threshold : float),
      descending snd (fuzzy_match query candidates threshold)
      /\ forall s : float,
          List.map fst (filter (fun e => snd e =? s)
                               (fuzzy_match query candidates threshold))
          = match lower (clean_name query) with
            | [] => []
            | q => filter (scores_as q threshold s) candidates
            end)
  /\ (forall (contacts details : dict pystr) (name : pystr),
         descending cm_score (find_contact_by_name contacts details name)
         /\ subseq (List.map contact_match_of
                             (find_contact_by_name contacts details name))
                   (contact_matches_of contacts details name))
  /\ (forall (chats : group_chats) (name : pystr),
         descending gm_score (find_group_chat_by_name chats name))
  /\ (forall (rows : list chat) (name : pystr),
         find (is_exact_chat name) rows = None ->
         subseq (List.map group_match_of
                          (find_group_chat_by_name (Chats rows) name))
                (List.map chat_match_of (chat_matches_of rows name))).
Proof.
  repeat split.
  - apply fuzzy_match_descending.
  - intros s. apply fuzzy_match_stable.
  - apply find_contact_by_name_descending.
  - apply find_contact_by_name_subseq.
  - apply find_group_chat_by_name_descending.
  - apply find_group_chat_by_name_subseq.
Qed.

Lemma ranked_lists_sorted_and_stable_witness :
  subseq (List.map group_match_of
                   (find_group_chat_by_name (dir_group_chats sample_dirs)
                                            (lit "sam")))
         (List.map chat_match_of
                   (chat_matches_of
                      [sample_chat 1 "chat100" "Sam fans";
                       sample_chat 2 "chat200" "Book club"] (lit "sam"))).
Proof.
  assert (H : find (is_exact_chat (lit "sam"))
                   [sample_chat 1 "chat100" "Sam fans";
                    sample_chat 2 "chat200" "Book club"] = None)
    by (vm_compute; reflexivity).
  exact (proj2 (proj2 (proj2 (@ranked_lists_sorted_and_stable ascii_python)))
               _ _ H).
Defined.

(** C4: no two entries of a ranked list share their address, the phone for
    contacts and the AppleScript id for groups: in the lists the two
    searches return, in the lists an ambiguous report enumerates, and in the
    lists the two pairs of attributes hold after any sequence of calls. Of
    the matches of one address, the entry kept is one of them, and none of
    them scores higher. *)
Theorem no_two_entries_share_an_address {py : Python} {ms : Messenger} :
  (forall (contacts details : dict pystr) (name : pystr),
      NoDup (List.map cm_phone (find_contact_by_name contacts details name)))
  /\ (forall (chats : group_chats) (name : pystr),
         NoDup (List.map gm_applescript_id
                         (find_group_chat_by_name chats name)))
  /\ (forall (contacts details : dict pystr) (name : pystr)
             (e : contact_match) (n p : pystr) (s : float),
         In e (find_contact_by_name contacts details name) ->
         In (n, p, s) (contact_matches_of contacts details name) ->
         p = cm_phone e ->
         In (contact_match_of e) (contact_matches_of contacts details name)
         /\ (cm_score e <? s) = false)
  /\ (forall (rows : list chat) (name : pystr) (e : group_match)
             (n : pystr) (c : chat) (s : float),
         find (is_exact_chat name) rows = None ->
         In e (find_group_chat_by_name (Chats rows) name) ->
         In (n, c, s) (chat_matches_of rows name) ->
         chat_applescript_id c = gm_applescript_id e ->
         In (group_match_of e)
            (List.map chat_match_of (chat_matches_of rows name))
         /\ (gm_score e <? s) = false)
  /\ (forall (dirs : directories) (recipient message : pystr)
             (group_chat : option bool) (s : session) (w : World)
             (gs : list group_match) (cs : list contact_match),
         report_of
           (fst (fst (send_message dirs recipient message group_chat s w)))
         = Some (gs, cs) ->
         NoDup (List.map gm_applescript_id gs)
         /\ NoDup (List.map cm_phone cs))
  /\ (forall (dirs : directories) (hours : Z) (contact : option pystr)
             (s : session) (gs : list group_match)
             (cs : list contact_match),
         lookup_report_of (fst (get_recent_messages dirs hours contact s))
         = Some (gs, cs) ->
         NoDup (List.map gm_applescript_id gs)
         /\ NoDup (List.map cm_phone cs))
  /\ (forall (calls : list call) (w : World),
         session_deduplicated (send_session (fst (run_calls calls w)))
         /\ session_deduplicated
              (history_session (fst (run_calls calls w)))).
Proof.
  split; [apply find_contact_by_name_NoDup|].
  split; [apply find_group_chat_by_name_NoDup|].
  split; [apply find_contact_by_name_best|].
  split; [apply find_group_chat_by_name_best|].
  split; [apply send_message_report|].
  split; [apply get_recent_messages_report|].
  apply run_calls_deduplicated.
Qed.

(** Sam Adams matches "sam" by name (0.95) and by nickname (0.75): one
    entry, with the higher score. *)
Lemma no_two_entries_share_an_address_witness :
  (0.95 <? 0.75) = false.
Proof.
  pose (e := contact_entry sample_contacts
                           (lit "Sam Adams", lit "14155550101", 0.95)).
  assert (He : In e (find_contact_by_name sample_contacts sample_details
                                          (lit "sam")))
    by (vm_compute; left; reflexivity).
  assert (Hm : In (lit "Sammy", lit "14155550101", 0.75)
                  (contact_matches_of sample_contacts sample_details
                                      (lit "sam")))
    by (vm_compute; do 6 right; left; reflexivity).
  exact (proj2 (proj1 (proj2 (proj2
           (@no_two_entries_share_an_address ascii_python
                                             logging_messenger)))
           sample_contacts sample_details (lit "sam") e
           (lit "Sammy") (lit "14155550101") 0.75 He Hm eq_refl)).
Defined.

End MatcherClaims.

Section ResolverClaims.

(** C7: a selector whose kind contradicts the forced mode is turned down
    before the attributes are read: "group:N" with [group_chat=False] and
    "contact:N" with [group_chat=True] return the conflict error for every
    text after the colon and every state of the attributes, which stay as
    they were. *)
Theorem selector_mode_conflict_first {py : Python} {ms : Messenger} :
  forall (dirs : directories) (recipient message : pystr) (s : session)
         (w : World),
    (startswith (lower (strip recipient)) (lit "group:") = true ->
     send_message dirs recipient message (Some false) s w
     = (ModeConflict Group, s, w))
    /\ (startswith (lower (strip recipient)) (lit "contact:") = true ->
        send_message dirs recipient message (Some true) s w
        = (ModeConflict Contact, s, w)).
Proof.
  intros dirs recipient message s w. unfold send_message. split; intros H.
  - now rewrite H.
  - now rewrite (contact_prefix_not_group _ H), H.
Qed.

Lemma selector_mode_conflict_first_witness :
  send_message sample_dirs (lit "group:1") (lit "hi") (Some false)
               empty_session no_messages
  = (ModeConflict Group, empty_session, no_messages)
  /\ send_message sample_dirs (lit "Contact:99") (lit "hi") (Some true)
                  sample_session no_messages
     = (ModeConflict Contact, sample_session, no_messages).
Proof.
  split.
  - apply (proj1 (@selector_mode_conflict_first ascii_python logging_messenger
                    sample_dirs (lit "group:1") (lit "hi") empty_session
                    no_messages)).
    reflexivity.
  - apply (proj2 (@selector_mode_conflict_first ascii_python logging_messenger
                    sample_dirs (lit "Contact:99") (lit "hi") sample_session
                    no_messages)).
    reflexivity.
Defined.

(** C2: a lookup by name in [send_message] ends in one of three ways. With
    no match in either directory it returns the not-found error. With one
    match in all, a contact and no group or a group and no contact, it
    empties the attributes and returns what sending to that entry returns.
    Otherwise it stores both full lists in the attributes and returns a
    report of the first 10 entries of each list, the first 5 when both
    lists have entries. The lookup by name is the one of a recipient that
    is no selector, email or phone number, made when the readable-directory
    test of group-only mode has passed. *)
Theorem name_search_outcomes {py : Python} {ms : Messenger} :
  forall (dirs : directories) (recipient message : pystr)
         (group_chat : option bool) (s : session) (w : World),
    startswith (lower (strip recipient)) (lit "group:") = false ->
    startswith (lower (strip recipient)) (lit "contact:") = false ->
    is_email_literal (strip recipient) = false ->
    is_phone_literal (strip recipient) = false ->
    group_search_allowed dirs group_chat ->
    let G := searched_groups dirs group_chat (strip recipient) in
    let C := searched_contacts dirs group_chat (strip recipient) in
    let result := send_message dirs recipient message group_chat s w in
    (G = [] -> C = [] -> result = (NotFound (strip recipient), s, w))
    /\ (forall group, G = [group] -> C = [] ->
          result = (Delivery (fst (send_to_group group message w)),
                    empty_session, snd (send_to_group group message w)))
    /\ (forall contact, G = [] -> C = [contact] ->
          result = (Delivery (fst (send_to_contact contact message w)),
                    empty_session, snd (send_to_contact contact message w)))
    /\ (2 <= List.length G + List.length C ->
        exists o,
          result
          = (o, {| recent_matches := C; recent_group_matches := G |}, w)
          /\ report_of o
             = Some (firstn (display_cap G C) G, firstn (display_cap G C) C)
          /\ List.length (firstn (display_cap G C) G) <= display_cap G C
          /\ List.length (firstn (display_cap G C) C) <= display_cap G C
          /\ display_cap G C <= 10
          /\ (G <> [] -> C <> [] -> display_cap G C = 5)).
Proof.
  intros dirs recipient message group_chat s w H1 H2 H3 H4 Hok G C result.
  subst result. rewrite (send_message_by_name _ _ _ _ _ _ H1 H2 H3 H4).
  repeat split.
  - intros HG HC. rewrite send_by_name_cases by exact Hok.
    fold G C. now rewrite HG, HC.
  - intros group HG HC. rewrite send_by_name_cases by exact Hok.
    fold G C. now rewrite HG, HC.
  - intros contact HG HC. rewrite send_by_name_cases by exact Hok.
    fold G C. now rewrite HG, HC.
  - intros Hlen.
    destruct (@send_by_name_ambiguous _ _ dirs (strip recipient) message
                group_chat s w Hok Hlen) as (o & E & R).
    exists o. fold G C in E, R. repeat split; try assumption.
    + apply firstn_cap.
    + apply firstn_cap.
    + destruct G, C; simpl; lia.
    + intros HG HC. destruct G, C; try congruence. reflexivity.
Qed.

Lemma name_search_outcomes_witness :
  send_message sample_dirs (lit " zed ") (lit "hi") None sample_session
               no_messages
  = (NotFound (lit "zed"), sample_session, no_messages).
Proof.
  apply (proj1 (@name_search_outcomes ascii_python logging_messenger
                  sample_dirs (lit " zed ") (lit "hi") None sample_session
                  no_messages eq_refl eq_refl eq_refl eq_refl I));
    vm_compute; reflexivity.
Defined.

Example name_search_ambiguous :
  exists gs cs,
    report_of (fst (fst (send_message sample_dirs (lit "sam") (lit "hi") None
                                      empty_session no_messages)))
    = Some (gs, cs)
    /\ List.length gs = 1 /\ List.length cs = 5
    /\ snd (fst (send_message sample_dirs (lit "sam") (lit "hi") None
                              empty_session no_messages))
       = sample_session
    /\ List.length (recent_matches sample_session) = 6.
Proof. vm_compute. do 2 eexists. repeat split. Qed.

(** C3, as the code has it: in [send_message] a selector with a valid
    index sends to the selected entry of the attribute and returns what the
    transport returns; both attributes are emptied when that result does
    not start with "Error", and only then, so a failed send leaves them for
    another try. In [get_recent_messages] a selector with a valid index
    only reads the selected entry (the group's room name, the contact's
    phone) and leaves both attributes as they were. *)
Theorem selector_call_and_session {py : Python} {ms : Messenger} :
  forall (dirs : directories) (recipient message : pystr)
         (group_chat : option bool) (s : session) (w : World) (index : nat),
    selector_index_of (strip recipient) = Index index ->
    (forall group,
        startswith (lower (strip recipient)) (lit "group:") = true ->
        group_chat <> Some false ->
        nth_error (recent_group_matches s) index = Some group ->
        let sent := send_to_group group message w in
        send_message dirs recipient message group_chat s w
        = (Delivery (fst sent),
           (if is_error (fst sent) then s else empty_session), snd sent)
        /\ (snd (fst (send_message dirs recipient message group_chat s w))
            = empty_session <-> is_error (fst sent) = false))
    /\ (forall contact,
           startswith (lower (strip recipient)) (lit "contact:") = true ->
           group_chat <> Some true ->
           nth_error (recent_matches s) index = Some contact ->
           let sent := send_to_contact contact message w in
           send_message dirs recipient message group_chat s w
           = (Delivery (fst sent),
              (if is_error (fst sent) then s else empty_session), snd sent)
           /\ (snd (fst (send_message dirs recipient message group_chat s w))
               = empty_session <-> is_error (fst sent) = false))
    /\ (forall hours group,
           (0 <= hours <= MAX_HOURS)%Z ->
           startswith (lower (strip recipient)) (lit "group:") = true ->
           nth_error (recent_group_matches s) index = Some group ->
           get_recent_messages dirs hours (Some recipient) s
           = (Query (gm_room_name group) None, s))
    /\ (forall hours contact,
           (0 <= hours <= MAX_HOURS)%Z ->
           startswith (lower (strip recipient)) (lit "contact:") = true ->
           nth_error (recent_matches s) index = Some contact ->
           is_address_literal (cm_phone contact) = true ->
           get_recent_messages dirs hours (Some recipient) s
           = (Query None (Some (cm_phone contact)), s)).
Proof.
  intros dirs recipient message group_chat s w index Hi.
  split; [|split; [|split]].
  - intros group Hp Hm Hn sent.
    pose proof (@nth_error_nonempty _ _ _ _ Hn) as Hne.
    assert (E : send_message dirs recipient message group_chat s w
                = (Delivery (fst sent),
                   (if is_error (fst sent) then s else empty_session),
                   snd sent)).
    { rewrite (send_message_group_selector dirs _ message _ w Hp Hm Hi Hne).
      rewrite Hn. subst sent.
      destruct (send_to_group group message w) as [result w'].
      apply after_selected_send_eq. }
    split; [exact E|]. rewrite E. simpl.
    destruct (is_error (fst sent)); split; try congruence; try reflexivity.
    intros Es. rewrite Es in Hne. now contradiction Hne.
  - intros contact Hp Hm Hn sent.
    pose proof (@nth_error_nonempty _ _ _ _ Hn) as Hne.
    assert (E : send_message dirs recipient message group_chat s w
                = (Delivery (fst sent),
                   (if is_error (fst sent) then s else empty_session),
                   snd sent)).
    { rewrite (send_message_contact_selector dirs _ message _ w Hp Hm Hi Hne).
      rewrite Hn. subst sent.
      destruct (send_to_contact contact message w) as [result w'].
      apply after_selected_send_eq. }
    split; [exact E|]. rewrite E. simpl.
    destruct (is_error (fst sent)); split; try congruence; try reflexivity.
    intros Es. rewrite Es in Hne. now contradiction Hne.
  - intros hours group Hh Hp Hn.
    now apply get_recent_messages_group_selector with (index := index).
  - intros hours contact Hh Hp Hn Hl.
    now apply get_recent_messages_contact_selector with (index := index).
Qed.

(** "contact:2" after the search for "sam": the message goes to Sam Baker
    and the attributes are emptied. *)
Lemma selector_call_and_session_witness :
  send_message sample_dirs (lit "contact:2") (lit "hi") None sample_session
               no_messages
  = (Delivery (lit "Message sent successfully to Sam Baker"), empty_session,
     [lit "14155550102"]).
Proof.
  refine (proj1 (proj1 (proj2 (@selector_call_and_session ascii_python
                    logging_messenger sample_dirs (lit "contact:2")
                    (lit "hi") None sample_session no_messages 1 eq_refl))
                 (contact_entry sample_contacts
                    (lit "Sam Baker", lit "14155550102", 0.95%float))
                 eq_refl _ _)).
  - discriminate.
  - vm_compute. reflexivity.
Defined.

(** C3 as stated fails for the attributes of [get_recent_messages]:
    "contact:1" after the search for "sam" selects Sam Adams, the lookup
    goes on with that phone, and the attributes still hold the lists. *)
Lemma history_selector_keeps_session :
  get_recent_messages sample_dirs 24 (Some (lit "contact:1")) sample_session
  = (Query None (Some (lit "14155550101")), sample_session)
  /\ sample_session <> empty_session.
Proof.
  split.
  - vm_compute. reflexivity.
  - intros E. apply (f_equal (fun s => List.length (recent_matches s))) in E.
    vm_compute in E. discriminate E.
Qed.

(** C10: an ambiguous lookup by name stores the full lists, not the lists
    of the report: afterwards the attributes are the two lists of matches,
    a selector whose index is within the full list (beyond the 5 or 10
    entries shown or not) is sent to that entry, and the bound in the error
    of an index that is too large is the length of the full list. *)
Theorem session_holds_full_lists {py : Python} {ms : Messenger} :
  forall (dirs : directories) (recipient message : pystr)
         (group_chat : option bool) (s : session) (w : World),
    startswith (lower (strip recipient)) (lit "group:") = false ->
    startswith (lower (strip recipient)) (lit "contact:") = false ->
    is_email_literal (strip recipient) = false ->
    is_phone_literal (strip recipient) = false ->
    group_search_allowed dirs group_chat ->
    let G := searched_groups dirs group_chat (strip recipient) in
    let C := searched_contacts dirs group_chat (strip recipient) in
    2 <= List.length G + List.length C ->
    let s1 := snd (fst (send_message dirs recipient message group_chat s w)) in
    let w1 := snd (send_message dirs recipient message group_chat s w) in
    recent_matches s1 = C /\ recent_group_matches s1 = G /\ w1 = w
    /\ (forall (dirs2 : directories) (selector message2 : pystr)
               (group_chat2 : option bool) (index : nat),
           selector_index_of (strip selector) = Index index ->
           startswith (lower (strip selector)) (lit "contact:") = true ->
           group_chat2 <> Some true ->
           (forall contact,
               nth_error C index = Some contact ->
               send_message dirs2 selector message2 group_chat2 s1 w1
               = after_selected_send s1
                   (send_to_contact contact message2 w1))
           /\ (C <> [] -> List.length C <= index ->
               send_message dirs2 selector message2 group_chat2 s1 w1
               = (SelectorError Contact (InvalidSelection (List.length C)),
                  s1, w1)))
    /\ (forall (dirs2 : directories) (selector message2 : pystr)
               (group_chat2 : option bool) (index : nat),
           selector_index_of (strip selector) = Index index ->
           startswith (lower (strip selector)) (lit "group:") = true ->
           group_chat2 <> Some false ->
           (forall group,
               nth_error G index = Some group ->
               send_message dirs2 selector message2 group_chat2 s1 w1
               = after_selected_send s1 (send_to_group group message2 w1))
           /\ (G <> [] -> List.length G <= index ->
               send_message dirs2 selector message2 group_chat2 s1 w1
               = (SelectorError Group (InvalidSelection (List.length G)),
                  s1, w1))).
Proof.
  intros dirs recipient message group_chat s w H1 H2 H3 H4 Hok G C Hlen.
  rewrite (send_message_by_name _ _ _ _ _ _ H1 H2 H3 H4).
  destruct (@send_by_name_ambiguous _ _ dirs (strip recipient) message
              group_chat s w Hok Hlen) as (o & E & _).
  fold G C in E. rewrite E. cbn [fst snd].
  set (s1 := {| recent_matches := C; recent_group_matches := G |}).
  split; [reflexivity|]. split; [reflexivity|]. split; [reflexivity|].
  split.
  - intros dirs2 selector message2 group_chat2 index Hi Hp Hm. split.
    + intros contact Hn.
      pose proof (@nth_error_nonempty _ _ _ _ Hn) as Hne.
      rewrite (send_message_contact_selector dirs2 _ message2 s1 w Hp Hm Hi)
        by exact Hne.
      simpl. now rewrite Hn.
    + intros Hne Hle.
      rewrite (send_message_contact_selector dirs2 _ message2 s1 w Hp Hm Hi)
        by exact Hne.
      simpl. apply nth_error_None in Hle. now rewrite Hle.
  - intros dirs2 selector message2 group_chat2 index Hi Hp Hm. split.
    + intros group Hn.
      pose proof (@nth_error_nonempty _ _ _ _ Hn) as Hne.
      rewrite (send_message_group_selector dirs2 _ message2 s1 w Hp Hm Hi)
        by exact Hne.
      simpl. now rewrite Hn.
    + intros Hne Hle.
      rewrite (send_message_group_selector dirs2 _ message2 s1 w Hp Hm Hi)
        by exact Hne.
      simpl. apply nth_error_None in Hle. now rewrite Hle.
Qed.

(** The search for "sam" reports one group and five of six contacts;
    "contact:6" then reaches the sixth, and "contact:7" is told that the
    list has six entries. *)
Lemma session_holds_full_lists_witness :
  send_message sample_dirs (lit "contact:6") (lit "hi") None sample_session
               no_messages
  = (Delivery (lit "Message sent successfully to Sam Flynn"), empty_session,
     [lit "14155550106"])
  /\ send_message sample_dirs (lit "contact:7") (lit "hi") None sample_session
                  no_messages
     = (SelectorError Contact (InvalidSelection 6), sample_session,
        no_messages).
Proof.
  assert (Hlen : 2 <= List.length (searched_groups sample_dirs None
                                     (strip (lit "sam")))
                      + List.length (searched_contacts sample_dirs None
                                       (strip (lit "sam"))))
    by (vm_compute; repeat constructor).
  destruct (@session_holds_full_lists ascii_python logging_messenger
              sample_dirs (lit "sam") (lit "hi") None empty_session
              no_messages eq_refl eq_refl eq_refl eq_refl I Hlen)
    as (_ & _ & _ & Hsel & _).
  split.
  - destruct (Hsel sample_dirs (lit "contact:6") (lit "hi") None 5
                   eq_refl eq_refl) as [Hs _]; [discriminate|].
    assert (Hn : nth_error (searched_contacts sample_dirs None
                              (strip (lit "sam"))) 5
                 = Some (contact_entry sample_contacts
                           (lit "Sam Flynn", lit "14155550106", 0.95%float)))
      by (vm_compute; reflexivity).
    specialize (Hs _ Hn). vm_compute in Hs. vm_compute. exact Hs.
  - destruct (Hsel sample_dirs (lit "contact:7") (lit "hi") None 6
                   eq_refl eq_refl) as [_ He]; [discriminate|].
    assert (Hne : searched_contacts sample_dirs None (strip (lit "sam"))
                  <> []) by (vm_compute; discriminate).
    assert (Hle : List.length (searched_contacts sample_dirs None
                                 (strip (lit "sam"))) <= 6)
      by (vm_compute; repeat constructor).
    specialize (He Hne Hle). vm_compute in He. vm_compute. exact He.
Defined.

(** C9: the lookup of a phone number tries the digits of the number and,
    for eleven or more digits with a leading "1", the digits without it,
    or, for exactly ten digits, the digits behind a "1". So a handle or a
    contact stored as "14155550100" is found by the queries "4155550100",
    "+1 (415) 555-0100" and "415-555-0100", by [find_handle_by_phone] and
    by [get_contact_name]; and [find_handle_by_phone] finds a handle
    whenever one is stored under a format it tries. *)
Theorem phone_variants_are_tried {py : Python} :
  (forall n f : pystr,
      In f (formats_to_try n) <->
      f = n
      \/ (startswith n [ONE] = true /\ 10 < List.length n /\ f = tl n)
      \/ (List.length n = 10 /\ f = ONE :: n))
  /\ (forall query : pystr,
         In query [lit "4155550100"; lit "+1 (415) 555-0100";
                   lit "415-555-0100"] ->
         In (lit "14155550100")
            (formats_to_try (normalize_phone_number query))
         /\ (forall (rowid : Z) (chat_count : nat),
                find_handle_by_phone
                  (Handles [{| h_rowid := rowid;
                               h_id := lit "14155550100";
                               h_chat_count := chat_count |}]) query
                = Some rowid)
         /\ (forall (name : pystr) (display_name : option pystr),
                get_contact_name (Some query) [(lit "14155550100", name)]
                                 display_name
                = name))
  /\ (forall (rows : list handle_row) (phone : pystr) (stored : handle_row),
         normalize_phone_number phone <> [] ->
         In stored rows ->
         In (h_id stored)
            (handle_params (formats_to_try (normalize_phone_number phone))) ->
         exists r,
           find_handle_by_phone (Handles rows) phone = Some (h_rowid r)
           /\ In r rows
           /\ In (h_id r)
                 (handle_params
                    (formats_to_try (normalize_phone_number phone)))).
Proof.
  split; [apply formats_to_try_In|].
  split; [|apply find_handle_by_phone_found].
  intros query Hq.
  assert (Hn : normalize_phone_number query = lit "4155550100"
               \/ normalize_phone_number query = lit "14155550100").
  { unfold normalize_phone_number.
    destruct Hq as [<-|[<-|[<-|[]]]];
      rewrite filter_isdigit_ascii
        by (vm_compute; repeat constructor);
      vm_compute; auto. }
  unfold find_handle_by_phone, get_contact_name, addressbook_name.
  destruct Hn as [-> | ->]; (split; [|split]).
  - vm_compute. auto.
  - intros rowid chat_count. reflexivity.
  - intros name display_name. reflexivity.
  - vm_compute. auto.
  - intros rowid chat_count. reflexivity.
  - intros name display_name. reflexivity.
Qed.

Lemma phone_variants_are_tried_witness :
  In (lit "14155550100")
     (formats_to_try (normalize_phone_number (lit "+1 (415) 555-0100")))
  /\ find_handle_by_phone
       (Handles [{| h_rowid := 42; h_id := lit "14155550100";
                    h_chat_count := 1 |}]) (lit "415-555-0100")
     = Some 42%Z.
Proof.
  split.
  - apply (proj1 (proj2 (@phone_variants_are_tried ascii_python))
                 (lit "+1 (415) 555-0100")).
    right. left. reflexivity.
  - apply (proj1 (proj2 (@phone_variants_are_tried ascii_python))
                 (lit "415-555-0100")).
    right. right. left. reflexivity.
Defined.

End ResolverClaims.

Section ScenarioClaims.

(** The selector round trip: after a selector call whose send succeeds the
    attributes are empty, and the same selector is then turned down for
    want of recent matches. *)
Theorem selector_round_trip {py : Python} {ms : Messenger} :
  forall (dirs : directories) (recipient message : pystr)
         (group_chat : option bool) (s : session) (w : World) (index : nat)
         (contact : contact_match),
    selector_index_of (strip recipient) = Index index ->
    startswith (lower (strip recipient)) (lit "contact:") = true ->
    group_chat <> Some true ->
    nth_error (recent_matches s) index = Some contact ->
    is_error (fst (send_to_contact contact message w)) = false ->
    let first := send_message dirs recipient message group_chat s w in
    snd (fst first) = empty_session
    /\ forall (dirs2 : directories) (message2 : pystr),
        send_message dirs2 recipient message2 group_chat
                     (snd (fst first)) (snd first)
        = (SelectorError Contact NoRecentMatches, empty_session, snd first).
Proof.
  intros dirs recipient message group_chat s w index contact Hi Hp Hm Hn Hok
         first.
  assert (E : snd (fst first) = empty_session).
  { subst first.
    rewrite (send_message_contact_selector dirs _ message s w Hp Hm Hi)
      by exact (@nth_error_nonempty _ _ _ _ Hn).
    rewrite Hn. destruct (send_to_contact contact message w) as [result w'].
    simpl in Hok. rewrite after_selected_send_eq, Hok. reflexivity. }
  split; [exact E|]. intros dirs2 message2. rewrite E.
  unfold send_message.
  rewrite (contact_prefix_not_group _ Hp), Hp, Hi.
  destruct group_chat as [[|]|]; try congruence; reflexivity.
Qed.

Lemma selector_round_trip_witness :
  send_message sample_dirs (lit "contact:1") (lit "again") None empty_session
               [lit "14155550101"]
  = (SelectorError Contact NoRecentMatches, empty_session,
     [lit "14155550101"]).
Proof.
  assert (Hn : nth_error (recent_matches sample_session) 0
               = Some (contact_entry sample_contacts
                         (lit "Sam Adams", lit "14155550101", 0.95%float)))
    by (vm_compute; reflexivity).
  destruct (@selector_round_trip ascii_python logging_messenger sample_dirs
              (lit "contact:1") (lit "hi") None sample_session no_messages 0
              (contact_entry sample_contacts
                 (lit "Sam Adams", lit "14155550101", 0.95%float))
              eq_refl eq_refl) as [_ H2].
  - discriminate.
  - exact Hn.
  - vm_compute. reflexivity.
  - specialize (H2 sample_dirs (lit "again")). vm_compute in H2.
    vm_compute. exact H2.
Defined.

(** The exact-token scenario on ASCII text: "Alex" against "Alex Smith" is
    an exact token match, 0.95; "Alexis" against the same label falls to
    the ratio with the whole label, 0.625. *)
Theorem exact_token_outscores_fuzzy :
  candidate_score (lower (clean_name (lit "Alex")))
                  (lower (clean_name (lit "Alex Smith"))) default_threshold
  = 0.95%float
  /\ candidate_score (lower (clean_name (lit "Alexis")))
                     (lower (clean_name (lit "Alex Smith")))
                     default_threshold
     = 0.625%float
  /\ (0.625 <? 0.95)%float = true.
Proof. vm_compute. repeat split. Qed.

(** An email or phone literal is sent to directly, without a search and
    without touching the attributes, and is refused in group-only mode. *)
Theorem literals_resolve_directly {py : Python} {ms : Messenger} :
  forall (dirs : directories) (recipient message : pystr)
         (group_chat : option bool) (s : session) (w : World),
    startswith (lower (strip recipient)) (lit "group:") = false ->
    startswith (lower (strip recipient)) (lit "contact:") = false ->
    (is_email_literal (strip recipient) = true ->
     send_message dirs recipient message group_chat s w
     = match group_chat with
       | Some true => (EmailInGroupMode, s, w)
       | _ =>
           let sent := _send_message_to_recipient (strip recipient) message
                                                  None false w in
           (Delivery (fst sent), s, snd sent)
       end)
    /\ (is_email_literal (strip recipient) = false ->
        is_phone_literal (strip recipient) = true ->
        send_message dirs recipient message group_chat s w
        = match group_chat with
          | Some true => (PhoneInGroupMode, s, w)
          | _ =>
              let sent :=
                _send_message_to_recipient
                  (normalize_phone_number (strip recipient)) message
                  None false w in
              (Delivery (fst sent), s, snd sent)
          end).
Proof.
  intros dirs recipient message group_chat s w H1 H2.
  unfold send_message, normalize_phone_number. rewrite H1, H2. split.
  - intros H3. rewrite H3. destruct group_chat as [[|]|]; try reflexivity;
      now destruct (_send_message_to_recipient _ _ _ _ _).
  - intros H3 H4. rewrite H3, H4. destruct group_chat as [[|]|];
      try reflexivity; now destruct (_send_message_to_recipient _ _ _ _ _).
Qed.

Lemma literals_resolve_directly_witness :
  send_message sample_dirs (lit "+1 (415) 555-0100") (lit "hi") None
               sample_session no_messages
  = (Delivery (lit "Message sent successfully to 14155550100"),
     sample_session, [lit "14155550100"]).
Proof.
  apply (proj2 (@literals_resolve_directly ascii_python logging_messenger
                  sample_dirs (lit "+1 (415) 555-0100") (lit "hi") None
                  sample_session no_messages eq_refl eq_refl));
    reflexivity.
Defined.

(** In group-only mode an unreadable group directory ends the lookup by
    name with the access error, before any search; in the other modes the
    lookup goes on, and the contacts are still searched. *)
Theorem unreadable_group_directory {py : Python} {ms : Messenger} :
  forall (dirs : directories) (recipient message error : pystr)
         (group_chat : option bool) (s : session) (w : World),
    startswith (lower (strip recipient)) (lit "group:") = false ->
    startswith (lower (strip recipient)) (lit "contact:") = false ->
    is_email_literal (strip recipient) = false ->
    is_phone_literal (strip recipient) = false ->
    dir_group_chats dirs = ChatsError error ->
    (group_chat = Some true ->
     send_message dirs recipient message group_chat s w
     = (GroupAccessError error, s, w))
    /\ (group_chat <> Some true ->
        searched_groups dirs group_chat (strip recipient) = []
        /\ searched_contacts dirs group_chat (strip recipient)
           = find_contact_by_name (dir_contacts dirs)
                                  (dir_phone_to_details dirs)
                                  (strip recipient)).
Proof.
  intros dirs recipient message error group_chat s w H1 H2 H3 H4 He.
  rewrite (send_message_by_name _ _ _ _ _ _ H1 H2 H3 H4). split.
  - intros ->. unfold send_by_name. now rewrite He.
  - intros Hm. unfold searched_groups, searched_contacts. rewrite He.
    destruct group_chat as [[|]|]; try congruence; split; reflexivity.
Qed.

Lemma unreadable_group_directory_witness :
  send_message {| dir_contacts := sample_contacts;
                  dir_phone_to_details := sample_details;
                  dir_group_chats := ChatsError (lit "database is locked") |}
               (lit "sam") (lit "hi") (Some true) empty_session no_messages
  = (GroupAccessError (lit "database is locked"), empty_session,
     no_messages).
Proof.
  apply (proj1 (@unreadable_group_directory ascii_python logging_messenger
                  {| dir_contacts := sample_contacts;
                     dir_phone_to_details := sample_details;
                     dir_group_chats :=
                       ChatsError (lit "database is locked") |}
                  (lit "sam") (lit "hi") (lit "database is locked")
                  (Some true) empty_session no_messages
                  eq_refl eq_refl eq_refl eq_refl eq_refl)).
  reflexivity.
Defined.

(** The lookup by name of [get_recent_messages] differs from the one of
    [send_message]: a single group match is taken without looking at the
    contacts, a single match never empties the attributes, and contact
    matches alone leave the stored group list as it was. *)
Theorem history_lookup_by_name {py : Python} :
  forall (dirs : directories) (hours : Z) (given : pystr) (s : session),
    (0 <= hours <= MAX_HOURS)%Z ->
    strip given <> [] ->
    startswith (lower (strip given)) (lit "group:") = false ->
    startswith (lower (strip given)) (lit "contact:") = false ->
    is_address_literal (strip given) = false ->
    let contact := strip given in
    let G := find_group_chat_by_name (dir_group_chats dirs) contact in
    let C := find_contact_by_name (dir_contacts dirs)
                                  (dir_phone_to_details dirs) contact in
    let result := get_recent_messages dirs hours (Some given) s in
    (forall group, G = [group] ->
        result = (Query (gm_room_name group) (Some contact), s))
    /\ (G = [] -> C = [] -> result = (LookupNotFound contact, s))
    /\ (forall m, G = [] -> C = [m] ->
          result = (Query None (Some (cm_phone m)), s))
    /\ (G = [] -> 2 <= List.length C ->
        result
        = (LookupAmbiguousContacts (firstn 10 C),
           {| recent_matches := C;
              recent_group_matches := recent_group_matches s |}))
    /\ (2 <= List.length G -> C = [] ->
        result
        = (LookupAmbiguousGroups (firstn 10 G),
           {| recent_matches := []; recent_group_matches := G |}))
    /\ (2 <= List.length G -> C <> [] ->
        result
        = (LookupAmbiguousBoth (firstn 5 G) (firstn 5 C),
           {| recent_matches := C; recent_group_matches := G |})).
Proof.
  intros dirs hours given s Hh Hne H1 H2 H3 contact G C result.
  assert (E : result = lookup_by_name dirs contact s).
  { subst result contact. clear G C. unfold get_recent_messages.
    destruct (Z.ltb_spec hours 0); [lia|].
    destruct (Z.ltb_spec MAX_HOURS hours); [lia|].
    assert (Hg : given <> []) by (intros ->; now apply Hne).
    destruct given as [|c g] eqn:Eg; [congruence|]. rewrite <- Eg in *.
    rewrite H1, H2. unfold lookup_contact. rewrite H3.
    destruct (strip given); [now contradiction Hne | reflexivity]. }
  rewrite E. unfold lookup_by_name. fold G C.
  repeat split.
  - intros group ->. reflexivity.
  - intros -> ->. reflexivity.
  - intros m -> ->. reflexivity.
  - intros -> HC. destruct C as [|m [|m' C']]; simpl in HC; try lia.
    reflexivity.
  - intros HG ->. destruct G as [|g [|g' G']]; simpl in HG; try lia.
    reflexivity.
  - intros HG HC. destruct G as [|g [|g' G']]; simpl in HG; try lia.
    destruct C; [congruence | reflexivity].
Qed.

Lemma history_lookup_by_name_witness :
  get_recent_messages sample_dirs 24 (Some (lit "sam")) empty_session
  = (Query (Some (lit "chat100")) (Some (lit "sam")), empty_session).
Proof.
  refine (proj1 (@history_lookup_by_name ascii_python sample_dirs 24
                   (lit "sam") empty_session _ _ eq_refl eq_refl eq_refl)
                (group_entry (sample_chat 1 "chat100" "Sam fans")
                             0.95%float) _).
  - split; discriminate.
  - discriminate.
  - vm_compute. reflexivity.
Defined.

End ScenarioClaims.

(* ================================================================= *)
(** * Further properties of the code *)

(* ================================================================= *)
(** ** Tokens and queries of [fuzzy_match] *)

Section TokenFacts.

Lemma split_ws_aux_tokens (cur s : pystr) (t : pystr) :
  (forall c, In c cur -> is_space c = false) ->
  In t (split_ws_aux cur s) ->
  t <> [] /\ forall c, In c t -> is_space c = false.
Proof.
  assert (R : forall x cur',
             (forall c, In c (x :: cur') -> is_space c = false) ->
             rev (x :: cur') <> []
             /\ forall c, In c (rev (x :: cur')) -> is_space c = false).
  { intros x cur' H. split.
    - intros E. apply (f_equal (@List.length _)) in E.
      rewrite length_rev in E. discriminate.
    - intros c Hc. apply H. now apply in_rev. }
  revert cur. induction s as [|c r IH]; intros cur Hcur; simpl.
  - destruct cur as [|x cur']; simpl; [intros []|].
    intros [<-|[]]. now apply R.
  - destruct (is_space c) eqn:Ec.
    + destruct cur as [|x cur'].
      * apply IH. intros ? [].
      * simpl. intros [<-|H]; [now apply R|].
        apply (IH []); [intros ? []|exact H].
    + apply IH. intros d [<-|Hd]; auto.
Qed.

Lemma concat_split_ws_aux (cur s : pystr) :
  List.concat (split_ws_aux cur s)
  = rev cur ++ filter (fun c => negb (is_space c)) s.
Proof.
  revert cur. induction s as [|c r IH]; intros cur; simpl.
  - destruct cur; simpl; now rewrite ?app_nil_r.
  - destruct (is_space c) eqn:Ec; simpl.
    + destruct cur as [|x cur']; simpl.
      * apply (IH []).
      * rewrite (IH []). reflexivity.
    + rewrite IH. simpl. now rewrite <- app_assoc.
Qed.

(** [len(token)] and [len(query)] are never zero where [fuzzy_match]
    divides by them: [str.split] yields no empty token (its tokens hold no
    whitespace and, put together, are the text without its whitespace), and
    an empty cleaned query returns before the loop. *)
Theorem fuzzy_match_divisors_not_empty {py : Python} :
  (forall s token : pystr,
      In token (split_ws s) ->
      token <> [] /\ forall c, In c token -> is_space c = false)
  /\ (forall s : pystr,
         List.concat (split_ws s) = filter (fun c => negb (is_space c)) s)
  /\ (forall (V : Type) (query : pystr) (candidates : list (pystr * V))
             (threshold : float),
         lower (clean_name query) = [] ->
         fuzzy_match query candidates threshold = []).
Proof.
  split; [|split].
  - intros s token. apply split_ws_aux_tokens. intros ? [].
  - intros s. apply (concat_split_ws_aux [] s).
  - intros V query candidates threshold E. unfold fuzzy_match. now rewrite E.
Qed.

Lemma fuzzy_match_divisors_not_empty_witness :
  lit "Smith" <> []
  /\ fuzzy_match (lit " !! ") [(lit "Alex Smith", tt)] default_threshold = [].
Proof.
  split.
  - apply (proj1 (@fuzzy_match_divisors_not_empty ascii_python)
                 (lit " Alex  Smith ") (lit "Smith")).
    vm_compute. right. left. reflexivity.
  - apply (proj2 (proj2 (@fuzzy_match_divisors_not_empty ascii_python))).
    reflexivity.
Defined.

End TokenFacts.

Section CleaningFacts.
Context {py : Python}.
Local Open Scope float_scope.

Lemma sorted_desc_map (A B : Type) (f : A -> B) (key : A -> float)
      (key' : B -> float) (l : list A) :
  (forall x, key' (f x) = key x) ->
  sorted_desc key' (List.map f l) = List.map f (sorted_desc key l).
Proof.
  intros Hk. induction l as [|x l IH]; simpl; [reflexivity|].
  rewrite IH. generalize (sorted_desc key l). intros m.
  induction m as [|y m IHm]; simpl; [reflexivity|].
  rewrite !Hk. destruct (key x <? key y); simpl; [now rewrite IHm|].
  reflexivity.
Qed.

Lemma match_candidate_clean (V : Type) (query : pystr) (threshold : float)
      (c : pystr * V) :
  match_candidate query threshold (clean_label c)
  = List.map (@clean_result _ V) (match_candidate query threshold c).
Proof.
  destruct c as [name value]. unfold match_candidate, clean_label. simpl.
  rewrite clean_name_idempotent.
  destruct (str_eqb query (lower (clean_name name))); [reflexivity|].
  destruct (threshold <=? _); reflexivity.
Qed.

(** [fuzzy_match] sees the query and the labels through [clean_name] only:
    cleaning the query beforehand changes nothing, and cleaning the labels
    beforehand changes nothing but the labels in the entries returned. *)
Theorem fuzzy_match_ignores_cleaning :
  forall (V : Type) (query : pystr) (candidates : list (pystr * V))
         (threshold : float),
    fuzzy_match (clean_name query) candidates threshold
    = fuzzy_match query candidates threshold
    /\ fuzzy_match query (List.map (@clean_label _ V) candidates) threshold
       = List.map (@clean_result _ V)
                  (fuzzy_match query candidates threshold).
Proof.
  intros V query candidates threshold. unfold fuzzy_match. split.
  - now rewrite clean_name_idempotent.
  - destruct (lower (clean_name query)) as [|c q]; [reflexivity|].
    rewrite <- (sorted_desc_map (@clean_result _ V) snd snd)
      by (intros [[n v] s]; reflexivity).
    f_equal. unfold match_results.
    induction candidates as [|x cs IH]; [reflexivity|].
    cbn [List.map flat_map].
    now rewrite map_app, IH, match_candidate_clean.
Qed.

End CleaningFacts.

(* ================================================================= *)
(** ** What [send_message] never does *)

Section SendFacts.
Context {py : Python} {ms : Messenger}.

(** [send_message] reaches the transport only when it returns the result
    of a send: with every other outcome the world is as it was, and the
    attributes are as they were unless the outcome is an ambiguous report. *)
Theorem send_message_sends_only_on_delivery :
  forall (dirs : directories) (recipient message : pystr)
         (group_chat : option bool) (s : session) (w : World),
    let result := send_message dirs recipient message group_chat s w in
    is_delivery (fst (fst result)) = false ->
    snd result = w
    /\ (report_of (fst (fst result)) = None -> snd (fst result) = s).
Proof.
  intros dirs recipient message group_chat s w. cbv zeta.
  unfold send_message, send_by_name, after_selected_send.
  break_match; cbn [fst snd is_delivery report_of];
    try discriminate; intros _; split; try reflexivity;
    try discriminate.
Qed.

End SendFacts.

Lemma send_message_sends_only_on_delivery_witness :
  snd (send_message sample_dirs (lit "contact:0") (lit "hi") None
                    sample_session no_messages) = no_messages
  /\ snd (fst (send_message sample_dirs (lit "contact:0") (lit "hi") None
                            sample_session no_messages)) = sample_session.
Proof.
  destruct (@send_message_sends_only_on_delivery ascii_python
              logging_messenger sample_dirs (lit "contact:0") (lit "hi")
              None sample_session no_messages eq_refl) as [H1 H2].
  split; [exact H1 | apply H2; reflexivity].
Defined.

(* ================================================================= *)
(** ** The handle [find_handle_by_phone] returns *)

Section HandleFacts.

Lemma handle_before_false (a b : handle_row) :
  handle_before a b = false <->
  h_chat_count b < h_chat_count a
  \/ (h_chat_count b = h_chat_count a /\ (h_rowid b <= h_rowid a)%Z).
Proof.
  unfold handle_before.
  destruct (Nat.ltb_spec (h_chat_count a) (h_chat_count b));
    destruct (Nat.eqb_spec (h_chat_count a) (h_chat_count b));
    destruct (Z.ltb_spec (h_rowid a) (h_rowid b)); simpl;
    split; intros; try discriminate; try lia; reflexivity.
Qed.

Lemma first_handle_from_least (rows seen : list handle_row) (b : handle_row) :
  (forall x, In x (b :: seen) -> handle_before x b = false) ->
  exists r,
    fold_left (fun best r =>
                 match best with
                 | None => Some r
                 | Some b => if handle_before r b then Some r else Some b
                 end) rows (Some b) = Some r
    /\ forall x, In x (b :: seen ++ rows) -> handle_before x r = false.
Proof.
  revert seen b. induction rows as [|x rows IH]; intros seen b Hb; simpl.
  - exists b. split; [reflexivity|]. rewrite app_nil_r. exact Hb.
  - destruct (handle_before x b) eqn:E.
    + destruct (IH (b :: seen) x) as (r & Hr & Hmin).
      * intros y Hy. apply handle_before_false.
        assert (Hxb : ~ handle_before x b = false) by congruence.
        rewrite handle_before_false in Hxb.
        destruct Hy as [<-|Hy]; [lia|].
        specialize (Hb y Hy). apply handle_before_false in Hb. lia.
      * exists r. split; [exact Hr|]. intros y Hy. apply Hmin.
        simpl in Hy |- *. rewrite in_app_iff in Hy |- *. simpl in Hy.
        tauto.
    + destruct (IH (x :: seen) b) as (r & Hr & Hmin).
      * intros y [<-|[<-|Hy]]; [apply Hb; now left|exact E|].
        apply Hb. now right.
      * exists r. split; [exact Hr|]. intros y Hy. apply Hmin.
        simpl in Hy |- *. rewrite in_app_iff in Hy |- *. simpl in Hy.
        tauto.
Qed.

Lemma first_handle_least (rows : list handle_row) (r : handle_row) :
  first_handle rows = Some r ->
  In r rows /\ forall x, In x rows -> handle_before x r = false.
Proof.
  destruct rows as [|b rows]; [discriminate|].
  unfold first_handle. simpl. intros E. split.
  - destruct (first_handle_from rows b) as (r' & E' & Hin).
    rewrite E in E'. now injection E' as ->.
  - destruct (@first_handle_from_least rows [] b) as (r' & E' & Hmin).
    + intros x [<-|[]]. apply handle_before_false. lia.
    + rewrite E in E'. injection E' as ->. exact Hmin.
Qed.

(** [find_handle_by_phone] returns a handle exactly when the number
    has a digit and a row of the table is stored under one of the formats
    tried; the handle returned is then the one with the fewest chats among
    those rows and, of several with as few chats, the one with the smallest
    ROWID. An unreadable table gives [None]. *)
Theorem find_handle_by_phone_prefers_fewest_chats {py : Python} :
  forall (rows : list handle_row) (phone : pystr),
    let params :=
      handle_params (formats_to_try (normalize_phone_number phone)) in
    (find_handle_by_phone (Handles rows) phone = None <->
     normalize_phone_number phone = []
     \/ forall r, In r rows -> ~ In (h_id r) params)
    /\ (forall rowid : Z,
           find_handle_by_phone (Handles rows) phone = Some rowid ->
           exists r,
             In r rows /\ In (h_id r) params /\ h_rowid r = rowid
             /\ forall r', In r' rows -> In (h_id r') params ->
                  h_chat_count r < h_chat_count r'
                  \/ (h_chat_count r = h_chat_count r'
                      /\ (h_rowid r <= h_rowid r')%Z))
    /\ (forall error : pystr,
           find_handle_by_phone (HandlesError error) phone = None).
Proof.
  intros rows phone params. unfold find_handle_by_phone.
  fold params.
  set (results := filter (fun r => existsb (str_eqb (h_id r)) params) rows).
  assert (Hres : forall r, In r results <-> In r rows /\ In (h_id r) params).
  { intros r. unfold results. rewrite filter_In.
    now rewrite existsb_str_eqb. }
  destruct (normalize_phone_number phone) as [|c n] eqn:En.
  { split; [|split]; try reflexivity; try discriminate.
    split; auto. }
  split; [|split]; [| |reflexivity].
  - destruct (first_handle results) as [r|] eqn:E; simpl.
    + split; [discriminate|]. intros [H|H]; [discriminate|].
      apply first_handle_least in E as [Hin _].
      apply Hres in Hin as [H1 H2]. now destruct (H r H1).
    + split; [|reflexivity]. intros _. right. intros r H1 H2.
      destruct (@first_handle_Some results) as (r' & E' & _).
      * intros Z. assert (Hin : In r results) by (apply Hres; auto).
        rewrite Z in Hin. contradiction.
      * congruence.
  - intros rowid E.
    destruct (first_handle results) as [r|] eqn:Er; [|discriminate].
    simpl in E. injection E as <-.
    apply first_handle_least in Er as [Hin Hmin].
    apply Hres in Hin as [H1 H2].
    exists r. repeat split; auto.
    intros r' H1' H2'. apply handle_before_false. apply Hmin.
    apply Hres. auto.
Qed.

End HandleFacts.

Lemma find_handle_by_phone_prefers_fewest_chats_witness :
  find_handle_by_phone
    (Handles [{| h_rowid := 7; h_id := lit "+14155550100";
                 h_chat_count := 3 |};
              {| h_rowid := 9; h_id := lit "4155550100";
                 h_chat_count := 1 |};
              {| h_rowid := 4; h_id := lit "14155550199";
                 h_chat_count := 0 |}])
    (lit "(415) 555-0100") = Some 9%Z
  /\ exists r,
       h_rowid r = 9%Z /\ h_chat_count r <= 3.
Proof.
  split; [reflexivity|].
  destruct (@find_handle_by_phone_prefers_fewest_chats ascii_python
              [{| h_rowid := 7; h_id := lit "+14155550100";
                  h_chat_count := 3 |};
               {| h_rowid := 9; h_id := lit "4155550100";
                  h_chat_count := 1 |};
               {| h_rowid := 4; h_id := lit "14155550199";
                  h_chat_count := 0 |}]
              (lit "(415) 555-0100")) as (_ & H & _).
  destruct (H 9%Z eq_refl) as (r & _ & _ & Hr & Hmin).
  exists r. split; [exact Hr|].
  destruct (Hmin {| h_rowid := 7; h_id := lit "+14155550100";
                    h_chat_count := 3 |}) as [L|[L _]];
    [left; reflexivity | vm_compute; tauto | simpl in L; lia
     | simpl in L; lia].
Defined.

(* ================================================================= *)
(** ** The address book of [process_contacts] *)

Section MoreDictFacts.
Variables V W : Type.

Lemma dict_get_set (d : dict V) (k k' : pystr) (v : V) :
  dict_get (dict_set d k v) k'
  = if str_eqb k k' then Some v else dict_get d k'.
Proof.
  induction d as [|[k0 v0] d IH]; simpl; [reflexivity|].
  destruct (str_eqb k0 k) eqn:E; simpl.
  - apply str_eqb_eq in E. subst k0.
    destruct (str_eqb k k'); reflexivity.
  - rewrite IH. destruct (str_eqb k0 k') eqn:E'; [|reflexivity].
    apply str_eqb_eq in E'. subst k0. now rewrite (proj2 (str_eqb_neq k k'))
      by (apply str_eqb_neq in E; congruence).
Qed.

Lemma dict_keys_set (d : dict V) (k : pystr) (v : V) :
  dict_keys (dict_set d k v)
  = if dict_has d k then dict_keys d else dict_keys d ++ [k].
Proof.
  unfold dict_has.
  induction d as [|[k0 v0] d IH]; simpl; [reflexivity|].
  destruct (str_eqb k0 k) eqn:E; simpl; [reflexivity|].
  rewrite IH. destruct (dict_get d k); reflexivity.
Qed.

Lemma dict_set_map (f : V -> W) (d : dict V) (k : pystr) (v : V) :
  List.map (fun e => (fst e, f (snd e))) (dict_set d k v)
  = dict_set (List.map (fun e => (fst e, f (snd e))) d) k (f v).
Proof.
  induction d as [|[k0 v0] d IH]; simpl; [reflexivity|].
  destruct (str_eqb k0 k); simpl; [reflexivity|]. now rewrite IH.
Qed.

Lemma In_dict_set (d : dict V) (k k' : pystr) (v v' : V) :
  In (k', v') (dict_set d k v) -> (k' = k /\ v' = v) \/ In (k', v') d.
Proof.
  induction d as [|[k0 v0] d IH]; simpl.
  - intros [H|[]]. injection H as <- <-. auto.
  - destruct (str_eqb k0 k) eqn:E; simpl.
    + apply str_eqb_eq in E. subst k0. intros [H|H]; [|auto].
      injection H as <- <-. auto.
    + intros [H|H]; [auto|]. destruct (IH H); auto.
Qed.

Lemma NoDup_dict_set (d : dict V) (k : pystr) (v : V) :
  NoDup (dict_keys d) -> NoDup (dict_keys (dict_set d k v)).
Proof.
  intros H. rewrite dict_keys_set. unfold dict_has.
  destruct (dict_get d k) eqn:G; [exact H|].
  apply dict_get_None in G.
  apply NoDup_rev in H. rewrite <- (rev_involutive (_ ++ _)).
  apply NoDup_rev. rewrite rev_app_distr. simpl. constructor; [|exact H].
  intros Hin. apply G. now apply in_rev.
Qed.

Lemma dict_get_In (d : dict V) (k : pystr) (v : V) :
  NoDup (dict_keys d) -> In (k, v) d -> dict_get d k = Some v.
Proof.
  induction d as [|[k0 v0] d IH]; simpl; [tauto|].
  intros Hn [H|H].
  - injection H as -> ->. now rewrite str_eqb_refl.
  - inversion Hn as [|? ? Hk Hd]. subst.
    destruct (str_eqb k0 k) eqn:E; [|auto].
    apply str_eqb_eq in E. subst k0. exfalso. apply Hk.
    unfold dict_keys. change k with (fst (k, v)). now apply in_map.
Qed.

Lemma dict_get_map (f : V -> W) (d : dict V) (k : pystr) :
  dict_get (List.map (fun e => (fst e, f (snd e))) d) k
  = option_map f (dict_get d k).
Proof.
  induction d as [|[k0 v0] d IH]; simpl; [reflexivity|].
  destruct (str_eqb k0 k); [reflexivity | exact IH].
Qed.

End MoreDictFacts.

Section AddressBookFacts.
Context {py : Python}.

Lemma forallb_filter (A : Type) (p : A -> bool) (l : list A) :
  forallb p (filter p l) = true.
Proof.
  induction l as [|x l IH]; simpl; [reflexivity|].
  destruct (p x) eqn:E; simpl; [now rewrite E|exact IH].
Qed.

Lemma process_contact_consistent (book : address_book) (c : contact_row) :
  book_consistent book -> book_consistent (process_contact book c).
Proof.
  intros H. pose proof H as (Hd & Hn & Hk & Hr). unfold process_contact.
  destruct (row_phone c) as [[|x phone]|]; try exact H.
  set (ph := if has_sub (x :: phone) X_IMAGETYPE
             then before_sep (x :: phone) X_IMAGETYPE else x :: phone).
  set (full := join [SPACE] (filter nonempty _)).
  destruct (strip full) as [|y st] eqn:Es; [exact H|].
  destruct (normalize_phone_number ph) as [|z np] eqn:En; [exact H|].
  clear H.
  unfold book_consistent. cbn [contacts_map name_to_numbers phone_to_details].
  split; [|split; [|split]].
  - rewrite dict_set_map. cbn [d_full_name]. now rewrite Hd.
  - now apply NoDup_dict_set.
  - intros p name Hin. apply In_dict_set in Hin as [[-> ->]|Hin];
      [|now apply Hk].
    split; [discriminate|]. split; [|rewrite Es; discriminate].
    rewrite <- En. apply forallb_filter.
  - intros p name. rewrite dict_get_set.
    destruct (str_eqb (z :: np) p) eqn:E.
    + apply str_eqb_eq in E. subst p. intros H. injection H as <-.
      rewrite dict_get_set, str_eqb_refl. eexists. split; [reflexivity|].
      apply in_or_app. right. now left.
    + intros H. destruct (Hr p name H) as (numbers & G & Hin).
      rewrite dict_get_set. destruct (str_eqb full name) eqn:E'.
      * apply str_eqb_eq in E'. subst name. eexists. split; [reflexivity|].
        unfold dict_get_default. rewrite G. apply in_or_app. now left.
      * exists numbers. auto.
Qed.

(** Whatever the rows, the dictionaries [process_contacts] builds agree
    with each other: the details and the names have the same numbers, in
    the same order, and the same full names; no number is there twice;
    every number is a non-empty string of digits and every name is not
    blank; and every number is listed under its name in the reverse
    lookup. *)
Theorem process_contacts_consistent :
  forall contacts : list contact_row,
    book_consistent (process_contacts contacts).
Proof.
  intros contacts. unfold process_contacts.
  assert (H : book_consistent empty_book).
  { unfold book_consistent. simpl. split; [reflexivity|].
    split; [constructor|]. split; [tauto | discriminate]. }
  revert H. generalize empty_book.
  induction contacts as [|c cs IH]; intros book H; simpl; [exact H|].
  apply IH. now apply process_contact_consistent.
Qed.

End AddressBookFacts.

Section SearchOverBook.
Context {py : Python}.
Local Open Scope float_scope.

Lemma fuzzy_match_In (V : Type) (query : pystr)
      (candidates : list (pystr * V)) (threshold : float)
      (e : pystr * V * float) :
  In e (fuzzy_match query candidates threshold) -> In (fst e) candidates.
Proof.
  unfold fuzzy_match. destruct (lower (clean_name query)) as [|c q];
    [intros []|].
  intros H. apply In_sorted_desc in H. destruct e as [[n v] s].
  now apply In_match_results in H as [H _].
Qed.

Lemma forallb_weaken (A : Type) (p q : A -> bool) (l : list A) :
  (forall x, p x = true -> q x = true) ->
  forallb p l = true -> forallb q l = true.
Proof.
  intros H. rewrite !forallb_forall. auto.
Qed.

(** A search of the address book that [process_contacts] built returns
    book entries only: the name shown is the full name stored under the
    number, also when the nickname matched; what matched is that full name
    or the nickname of the number, which is then not empty; and the number
    is a non-empty string of digits, which both tools take for a phone
    number and leave as it is. *)
Theorem search_returns_book_entries :
  forall (contacts : list contact_row) (name : pystr) (m : contact_match),
    let book := process_contacts contacts in
    In m (find_contact_by_name (contacts_map book) (nicknames book) name) ->
    dict_get (contacts_map book) (cm_phone m) = Some (cm_name m)
    /\ (cm_matched_on m = cm_name m
        \/ (cm_matched_on m <> []
            /\ option_map d_nickname
                 (dict_get (phone_to_details book) (cm_phone m))
               = Some (cm_matched_on m)))
    /\ cm_phone m <> []
    /\ normalize_phone_number (cm_phone m) = cm_phone m
    /\ is_phone_literal (cm_phone m) = true
    /\ is_address_literal (cm_phone m) = true.
Proof.
  intros contacts name m book Hm.
  destruct (process_contacts_consistent contacts) as (Hd & Hn & Hk & _).
  fold book in Hd, Hn, Hk.
  rewrite find_contact_by_name_first in Hm.
  apply in_map_iff in Hm as ([[n p] s] & <- & Hm).
  apply (@subseq_In _ _ _ _ (first_per_key_subseq match_phone [] _)) in Hm.
  apply fuzzy_match_In in Hm. cbn [fst] in Hm.
  unfold contact_candidates in Hm. apply in_flat_map in Hm as ([p' cn] & Hc & Hm).
  assert (Hp : p = p' /\ (n = cn
                          \/ (n <> [] /\ n = dict_get_default (nicknames book)
                                                              p' []))).
  { unfold contact_candidates_of in Hm.
    destruct Hm as [Hm|Hm]; [injection Hm as <- <-; auto|].
    destruct (dict_get_default (nicknames book) p' []) as [|x nick] eqn:En;
      [destruct Hm|].
    destruct Hm as [Hm|[]]. injection Hm as <- <-.
    split; [reflexivity|]. right. split; [discriminate | reflexivity]. }
  destruct Hp as [-> Hnick].
  pose proof (@dict_get_In _ _ _ _ Hn Hc) as G.
  destruct (Hk p' cn Hc) as (Hne & Hdig & _).
  cbn [contact_entry cm_name cm_phone cm_matched_on].
  unfold dict_get_default at 1 2. rewrite G.
  split; [reflexivity|]. split.
  { destruct Hnick as [->|[Hn1 Hn2]]; [now left|]. right.
    split; [exact Hn1|].
    unfold dict_get_default, nicknames in Hn2. rewrite dict_get_map in Hn2.
    destruct (dict_get (phone_to_details book) p') as [d|]; simpl in *;
      congruence. }
  split; [exact Hne|]. split.
  { unfold normalize_phone_number. apply filter_id.
    now apply forallb_forall. }
  split; eapply forallb_weaken; try exact Hdig;
    intros x Hx; now rewrite Hx.
Qed.

End SearchOverBook.

Lemma search_returns_book_entries_witness :
  dict_get (contacts_map (process_contacts sample_rows)) (lit "14155550101")
  = Some (lit "Sam Adams")
  /\ is_phone_literal (lit "14155550101") = true.
Proof.
  assert (Hin : In (contact_entry (contacts_map (process_contacts sample_rows))
                      (lit "Sammy", lit "14155550101", 1.0%float))
                   (find_contact_by_name
                      (contacts_map (process_contacts sample_rows))
                      (nicknames (process_contacts sample_rows))
                      (lit "sammy")))
    by (vm_compute; left; reflexivity).
  destruct (@search_returns_book_entries ascii_python sample_rows
              (lit "sammy") _ Hin) as (H1 & _ & _ & _ & H5 & _).
  split; [exact H1 | exact H5].
Defined.

Section RowFacts.
Context {py : Python}.

Lemma before_sep_all (s sep : pystr) :
  has_sub s sep = false -> before_sep s sep = s.
Proof.
  induction s as [|c r IH]; simpl; [reflexivity|].
  destruct sep as [|x sep]; [discriminate|].
  destruct (char_eqb c x && startswith r sep); simpl; [discriminate|].
  intros H. now rewrite IH.
Qed.

Lemma process_contact_get (book : address_book) (c : contact_row)
      (p : pystr) :
  p <> [] ->
  dict_get (contacts_map (process_contact book c)) p
  = if stored_under p c then Some (row_full_name c)
    else dict_get (contacts_map book) p.
Proof.
  intros Hp. unfold process_contact, stored_under, row_number, row_full_name.
  destruct (row_phone c) as [[|x phone]|]; cbn [or_empty].
  - simpl. destruct p; [congruence | reflexivity].
  - set (ph := if has_sub (x :: phone) X_IMAGETYPE
               then before_sep (x :: phone) X_IMAGETYPE else x :: phone).
    assert (E : ph = before_sep (x :: phone) X_IMAGETYPE).
    { unfold ph. destruct (has_sub (x :: phone) X_IMAGETYPE) eqn:H;
        [reflexivity|]. now rewrite before_sep_all. }
    rewrite E. set (full := join [SPACE] _).
    destruct (strip full) as [|y st]; cbn [nonempty].
    + now rewrite andb_false_r.
    + rewrite andb_true_r.
      destruct (normalize_phone_number _) as [|z np] eqn:En.
      * destruct p; [congruence | reflexivity].
      * cbn [contacts_map]. apply dict_get_set.
  - simpl. destruct p; [congruence | reflexivity].
Qed.

Lemma process_contacts_get (contacts : list contact_row)
      (book : address_book) (p : pystr) :
  p <> [] ->
  dict_get (contacts_map (fold_left process_contact contacts book)) p
  = match find (stored_under p) (rev contacts) with
    | Some c => Some (row_full_name c)
    | None => dict_get (contacts_map book) p
    end.
Proof.
  intros Hp. revert book.
  induction contacts as [|c cs IH] using rev_ind; intros book;
    [reflexivity|].
  rewrite fold_left_app, rev_app_distr. simpl.
  rewrite (process_contact_get _ _ Hp).
  destruct (stored_under p c); [reflexivity | apply IH].
Qed.

(** The name [process_contacts] stores under a number is the full name of
    the last row of that number whose name is not blank, where the number
    of a row is made of the digits before ["X-IMAGETYPE"]; a number of no
    such row is not stored. *)
Theorem process_contacts_last_row_wins :
  forall (contacts : list contact_row) (p : pystr),
    p <> [] ->
    dict_get (contacts_map (process_contacts contacts)) p
    = option_map row_full_name (find (stored_under p) (rev contacts)).
Proof.
  intros contacts p Hp. unfold process_contacts.
  rewrite (process_contacts_get _ _ Hp).
  destruct (find _ _); reflexivity.
Qed.

End RowFacts.

Lemma process_contacts_last_row_wins_witness :
  dict_get (contacts_map (process_contacts sample_rows)) (lit "4155550102")
  = Some (lit "Alex").
Proof.
  apply (@process_contacts_last_row_wins ascii_python sample_rows
           (lit "4155550102")).
  discriminate.
Defined.

(* ================================================================= *)
(** ** The group directory of [get_group_chats] *)

Section GroupRowFacts.
Context {py : Python} {ms : Messenger}.
Local Open Scope float_scope.

Lemma find_group_chat_by_name_entry (chats : list chat) (name : pystr)
      (g : group_match) :
  In g (find_group_chat_by_name (Chats chats) name) ->
  exists c s, In c chats /\ g = group_entry c s.
Proof.
  destruct (find (is_exact_chat name) chats) as [c|] eqn:Hf.
  - unfold find_group_chat_by_name. rewrite Hf. intros [<-|[]].
    apply find_some in Hf as [Hin _]. eauto.
  - rewrite (find_group_chat_by_name_first _ _ Hf). intros Hg.
    apply in_map_iff in Hg as ([[n c] s] & <- & Hg).
    apply (@subseq_In _ _ _ _ (first_per_key_subseq match_chat_id [] _))
      in Hg.
    apply fuzzy_match_In in Hg. cbn [fst] in Hg.
    apply in_flat_map in Hg as (c' & Hc & Hg).
    exists c, s. split; [|reflexivity].
    unfold group_candidate_of in Hg.
    assert (Hcc : c = c'); [|now subst].
    destruct (chat_display_name c') as [[|? ?]|];
      destruct (chat_room_name c') as [[|? ?]|];
      destruct (chat_chat_identifier c') as [[|? ?]|];
      simpl in Hg; try tauto;
      destruct Hg as [Hg|[]]; congruence.
Qed.

(** Every entry of a search of the directory that [get_group_chats] builds
    from rows with a room name has a name and a room name, and its two ids
    are a service, which is not empty, and ["any"], each followed by
    [";+;"] and the chat identifier of its row or, for want of one, the
    room name. The alternative id is never empty, so a send to the entry
    that fails is always tried again with it. *)
Theorem group_entries_of_rows :
  forall (rows : list chat_row) (name : pystr) (g : group_match),
    forallb has_room_name rows = true ->
    In g (find_group_chat_by_name (group_chats_of_rows rows) name) ->
    truthy (gm_name g) = true
    /\ (exists (row : chat_row) (service id : pystr),
           In row rows
           /\ gm_chat_id g = cr_rowid row
           /\ gm_room_name g = cr_room_name row
           /\ service <> [] /\ id <> []
           /\ py_or (cr_chat_identifier row) (cr_room_name row) = Some id
           /\ gm_applescript_id g = service ++ lit ";+;" ++ id
           /\ gm_applescript_id_alt g = lit "any;+;" ++ id)
    /\ (forall (message : pystr) (w : World),
           send_to_group g message w
           = let first :=
               _send_message_to_recipient (gm_applescript_id g) message
                                          (gm_name g) true w in
             if is_error (fst first)
             then _send_message_to_recipient (gm_applescript_id_alt g)
                                             message (gm_name g) true
                                             (snd first)
             else first).
Proof.
  intros rows name g Hw Hg.
  apply find_group_chat_by_name_entry in Hg as (c & s & Hc & ->).
  apply in_map_iff in Hc as (row & <- & Hrow).
  rewrite forallb_forall in Hw. specialize (Hw row Hrow).
  unfold has_room_name in Hw.
  destruct (cr_room_name row) as [[|x room]|] eqn:Er; try discriminate.
  split; [|split].
  - unfold group_entry, chat_of_row. cbn. rewrite Er.
    destruct (cr_display_name row) as [[|? ?]|]; reflexivity.
  - exists row.
    exists (format_opt (py_or (cr_service_name row) (Some (lit "iMessage")))).
    exists (format_opt (py_or (cr_chat_identifier row) (cr_room_name row))).
    rewrite Er. cbn [group_entry chat_of_row gm_chat_id gm_room_name
                     gm_applescript_id gm_applescript_id_alt chat_rowid
                     chat_room_name chat_applescript_id
                     chat_applescript_id_alt].
    rewrite Er.
    split; [exact Hrow|]. split; [reflexivity|]. split; [reflexivity|].
    split; [destruct (cr_service_name row) as [[|? ?]|]; discriminate|].
    split; [destruct (cr_chat_identifier row) as [[|? ?]|]; discriminate|].
    split; [destruct (cr_chat_identifier row) as [[|? ?]|]; reflexivity|].
    split; reflexivity.
  - intros message w. unfold send_to_group.
    destruct (_send_message_to_recipient _ message _ true w) as [r1 w1].
    cbn [fst snd group_entry chat_of_row gm_applescript_id_alt
         chat_applescript_id_alt].
    change (truthy (Some (lit "any;+;" ++ _))) with true.
    rewrite andb_true_r. reflexivity.
Qed.

End GroupRowFacts.

Lemma group_entries_of_rows_witness :
  exists g : group_match,
    gm_applescript_id g = lit "iMessage;+;chat200"
    /\ gm_applescript_id_alt g = lit "any;+;chat200"
    /\ truthy (gm_name g) = true.
Proof.
  assert (Hin : In (group_entry (chat_of_row
                                   {| cr_rowid := 2;
                                      cr_room_name := Some (lit "chat200");
                                      cr_display_name := None;
                                      cr_chat_identifier := None;
                                      cr_service_name := None |})
                                1.0%float)
                   (find_group_chat_by_name
                      (group_chats_of_rows sample_chat_rows)
                      (lit "chat200")))
    by (vm_compute; left; reflexivity).
  destruct (@group_entries_of_rows ascii_python logging_messenger
              sample_chat_rows (lit "chat200") _ eq_refl Hin)
    as (H1 & _ & _).
  eexists. split; [|split; [|exact H1]]; reflexivity.
Defined.

(* ================================================================= *)
(** ** The body [extract_body_from_attributed] returns *)

Section SubstringFacts.

Lemma startswith_app (p sep t : pystr) :
  startswith p sep = true -> startswith (p ++ t) sep = true.
Proof.
  revert p. induction sep as [|y sep IH]; intros p;
    [intros _; now destruct (p ++ t)|].
  destruct p as [|x p]; simpl; [discriminate|].
  destruct (char_eqb x y); simpl; [apply IH | discriminate].
Qed.

Lemma startswith_self (sep t : pystr) : startswith (sep ++ t) sep = true.
Proof.
  induction sep as [|y sep IH]; simpl; [now destruct t|].
  unfold char_eqb. now rewrite N.eqb_refl.
Qed.

Lemma startswith_skipn (s sep : pystr) :
  startswith s sep = true -> s = sep ++ skipn (List.length sep) s.
Proof.
  revert s. induction sep as [|y sep IH]; intros s; [reflexivity|].
  destruct s as [|x s]; simpl; [discriminate|].
  destruct (char_eqb x y) eqn:E; simpl; [|discriminate].
  apply N.eqb_eq in E. subst y. intros H. f_equal. now apply IH.
Qed.

(** The first [length sep] characters decide [startswith]. *)
Lemma startswith_firstn (s sep : pystr) (n : nat) :
  List.length sep <= n -> startswith (firstn n s) sep = startswith s sep.
Proof.
  revert s n. induction sep as [|y sep IH]; intros s n Hn;
    [destruct (firstn n s); destruct s; reflexivity|].
  destruct n as [|n]; [simpl in Hn; lia|].
  destruct s as [|x s]; simpl; [reflexivity|].
  rewrite IH by (simpl in Hn; lia). reflexivity.
Qed.

Lemma before_sep_prefix (s sep : pystr) :
  exists t, s = before_sep s sep ++ t.
Proof.
  induction s as [|c r [t IH]]; [now exists []|].
  cbn [before_sep]. destruct (startswith (c :: r) sep).
  - now exists (c :: r).
  - exists t. simpl. now rewrite <- IH.
Qed.

Lemma has_sub_nil (sep : pystr) : sep <> [] -> has_sub [] sep = false.
Proof. destruct sep; [congruence | reflexivity]. Qed.

Lemma has_sub_cons (c : char) (r sep : pystr) :
  has_sub (c :: r) sep = startswith (c :: r) sep || has_sub r sep.
Proof. reflexivity. Qed.

Lemma has_sub_before_sep (s sep : pystr) :
  sep <> [] -> has_sub (before_sep s sep) sep = false.
Proof.
  intros Hs. induction s as [|c r IH]; [now apply has_sub_nil|].
  cbn [before_sep]. destruct (startswith (c :: r) sep) eqn:E;
    [now apply has_sub_nil|].
  rewrite has_sub_cons, IH, orb_false_r.
  destruct (before_sep_prefix r sep) as [t Ht].
  destruct (startswith (c :: before_sep r sep) sep) eqn:E'; [|reflexivity].
  apply (startswith_app _ _ t) in E'. simpl app in E'.
  rewrite <- Ht in E'. congruence.
Qed.

Lemma split_at_first (s sep : pystr) :
  has_sub s sep = true -> s = before_sep s sep ++ sep ++ after_sep s sep.
Proof.
  induction s as [|c r IH].
  - simpl. rewrite orb_false_r. destruct sep; [reflexivity | discriminate].
  - rewrite has_sub_cons. cbn [before_sep after_sep].
    destruct (startswith (c :: r) sep) eqn:E.
    + intros _. simpl app at 1. now apply startswith_skipn.
    + simpl. intros H. now rewrite <- IH.
Qed.

Lemma has_sub_app_l (s t sep : pystr) :
  has_sub s sep = true -> has_sub (s ++ t) sep = true.
Proof.
  induction s as [|c r IH].
  - simpl. rewrite orb_false_r. destruct sep; [|discriminate].
    intros _. destruct t; reflexivity.
  - simpl app. rewrite !has_sub_cons. intros H.
    apply orb_true_iff in H as [H|H]; apply orb_true_iff.
    + left. now apply (startswith_app (c :: r) sep t).
    + right. now apply IH.
Qed.

Lemma has_sub_app_r (s t sep : pystr) :
  has_sub t sep = true -> has_sub (s ++ t) sep = true.
Proof.
  intros H. induction s as [|c r IH]; [exact H|].
  simpl app. rewrite has_sub_cons, IH. apply orb_true_r.
Qed.

Lemma has_sub_inside (a s b sep : pystr) :
  has_sub (a ++ s ++ b) sep = false -> has_sub s sep = false.
Proof.
  intros H. destruct (has_sub s sep) eqn:E; [|reflexivity].
  rewrite (has_sub_app_r a _ _ (has_sub_app_l _ b _ E)) in H.
  discriminate.
Qed.

(** Where [sep] comes first after [s], the text splits there. *)
Lemma split_first_after (s sep t : pystr) :
  sep <> [] -> first_after s sep ->
  has_sub (s ++ sep ++ t) sep = true
  /\ before_sep (s ++ sep ++ t) sep = s
  /\ after_sep (s ++ sep ++ t) sep = t.
Proof.
  intros Hs. unfold first_after. induction s as [|c r IH]; intros H.
  - simpl app. destruct sep as [|y sep]; [congruence|].
    pose proof (startswith_self (y :: sep) t) as E. simpl app in E.
    simpl app. split; [|split].
    + rewrite has_sub_cons, E. reflexivity.
    + cbn [before_sep]. now rewrite E.
    + cbn [after_sep]. rewrite E.
      change (y :: sep ++ t) with ((y :: sep) ++ t).
      rewrite skipn_app, skipn_all, Nat.sub_diag. reflexivity.
  - simpl app in H. rewrite has_sub_cons in H.
    apply orb_false_iff in H as [H1 H2].
    destruct (IH H2) as (I1 & I2 & I3).
    assert (E : startswith (c :: r ++ sep ++ t) sep = false).
    { rewrite <- (@startswith_firstn _ sep
                    (List.length ((c :: r) ++ removelast sep))).
      - change (c :: r ++ sep ++ t) with ((c :: r) ++ sep ++ t).
        assert (Hsplit : sep ++ t = removelast sep ++ (last sep 0%N :: t)).
        { rewrite (app_removelast_last 0%N Hs) at 1.
          now rewrite <- app_assoc. }
        rewrite Hsplit, app_assoc, firstn_app, firstn_all, Nat.sub_diag.
        simpl firstn. rewrite app_nil_r. exact H1.
      - pose proof (f_equal (@List.length _)
                            (app_removelast_last 0%N Hs)) as L.
        rewrite length_app in L. simpl in L.
        rewrite length_app. simpl. unfold pystr, char in *. lia. }
    simpl app. split; [|split].
    + rewrite has_sub_cons, I1. apply orb_true_r.
    + cbn [before_sep]. now rewrite E, I2.
    + cbn [after_sep]. now rewrite E, I3.
Qed.

End SubstringFacts.

Section BodyFacts.

Lemma marker_not_empty :
  NSNumber <> [] /\ NSString <> [] /\ NSDictionary <> [].
Proof. repeat split; discriminate. Qed.

(** The body [extract_body_from_decoded] returns lies between the first
    ["NSString"] and the ["NSDictionary"] that follows it, less six
    characters at the front and twelve at the back, and none of the three
    markers occurs between the two; and it returns that body whenever the
    text has this layout before its first ["NSNumber"]. *)
Theorem extract_body_between_markers :
  (forall decoded body : pystr,
      extract_body_from_decoded decoded = Some body ->
      exists pre segment post : pystr,
        decoded = pre ++ NSString ++ segment ++ NSDictionary ++ post
        /\ has_sub pre NSString = false
        /\ has_sub segment NSNumber = false
        /\ has_sub segment NSString = false
        /\ has_sub segment NSDictionary = false
        /\ body = slice_6_12 segment)
  /\ (forall pre segment mid post : pystr,
         first_after pre NSString ->
         first_after segment NSDictionary ->
         has_sub (segment ++ NSDictionary ++ mid) NSString = false ->
         first_after (pre ++ NSString ++ segment ++ NSDictionary ++ mid)
                     NSNumber ->
         extract_body_from_decoded
           (pre ++ NSString ++ segment ++ NSDictionary ++ mid
                ++ NSNumber ++ post)
         = Some (slice_6_12 segment)).
Proof.
  destruct marker_not_empty as (Hn & Hs & Hd). split.
  - intros decoded body. unfold extract_body_from_decoded.
    destruct (has_sub decoded NSNumber) eqn:E1; [|discriminate].
    set (A := before_sep decoded NSNumber).
    destruct (has_sub A NSString) eqn:E2; [|discriminate].
    set (B := before_sep (after_sep A NSString) NSString).
    destruct (has_sub B NSDictionary) eqn:E3; [|discriminate].
    set (C := before_sep B NSDictionary).
    intros H. injection H as <-.
    pose proof (split_at_first _ _ E1) as S1. fold A in S1.
    pose proof (split_at_first _ _ E2) as S2.
    destruct (before_sep_prefix (after_sep A NSString) NSString) as [tB S3].
    fold B in S3.
    pose proof (split_at_first _ _ E3) as S4. fold C in S4.
    pose proof (has_sub_before_sep decoded Hn) as F1. fold A in F1.
    pose proof (has_sub_before_sep (after_sep A NSString) Hs) as F2.
    fold B in F2.
    exists (before_sep A NSString), C,
      (after_sep B NSDictionary ++ tB ++ NSNumber
                 ++ after_sep decoded NSNumber).
    split; [|split; [|split; [|split; [|split]]]].
    + rewrite S1 at 1. rewrite S2 at 1. rewrite S3 at 1. rewrite S4 at 1.
      now rewrite <- !app_assoc.
    + now apply has_sub_before_sep.
    + rewrite S2, S3, S4 in F1.
      apply (has_sub_inside (before_sep A NSString ++ NSString) C
               ((NSDictionary ++ after_sep B NSDictionary) ++ tB)).
      now rewrite <- !app_assoc in F1 |- *.
    + rewrite S4 in F2. now apply (has_sub_inside [] C _ NSString) in F2.
    + now apply has_sub_before_sep.
    + reflexivity.
  - intros pre segment mid post H1 H2 H3 H4.
    unfold extract_body_from_decoded.
    set (A := pre ++ NSString ++ segment ++ NSDictionary ++ mid) in *.
    replace (pre ++ NSString ++ segment ++ NSDictionary ++ mid
                 ++ NSNumber ++ post)
      with (A ++ NSNumber ++ post)
      by (unfold A; now rewrite <- !app_assoc).
    destruct (split_first_after post Hn H4) as (-> & -> & _).
    unfold A.
    destruct (split_first_after (segment ++ NSDictionary ++ mid) Hs H1)
      as (-> & _ & ->).
    rewrite (before_sep_all _ _ H3).
    destruct (split_first_after mid Hd H2) as (-> & -> & _).
    reflexivity.
Qed.

End BodyFacts.

Lemma extract_body_between_markers_witness :
  extract_body_from_decoded
    (lit "streamtyped NSString" ++ lit "......hello there............"
         ++ lit "NSDictionary" ++ lit " i " ++ lit "NSNumber" ++ lit " q")
  = Some (lit "hello there").
Proof.
  apply (proj2 extract_body_between_markers (lit "streamtyped ")
               (lit "......hello there............") (lit " i ") (lit " q"));
    reflexivity.
Defined.

(* ================================================================= *)
(** ** The scripts of the transport *)

Section ScriptFacts.

Lemma str_replace_app (old : char) (new a b : pystr) :
  str_replace old new (a ++ b) = str_replace old new a ++ str_replace old new b.
Proof. unfold str_replace. apply flat_map_app. Qed.

Lemma str_replace_absent (old : char) (new s : pystr) :
  contains old s = false -> str_replace old new s = s.
Proof.
  unfold contains, str_replace. induction s as [|c s IH]; simpl;
    [reflexivity|].
  intros H. apply orb_false_iff in H as [H1 H2].
  unfold char_eqb in *. rewrite N.eqb_sym, H1. simpl. now rewrite IH.
Qed.


(** In a literal, the escaped text is read as the text. *)
Lemma lex_escaped (d : pystr) (st : lexer) :
  lx_mode st = InText ->
  fold_left lex_step (escape_backslash_quote d) st
  = {| lx_mode := InText;
       lx_code := lx_code st;
       lx_current := lx_current st ++ d;
       lx_texts := lx_texts st |}.
Proof.
  revert st. induction d as [|c d IH]; intros st Hm.
  - simpl. rewrite app_nil_r. destruct st; simpl in *. now subst.
  - change (c :: d) with ([c] ++ d). unfold escape_backslash_quote.
    rewrite !str_replace_app. fold (escape_backslash_quote d).
    rewrite fold_left_app.
    assert (E : fold_left lex_step
                  (str_replace QUOTE [BACKSLASH; QUOTE]
                     (str_replace BACKSLASH [BACKSLASH; BACKSLASH] [c])) st
                = {| lx_mode := InText;
                     lx_code := lx_code st;
                     lx_current := lx_current st ++ [c];
                     lx_texts := lx_texts st |}).
    { unfold str_replace. simpl.
      destruct (char_eqb c BACKSLASH) eqn:Eb.
      - apply N.eqb_eq in Eb. subst c. simpl. unfold lex_step.
        rewrite Hm. reflexivity.
      - simpl. destruct (char_eqb c QUOTE) eqn:Eq.
        + apply N.eqb_eq in Eq. subst c. simpl. unfold lex_step.
          rewrite Hm. reflexivity.
        + simpl. unfold lex_step. rewrite Hm, Eq, Eb. reflexivity. }
    rewrite E, IH by reflexivity. simpl.
    now rewrite <- app_assoc.
Qed.

Lemma run_parts_sound (parts : list part) (st st' : lexer) :
  run_parts parts st = Some st' ->
  fold_left lex_step (List.concat (List.map part_text parts)) st = st'.
Proof.
  revert st. induction parts as [|[text|d] parts IH]; intros st; simpl.
  - congruence.
  - rewrite fold_left_app. apply IH.
  - destruct (lx_mode st) eqn:Hm; try discriminate.
    rewrite fold_left_app, (lex_escaped _ _ Hm). apply IH.
Qed.

Lemma escape_plain (s : pystr) :
  contains QUOTE s = false -> contains BACKSLASH s = false ->
  escape_backslash_quote s = s.
Proof.
  intros Hq Hb. unfold escape_backslash_quote.
  rewrite (str_replace_absent _ _ _ Hb). now apply str_replace_absent.
Qed.



End ScriptFacts.

(** The pieces of a template whose data is escaped. *)
Ltac reify_parts l :=
  lazymatch l with
  | @nil _ => constr:(@nil part)
  | escape_backslash_quote ?d :: ?r =>
      let r' := reify_parts r in constr:(Data d :: r')
  | ?t :: ?r => let r' := reify_parts r in constr:(Fixed t :: r')
  end.

(** Reads a script [List.concat pieces] through [run_parts]. *)
Ltac lex_script :=
  unfold lex;
  lazymatch goal with
  | |- context [fold_left lex_step (List.concat ?l) lex_start] =>
      let ps := reify_parts l in
      let r := eval vm_compute in (run_parts ps lex_start) in
      lazymatch r with
      | Some ?st' =>
          let H := fresh "H" in
          assert (H : fold_left lex_step (List.concat l) lex_start = st')
            by (apply (@run_parts_sound ps lex_start st');
                vm_compute; reflexivity);
          rewrite H; clear H; vm_compute; reflexivity
      end
  end.

Section ScriptClaims.

(** The scripts of [_send_message_direct], and the commands of
    [_send_message_to_recipient] for a temporary file whose path holds no
    quote and no backslash, keep the recipient and the message inside
    string literals: whatever the two are, the code of the script is the
    code it has for empty ones, and the literals are those of the
    template with the recipient and the message as they were given. *)
Theorem direct_scripts_keep_data_in_texts :
  forall recipient message : pystr,
    let safe_recipient := escape_backslash_quote recipient in
    let safe_message := escape_backslash_quote message in
    lex (direct_group_script safe_recipient safe_message)
    = Some (skeleton (direct_group_script [] []),
            [lit "Messages"; recipient; message; lit "success";
             lit "error:"])
    /\ lex (direct_script safe_recipient safe_message)
       = Some (skeleton (direct_script [] []),
               direct_texts recipient message)
    /\ (forall file_path : pystr,
           contains QUOTE file_path = false ->
           contains BACKSLASH file_path = false ->
           lex (file_command file_path safe_recipient)
           = Some (skeleton (file_command [] []),
                   [lit "Messages"; file_path; recipient])
           /\ lex (file_command_group file_path safe_recipient)
              = Some (skeleton (file_command_group [] []),
                      [lit "Messages"; file_path; recipient])).
Proof.
  intros recipient message safe_recipient safe_message.
  subst safe_recipient safe_message.
  split; [|split].
  - unfold direct_group_script. lex_script.
  - unfold direct_script. lex_script.
  - intros file_path Hq Hb.
    rewrite <- (escape_plain _ Hq Hb) at 1 3.
    split.
    + unfold file_command. lex_script.
    + unfold file_command_group. lex_script.
Qed.

End ScriptClaims.

Lemma direct_scripts_keep_data_in_texts_witness :
  lex (file_command (lit "/tmp/imessage_k3x.txt")
                    (escape_backslash_quote breaking_recipient))
  = Some (skeleton (file_command [] []),
          [lit "Messages"; lit "/tmp/imessage_k3x.txt"; breaking_recipient]).
Proof.
  destruct (direct_scripts_keep_data_in_texts breaking_recipient [])
    as (_ & _ & H).
  destruct (H (lit "/tmp/imessage_k3x.txt")) as [H1 _];
    [vm_compute; reflexivity | vm_compute; reflexivity | exact H1].
Defined.

Section PlainDataClaims.


End PlainDataClaims.


(* ================================================================= *)
(** ** What the transport reports *)

Section TransportFacts.
Context {host : Host}.

Lemma strip_head (c : char) (r : pystr) :
  is_space c = false -> exists t, strip (c :: r) = c :: t.
Proof.
  intros Hc. unfold strip, lstrip. simpl dropwhile. rewrite Hc.
  unfold rstrip. simpl rev. rewrite dropwhile_app_stop by exact Hc.
  rewrite rev_app_distr. simpl. eauto.
Qed.

(** The text of a failed run is none of the replies of the scripts. *)
Lemma failed_run_text (err : pystr) :
  startswith (lit "Error: " ++ err) (lit "error:") = false
  /\ forall t, In t [lit "success"; lit "success:iMessage";
                     lit "success:SMS"] ->
               str_eqb (strip (lit "Error: " ++ err)) t = false.
Proof.
  split; [reflexivity|]. intros t Ht.
  destruct (@strip_head 0x45%N (lit "rror: " ++ err) eq_refl) as [s Es].
  assert (E : strip (lit "Error: " ++ err) = 0x45%N :: s) by exact Es.
  rewrite E. destruct Ht as [<-|[<-|[<-|[]]]]; reflexivity.
Qed.

Lemma run_applescript_failed (script : pystr) (m m' : Machine)
      (returncode : Z) (out err : pystr) :
  osascript script m = (Exited returncode out err, m') ->
  returncode <> 0%Z ->
  Transport.run_applescript script m = (Returns (lit "Error: " ++ err), m').
Proof.
  intros E Hc. unfold Transport.run_applescript. rewrite E.
  destruct (Z.eqb_spec returncode 0); [contradiction | reflexivity].
Qed.

(** [_send_message_direct] runs its script once, and its result starts
    with ["Error"] exactly when the run raised or the script returned a
    text that starts with ["error:"]. A run of [osascript] that ends with
    a return code other than zero is neither: its ["Error: ..."] comes
    back as an unknown result, which does not start with ["Error"]. *)
Theorem direct_send_error_reports :
  forall (recipient message : pystr) (contact_name : option pystr)
         (group_chat : bool) (m : Machine),
    let script := direct_script_of recipient message group_chat in
    let run := Transport.run_applescript script m in
    let sent := Transport._send_message_direct recipient message
                                               contact_name group_chat m in
    snd sent = snd run
    /\ is_error (fst sent)
       = match fst run with
         | Raises _ => true
         | Returns result => startswith result (lit "error:")
         end
    /\ (forall (returncode : Z) (out err : pystr),
           fst (osascript script m) = Exited returncode out err ->
           returncode <> 0%Z ->
           fst sent
           = (if group_chat then lit "Unknown group message result: "
              else lit "Unknown result: ") ++ lit "Error: " ++ err
           /\ is_error (fst sent) = false).
Proof.
  intros recipient message contact_name group_chat m script run sent.
  assert (H12 : snd sent = snd run
                /\ is_error (fst sent)
                   = match fst run with
                     | Raises _ => true
                     | Returns result => startswith result (lit "error:")
                     end).
  { subst sent run script.
    unfold Transport._send_message_direct, direct_script_of.
    destruct group_chat;
      destruct (Transport.run_applescript _ m) as [[e|result] m'];
      cbn [fst snd]; try (split; reflexivity);
      destruct (startswith result (lit "error:")); cbn [fst snd];
      try (split; reflexivity);
      repeat (destruct (str_eqb (strip result) _); cbn [fst snd];
              try (split; reflexivity)). }
  destruct H12 as [H1 H2]. split; [exact H1|]. split; [exact H2|].
  intros returncode out err E Hc.
  destruct (osascript script m) as [r m'] eqn:Eo. simpl in E. subst r.
  pose proof (run_applescript_failed _ _ Eo Hc) as Er.
  assert (Hs : fst sent
               = (if group_chat then lit "Unknown group message result: "
                  else lit "Unknown result: ") ++ lit "Error: " ++ err).
  { subst sent. unfold Transport._send_message_direct.
    fold (direct_script_of recipient message true).
    fold (direct_script_of recipient message false).
    destruct (failed_run_text err) as [F1 F2].
    destruct group_chat; fold script; rewrite Er; rewrite F1;
      rewrite ?F2 by (simpl; tauto); reflexivity. }
  split; [exact Hs|]. rewrite Hs. destruct group_chat; reflexivity.
Qed.

End TransportFacts.

Lemma direct_send_error_reports_witness :
  fst (@Transport._send_message_direct failing_host
         (lit "iMessage;+;chat100") (lit "hi") None true [])
  = lit "Unknown group message result: Error: execution error".
Proof.
  destruct (@direct_send_error_reports failing_host
              (lit "iMessage;+;chat100") (lit "hi") None true [])
    as (_ & _ & H).
  destruct (H 1%Z [] (lit "execution error") eq_refl) as [H1 _];
    [discriminate | exact H1].
Defined.

Section FailedRunFacts.
Context {host : Host}.

(** Every run of [osascript] ends with a return code other than zero. *)
Hypothesis every_run_fails :
  forall (script : pystr) (m : Machine),
  exists (returncode : Z) (out err : pystr) (m' : Machine),
    osascript script m = (Exited returncode out err, m')
    /\ returncode <> 0%Z.

Lemma direct_when_runs_fail (recipient message : pystr)
      (contact_name : option pystr) (group_chat : bool) (m : Machine) :
  let sent := Transport._send_message_direct recipient message contact_name
                                             group_chat m in
  is_error (fst sent) = false
  /\ exists err,
       fst sent
       = (if group_chat then lit "Unknown group message result: "
          else lit "Unknown result: ") ++ lit "Error: " ++ err.
Proof.
  intros sent.
  destruct (every_run_fails (direct_script_of recipient message group_chat) m)
    as (rc & out & err & m' & E & Hc).
  destruct (direct_send_error_reports recipient message contact_name
              group_chat m) as (_ & _ & H).
  destruct (H rc out err) as [H1 H2]; [now rewrite E | exact Hc|].
  split; [exact H2|]. exists err. exact H1.
Qed.

Lemma to_recipient_when_runs_fail (recipient message : pystr)
      (contact_name : option pystr) (group_chat : bool) (m : Machine) :
  let sent := Transport._send_message_to_recipient recipient message
                                                   contact_name group_chat m in
  is_error (fst sent) = false
  /\ exists err,
       fst sent
       = (if group_chat then lit "Unknown group message result: "
          else lit "Unknown result: ") ++ lit "Error: " ++ err.
Proof.
  unfold Transport._send_message_to_recipient.
  destruct (mkstemp m) as [[file_path|] m1];
    [|apply direct_when_runs_fail].
  destruct (write_text file_path message m1) as [[|] m2];
    [|apply direct_when_runs_fail].
  set (command := if negb group_chat then _ else _).
  destruct (every_run_fails command m2) as (rc & out & err & m3 & E & Hc).
  rewrite (run_applescript_failed _ _ E Hc).
  change (startswith (lit "Error: " ++ err) (lit "Error:")) with true.
  apply direct_when_runs_fail.
Qed.

(** When every run of [osascript] ends with a return code other than zero,
    [_send_message_to_recipient] returns an unknown result, which does not
    start with ["Error"]. So the engine takes the send for done: a group is
    not tried again under its alternative id, and a send to a selected
    entry empties the attributes. *)
Theorem failed_run_counts_as_sent :
  forall (recipient message : pystr) (contact_name : option pystr)
         (group_chat : bool) (m : Machine),
    let sent := Transport._send_message_to_recipient recipient message
                                                     contact_name group_chat
                                                     m in
    (is_error (fst sent) = false
     /\ exists err,
          fst sent
          = (if group_chat then lit "Unknown group message result: "
             else lit "Unknown result: ") ++ lit "Error: " ++ err)
    /\ (forall (group : group_match) (s : session),
           @send_to_group (host_messenger host) group message m
           = Transport._send_message_to_recipient
               (gm_applescript_id group) message (gm_name group) true m
           /\ snd (fst (@after_selected_send (host_messenger host) s
                          (@send_to_group (host_messenger host) group
                                          message m)))
              = empty_session)
    /\ (forall (contact : contact_match) (s : session),
           snd (fst (@after_selected_send (host_messenger host) s
                       (@send_to_contact (host_messenger host) contact
                                         message m)))
           = empty_session).
Proof.
  intros recipient message contact_name group_chat m sent.
  split; [apply to_recipient_when_runs_fail|]. clear sent. split.
  - intros group s.
    assert (E : @send_to_group (host_messenger host) group message m
                = Transport._send_message_to_recipient
                    (gm_applescript_id group) message (gm_name group)
                    true m).
    { unfold send_to_group.
      change (@_send_message_to_recipient (host_messenger host))
        with (@Transport._send_message_to_recipient host).
      destruct (to_recipient_when_runs_fail (gm_applescript_id group)
                  message (gm_name group) true m) as [H _].
      revert H.
      destruct (Transport._send_message_to_recipient _ _ _ _ _) as [r w1].
      simpl. now intros ->. }
    split; [exact E|]. rewrite E.
    destruct (to_recipient_when_runs_fail (gm_applescript_id group)
                message (gm_name group) true m) as [H _].
    unfold after_selected_send.
    revert H.
    destruct (Transport._send_message_to_recipient _ _ _ _ _) as [r w1].
    simpl. now intros ->.
  - intros contact s. unfold send_to_contact, after_selected_send.
    change (@_send_message_to_recipient (host_messenger host))
      with (@Transport._send_message_to_recipient host).
    destruct (to_recipient_when_runs_fail (cm_phone contact) message
                (Some (cm_name contact)) false m) as [H _].
    revert H.
    destruct (Transport._send_message_to_recipient _ _ _ _ _) as [r w1].
    simpl. now intros ->.
Qed.

End FailedRunFacts.

Lemma failed_run_counts_as_sent_witness :
  is_error (fst (@Transport._send_message_to_recipient failing_host
                   (lit "iMessage;+;chat100") (lit "hi") None true []))
  = false.
Proof.
  assert (H : forall (script : pystr) (m : @Machine failing_host),
             exists (returncode : Z) (out err : pystr)
                    (m' : @Machine failing_host),
               @osascript failing_host script m
               = (Exited returncode out err, m')
               /\ returncode <> 0%Z).
  { intros script m. exists 1%Z, [], (lit "execution error"), (m ++ [script]).
    split; [reflexivity | discriminate]. }
  exact (proj1 (proj1 (@failed_run_counts_as_sent failing_host H
                         (lit "iMessage;+;chat100") (lit "hi") None true
                         []))).
Defined.

(* ================================================================= *)
(** ** The matches of [fuzzy_search_messages] *)

Section SearchFacts.
Context {py : Python} {fz : Fuzz}.
Variable decode : list Byte.byte -> pystr.
Local Open Scope float_scope.

Lemma score_number (z : Z) :
  ((0 <=? z) && (z <=? 100))%Z = true ->
  is_number (float_of_int z / 100.0) = true.
Proof.
  intros H. apply andb_true_iff in H as [H0 H1].
  apply Z.leb_le in H0, H1.
  assert (A : forallb (fun n => is_number (float_of_int (Z.of_nat n) / 100.0))
                      (seq 0 101) = true) by (vm_compute; reflexivity).
  rewrite forallb_forall in A.
  rewrite <- (Z2Nat.id z H0). apply A. apply in_seq. lia.
Qed.

Lemma In_message_candidates (raw : list message_row) (body : pystr)
      (msg : message_row) :
  In (body, msg) (message_candidates decode raw) <->
  In msg raw /\ message_body decode msg = Some body /\ strip body <> [].
Proof.
  unfold message_candidates. rewrite in_flat_map. split.
  - intros (x & Hx & H). destruct (message_body decode x) as [b|] eqn:E;
      [|destruct H].
    destruct b as [|c b]; [destruct H|]. simpl in H.
    destruct (strip (c :: b)) as [|d s] eqn:Es; [destruct H|].
    destruct H as [H|[]]. injection H as <- <-.
    rewrite Es. repeat split; auto. discriminate.
  - intros (Hin & E & Hs). exists msg. split; [exact Hin|]. rewrite E.
    destruct body as [|c b]; [now destruct Hs|]. simpl.
    destruct (strip (c :: b)); [congruence | now left].
Qed.

Lemma In_matched_messages (search_term : pystr) (threshold : float)
      (candidates : list (pystr * message_row)) (body : pystr)
      (msg : message_row) (score : float) :
  In (body, msg, score) (matched_messages search_term threshold candidates)
  <-> In (body, msg) candidates
      /\ score = float_of_int (message_score search_term body) / 100.0
      /\ (threshold * 100 <=? float_of_int (message_score search_term body))
         = true.
Proof.
  unfold matched_messages. rewrite in_flat_map. split.
  - intros ([b m] & Hc & H). cbn [fst snd] in H.
    destruct (threshold * 100 <=? _) eqn:E; [|destruct H].
    destruct H as [H|[]]. injection H as <- <- <-. auto.
  - intros (Hc & -> & E). exists (body, msg). split; [exact Hc|].
    cbn [fst snd]. rewrite E. now left.
Qed.

(** What [fuzzy_search_messages] hands over to be formatted: the messages
    whose body is not blank and whose score is not below a hundred times
    the threshold, each with its score divided by a hundred, the highest
    score first and the messages of one score in the order of the query.
    The search gets there only with a term that is not blank, hours from 0
    to [MAX_HOURS] and a threshold from 0.0 to 1.0. The test is not that
    the score shown is at least the threshold: a message that scores 55
    is left out at the threshold 0.55. *)
Theorem fuzzy_search_ranks_matches :
  (forall (search_term : pystr) (hours : Z) (threshold : float)
          (raw_messages : list message_row)
          (matches : list (pystr * message_row * float)),
      fuzzy_search_messages decode search_term hours threshold
                            (MessageRows raw_messages) = Found matches ->
      (strip search_term <> []
       /\ (0 <= hours <= MAX_HOURS)%Z
       /\ (0.0 <=? threshold) = true /\ (threshold <=? 1.0) = true)
      /\ matches <> []
      /\ descending snd matches
      /\ (forall (body : pystr) (msg : message_row) (score : float),
             In (body, msg, score) matches <->
             In msg raw_messages
             /\ message_body decode msg = Some body
             /\ strip body <> []
             /\ score
                = float_of_int (message_score search_term body) / 100.0
             /\ (threshold * 100
                 <=? float_of_int (message_score search_term body)) = true)
      /\ (forall s : float,
             filter (fun e => snd e =? s) matches
             = filter (fun e => snd e =? s)
                      (matched_messages search_term threshold
                         (message_candidates decode raw_messages))))
  /\ (float_of_int 55 / 100.0 =? 0.55) = true
  /\ (0.55 * 100 <=? float_of_int 55) = false.
Proof.
  split; [|split; vm_compute; reflexivity].
  intros search_term hours threshold raw matches.
  unfold fuzzy_search_messages.
  destruct (nonempty search_term) eqn:N1; [|discriminate].
  destruct (nonempty (strip search_term)) eqn:N2; [|discriminate].
  cbn [negb orb].
  destruct (Z.ltb_spec hours 0) as [|Hh0]; [discriminate|].
  destruct (Z.ltb_spec MAX_HOURS hours) as [|Hh1]; [discriminate|].
  destruct (0.0 <=? threshold) eqn:T0; [|discriminate].
  destruct (threshold <=? 1.0) eqn:T1; [|discriminate].
  cbn [negb andb].
  destruct raw as [|r0 raw0]; [discriminate|].
  set (raw := r0 :: raw0).
  destruct (message_candidates decode raw) as [|c0 cs] eqn:Ec;
    [discriminate|].
  rewrite <- Ec.
  set (matched := matched_messages search_term threshold
                                   (message_candidates decode raw)).
  destruct (sorted_desc snd matched) as [|m0 ms] eqn:Es; [discriminate|].
  intros Hf. injection Hf as <-. rewrite <- Es.
  split; [|split; [|split; [|split]]].
  - repeat split; auto; try lia.
    destruct (strip search_term); [discriminate | discriminate].
  - rewrite Es. discriminate.
  - apply sorted_desc_descending. apply Forall_forall.
    intros [[body msg] score] Hin. apply In_matched_messages in Hin.
    destruct Hin as (_ & -> & _). cbn [snd].
    apply score_number, WRatio_range.
  - intros body msg score. rewrite In_sorted_desc.
    unfold matched. rewrite In_matched_messages, In_message_candidates.
    tauto.
  - intros s. apply sorted_desc_stable.
    intros x y Hx Hy. exact (eqb_tie Hx Hy).
Qed.

End SearchFacts.

Lemma fuzzy_search_ranks_matches_witness :
  fuzzy_search_messages (fun _ => []) (lit "lunch") 24 0.5
                        (MessageRows sample_messages)
  = Found [ (lit "Lunch",
             {| m_rowid := 3; m_text := Some (lit "Lunch");
                m_attributedBody := None |}, 1.0%float);
            (lit "see you at lunch",
             {| m_rowid := 1; m_text := Some (lit "see you at lunch");
                m_attributedBody := None |}, 0.55%float) ]
  /\ descending snd
       [ (lit "Lunch",
          {| m_rowid := 3; m_text := Some (lit "Lunch");
             m_attributedBody := None |}, 1.0%float);
         (lit "see you at lunch",
          {| m_rowid := 1; m_text := Some (lit "see you at lunch");
             m_attributedBody := None |}, 0.55%float) ].
Proof.
  assert (E : fuzzy_search_messages (fun _ => []) (lit "lunch") 24 0.5
                                    (MessageRows sample_messages)
              = Found [ (lit "Lunch",
                         {| m_rowid := 3; m_text := Some (lit "Lunch");
                            m_attributedBody := None |}, 1.0%float);
                        (lit "see you at lunch",
                         {| m_rowid := 1;
                            m_text := Some (lit "see you at lunch");
                            m_attributedBody := None |}, 0.55%float) ])
    by (vm_compute; reflexivity).
  split; [exact E|].
  destruct (proj1 (@fuzzy_search_ranks_matches ascii_python sample_fuzz
                     (fun _ => [])) _ _ _ _ _ E) as (_ & _ & H & _).
  exact H.
Defined.

(* ================================================================= *)
(** ** The name [get_contact_name] finds in the address book *)

Section ContactNameFacts.
Context {py : Python}.

Lemma first_found_Some (contacts : dict pystr) (keys : list pystr)
      (name : pystr) :
  first_found contacts keys = Some name ->
  exists k, In k keys /\ dict_get contacts k = Some name.
Proof.
  induction keys as [|k keys IH]; simpl; [discriminate|].
  destruct (dict_get contacts k) as [v|] eqn:G.
  - intros H. injection H as <-. exists k. auto.
  - intros H. destruct (IH H) as (k' & Hin & G'). exists k'. auto.
Qed.

(** [get_contact_name] looks a handle up in the address book under the
    formats [find_handle_by_phone] tries for it, in the same order, and so
    sees of the handle nothing but its digits. With the address book of
    [process_contacts], a handle without a digit is never named from it,
    and a name that is found is the full name of a row whose number is one
    of those formats. *)
Theorem contact_name_tries_the_same_formats :
  (forall (contacts : dict pystr) (handle : pystr),
      addressbook_name contacts handle
      = first_found contacts
                    (formats_to_try (normalize_phone_number handle)))
  /\ (forall (contacts : dict pystr) (handle handle' : pystr),
         normalize_phone_number handle = normalize_phone_number handle' ->
         addressbook_name contacts handle
         = addressbook_name contacts handle')
  /\ (forall (rows : list contact_row) (handle : pystr)
             (display_name : option pystr),
         normalize_phone_number handle = [] ->
         get_contact_name (Some handle)
                          (contacts_map (process_contacts rows)) display_name
         = match display_name with
           | Some (c :: n) => c :: n
           | _ => handle
           end)
  /\ (forall (rows : list contact_row) (handle name : pystr),
         addressbook_name (contacts_map (process_contacts rows)) handle
         = Some name ->
         exists row,
           In row rows
           /\ row_full_name row = name
           /\ In (row_number row)
                 (formats_to_try (normalize_phone_number handle))).
Proof.
  assert (F : forall (contacts : dict pystr) (handle : pystr),
             addressbook_name contacts handle
             = first_found contacts
                 (formats_to_try (normalize_phone_number handle))).
  { intros contacts handle. unfold addressbook_name, formats_to_try.
    destruct (startswith _ [ONE] && (10 <? _)); simpl;
      [destruct (dict_get contacts (normalize_phone_number handle));
       [reflexivity|]; now destruct (dict_get contacts (tl _))|].
    destruct (_ =? 10); simpl;
      destruct (dict_get contacts (normalize_phone_number handle));
      try reflexivity.
    now destruct (dict_get contacts (ONE :: _)). }
  assert (E : forall (rows : list contact_row) (name : pystr),
             dict_get (contacts_map (process_contacts rows)) [] <> Some name).
  { intros rows name G. apply dict_get_Some in G.
    destruct (process_contacts_consistent rows) as (_ & _ & Hk & _).
    now destruct (Hk [] name G) as [Hne _]. }
  split; [exact F|]. split; [|split].
  - intros contacts handle handle' H. now rewrite !F, H.
  - intros rows handle display_name Hn. unfold get_contact_name.
    rewrite F, Hn. simpl.
    destruct (dict_get (contacts_map (process_contacts rows)) [])
      as [name|] eqn:G; [now apply E in G | reflexivity].
  - intros rows handle name H. rewrite F in H.
    apply first_found_Some in H as (k & Hin & G).
    destruct k as [|c k]; [now apply E in G|].
    rewrite process_contacts_last_row_wins in G by discriminate.
    destruct (find (stored_under (c :: k)) (rev rows)) as [row|] eqn:Ef;
      [|discriminate].
    injection G as <-. apply find_some in Ef as [Hrow Hs].
    unfold stored_under in Hs. apply andb_true_iff in Hs as [Hs _].
    apply str_eqb_eq in Hs. exists row.
    split; [now apply in_rev|]. split; [reflexivity|]. now rewrite Hs.
Qed.

End ContactNameFacts.

Lemma contact_name_tries_the_same_formats_witness :
  exists row,
    In row sample_rows /\ row_full_name row = lit "Alex".
Proof.
  destruct (proj2 (proj2 (proj2 (@contact_name_tries_the_same_formats
                                   ascii_python)))
              sample_rows (lit "+1 (415) 555-0102") (lit "Alex"))
    as (row & H1 & H2 & _); [vm_compute; reflexivity|].
  exists row. auto.
Defined.
